(** * goapi-boilerplate: authentication and authorization core

    A shallow embedding of the Go sources of the user service: the domain
    entity (package user), the token service (package auth), the use cases
    (package usecase), the PostgreSQL repository, the Gin middleware and the
    HTTP handlers; followed by the properties the specification states about
    them.

    Go strings are byte strings: they are [string] here (a list of 8-bit
    [ascii]).  Go's [(value, error)] results are [result]; a pointer receiver
    that is mutated is returned updated.  The wall clock, the random source
    and the users table are the fields of [World], threaded by the monad [M]. *)

From Stdlib Require Import ZArith String Ascii List Bool Lia DecimalString DecimalPos.
From stdpp Require Import base option list strings gmap sorting.

Local Open Scope string_scope.

(** ** Go errors *)

Module errors.

(** The sentinel errors of github.com/golang-jwt/jwt/v5 that [errors.Is]
    can find in what [ParseWithClaims] returns. *)
Inductive jwt_sentinel :=
| ErrTokenMalformed
| ErrTokenUnverifiable
| ErrTokenSignatureInvalid
| ErrTokenInvalidClaims
| ErrTokenExpired
| ErrTokenNotValidYet.

(** The errors of golang.org/x/crypto/bcrypt. *)
Inductive bcrypt_error :=
| ErrMismatchedHashAndPassword
| ErrHashTooShort
| ErrPasswordTooLong
| HashVersionTooNewError (major : ascii)
| InvalidHashPrefixError (first : ascii)
| InvalidCostError (cost : Z)
| CorruptInputError.           (* base64 decoding of the salt *)

(** Error values.  The package-level variables ([var ErrX = errors.New(..)])
    are constructors of their own: Go compares them by identity.  A value
    built at a call site ([errors.New], [fmt.Errorf] with [%w]) is never
    identical to a package-level variable. *)
Inductive error :=
(* package user *)
| ErrInvalidRole
| ErrUserNotFound
| ErrUserAlreadyExists
| ErrInvalidPassword
| ErrUserDeactivated
(* package auth *)
| ErrInvalidToken
| ErrExpiredToken
(* database/sql *)
| ErrNoRows
(* built at a call site *)
| New (text : string)
| Errorf (text : string) (wrapped : error)
(* libraries *)
| Jwt (chain : list jwt_sentinel)
| Bcrypt (e : bcrypt_error)
| Driver (text : string)       (* lib/pq: constraint violations and the like *)
| Binding (text : string)      (* gin's ShouldBindJSON *)
| UUIDFormat (text : string)   (* google/uuid Parse *)
| NumError (text : string).    (* strconv.Atoi *)

#[global] Instance jwt_sentinel_eq_dec : EqDecision jwt_sentinel.
Proof. solve_decision. Defined.

(** [err == target] where [target] is a package-level variable. *)
Definition same (err target : error) : bool :=
  match err, target with
  | ErrInvalidRole, ErrInvalidRole
  | ErrUserNotFound, ErrUserNotFound
  | ErrUserAlreadyExists, ErrUserAlreadyExists
  | ErrInvalidPassword, ErrInvalidPassword
  | ErrUserDeactivated, ErrUserDeactivated
  | ErrInvalidToken, ErrInvalidToken
  | ErrExpiredToken, ErrExpiredToken
  | ErrNoRows, ErrNoRows => true
  | _, _ => false
  end.

(** [errors.Is(err, target)]: identity, then the [%w] chain. *)
Fixpoint Is (err target : error) : bool :=
  same err target ||
  match err with
  | Errorf _ wrapped => Is wrapped target
  | _ => false
  end.

(** [errors.Is(err, jwt.ErrX)] on what the jwt parser returns. *)
Definition IsJwt (err : error) (target : jwt_sentinel) : bool :=
  match err with
  | Jwt chain => bool_decide (target ∈ chain)
  | _ => false
  end.

Definition jwt_text (s : jwt_sentinel) : string :=
  match s with
  | ErrTokenMalformed => "token is malformed"
  | ErrTokenUnverifiable => "token is unverifiable"
  | ErrTokenSignatureInvalid => "token signature is invalid"
  | ErrTokenInvalidClaims => "token has invalid claims"
  | ErrTokenExpired => "token is expired"
  | ErrTokenNotValidYet => "token is not valid yet"
  end.

Definition bcrypt_text (e : bcrypt_error) : string :=
  match e with
  | ErrMismatchedHashAndPassword =>
      "crypto/bcrypt: hashedPassword is not the hash of the given password"
  | ErrHashTooShort =>
      "crypto/bcrypt: hashedSecret too short to be a bcrypted password"
  | ErrPasswordTooLong => "bcrypt: password length exceeds 72 bytes"
  | HashVersionTooNewError _ => "crypto/bcrypt: bcrypt algorithm version too new"
  | InvalidHashPrefixError _ => "crypto/bcrypt: bcrypt hashes must start with '$'"
  | InvalidCostError _ => "crypto/bcrypt: cost outside allowed range"
  | CorruptInputError => "illegal base64 data"
  end.

(** [err.Error()].  Only the text of a [Binding] error reaches a response
    body; the library texts are abridged. *)
Fixpoint Error (err : error) : string :=
  match err with
  | ErrInvalidRole => "invalid role"
  | ErrUserNotFound => "user not found"
  | ErrUserAlreadyExists => "user already exists"
  | ErrInvalidPassword => "invalid password"
  | ErrUserDeactivated => "user account is deactivated"
  | ErrInvalidToken => "invalid token"
  | ErrExpiredToken => "token expired"
  | ErrNoRows => "sql: no rows in result set"
  | New text => text
  | Errorf text wrapped => text +:+ ": " +:+ Error wrapped
  | Jwt chain => String.concat ": " (map jwt_text chain)
  | Bcrypt e => bcrypt_text e
  | Driver text => text
  | Binding text => text
  | UUIDFormat text => text
  | NumError text => "strconv.Atoi: parsing " +:+ text +:+ ": invalid syntax"
  end.

End errors.

Export errors.

(** A Go result [(T, error)]: the value when the error is nil. *)
Inductive result (A : Type) :=
| Ok (a : A)
| Err (e : error).

Arguments Ok {A} a.
Arguments Err {A} e.

(** ** The world outside the process *)

Module time.

(** An instant, in nanoseconds; a [time.Duration], in nanoseconds. *)
Definition Time := Z.
Definition Duration := Z.

Definition Second : Duration := 1000000000%Z.
Definition Hour : Duration := (3600 * Second)%Z.

Definition Add (t : Time) (d : Duration) : Time := (t + d)%Z.
Definition Before (t u : Time) : bool := (t <? u)%Z.
(** [t.Truncate(d)]: [t] rounded down to a multiple of [d]. *)
Definition Truncate (t : Time) (d : Duration) : Time := (t `div` d * d)%Z.
(** The zero [time.Time] is modelled by instant 0. *)
Definition IsZero (t : Time) : bool := (t =? 0)%Z.

End time.

(** Rows of the [users] table (sql/migrations/001_create_users_table.sql). *)
Module row.

Record User := mkUser {
  ID : string;             (* UUID, 16 bytes *)
  Email : string;
  Password : string;
  Name : string;
  Role : string;
  IsActive : bool;
  CreatedAt : time.Time;
  UpdatedAt : time.Time;
}.

End row.

(** [clock k] is what the [k]-th call of [time.Now()] reads; [entropy k] is
    what the [k]-th read of the random source yields. *)
Record World := mkWorld {
  clock : nat → time.Time;
  ticks : nat;
  entropy : nat → string;
  draws : nat;
  users : list row.User;
}.

Definition M (A : Type) : Type := World → A * World.

#[global] Instance M_ret : MRet M := λ A a w, (a, w).
#[global] Instance M_bind : MBind M :=
  λ A B f m w, let '(a, w') := m w in f a w'.

(** [s] cut or padded with zero bytes to exactly [n] bytes. *)
Fixpoint fit (n : nat) (s : string) : string :=
  match n with
  | O => ""
  | S n' =>
      match s with
      | EmptyString => String "000"%char (fit n' "")
      | String a s' => String a (fit n' s')
      end
  end.

Lemma fit_length n s : String.length (fit n s) = n.
Proof. revert s. induction n as [|n IH]; intros [|a s]; simpl; auto. Qed.

Arguments fit : simpl nomatch.

(** [time.Now()]. *)
Definition Now : M time.Time :=
  λ w, (clock w (ticks w),
        mkWorld (clock w) (S (ticks w)) (entropy w) (draws w) (users w)).

(** [io.ReadFull(rand.Reader, buf)] with [len(buf) = n]. *)
Definition rand_Read (n : nat) : M string :=
  λ w, (fit n (entropy w (draws w)),
        mkWorld (clock w) (ticks w) (entropy w) (S (draws w)) (users w)).

Definition get_users : M (list row.User) := λ w, (users w, w).
Definition put_users (t : list row.User) : M unit :=
  λ w, (tt, mkWorld (clock w) (ticks w) (entropy w) (draws w) t).

(** ** github.com/golang-jwt/jwt/v5, as far as package auth uses it

    The compact serialization, base64url, JSON and HMAC-SHA256 are the
    fields of [Primitives]; the parser's control flow and the claims
    validator are written out. *)

Module jwt.

(** A [*NumericDate]: [NewNumericDate] truncates to [TimePrecision], one
    second, so the value is a number of whole seconds. *)
Definition NumericDate := Z.

Definition NewNumericDate (t : time.Time) : NumericDate :=
  (time.Truncate t time.Second `div` time.Second)%Z.

Definition DateTime (d : NumericDate) : time.Time := (d * time.Second)%Z.

(** The registered claims package auth sets; a nil pointer is [None]. *)
Record RegisteredClaims := mkRegisteredClaims {
  ExpiresAt : option NumericDate;
  NotBefore : option NumericDate;
  IssuedAt : option NumericDate;
}.

(** The [jwt.Claims] interface, as far as the validator calls it. *)
Class Claims (C : Type) := {
  GetExpirationTime : C → option NumericDate;
  GetNotBefore : C → option NumericDate;
}.

Record Token (C : Type) := mkToken {
  Method : string;        (* the "alg" of the header *)
  TokenClaims : C;
  Signature : string;
  Valid : bool;
}.

Arguments mkToken {C}.
Arguments Method {C}.
Arguments TokenClaims {C}.
Arguments Signature {C}.
Arguments Valid {C}.

Definition SigningMethodHS256 : string := "HS256".

(** Why [ParseUnverified] gives up: the token is not three segments of
    base64url JSON, or its header names no known signing method. *)
Inductive unparsed :=
| Malformed
| Unverifiable.

Definition unparsed_error (u : unparsed) : error :=
  match u with
  | Malformed => Jwt [ErrTokenMalformed]
  | Unverifiable => Jwt [ErrTokenUnverifiable]
  end.

Class Primitives (C : Type) := {
  (** [NewWithClaims(method, claims).SignedString(key)] *)
  SignedString : string → C → string → result string;
  (** [Parser.ParseUnverified]: the token (not yet valid) and its three
      segments *)
  ParseUnverified : string → Token C * list string + unparsed;
  (** [Parser.DecodeSegment] *)
  DecodeSegment : string → option string;
  (** whether [method.Verify(signingString, sig, key)] returns nil *)
  Verify : string → string → string → string → bool;
}.

Section Parser.
Context {C : Type} `{Claims C} `{Primitives C}.

(** [Validator.verifyExpiresAt] with no leeway and [exp] not required. *)
Definition verifyExpiresAt (claims : C) (cmp : time.Time) : list jwt_sentinel :=
  match GetExpirationTime claims with
  | None => []
  | Some exp => if time.Before cmp (DateTime exp) then [] else [ErrTokenExpired]
  end.

(** [Validator.verifyNotBefore]. *)
Definition verifyNotBefore (claims : C) (cmp : time.Time) : list jwt_sentinel :=
  match GetNotBefore claims with
  | None => []
  | Some nbf => if negb (time.Before cmp (DateTime nbf)) then [] else [ErrTokenNotValidYet]
  end.

(** [Validator.Validate] of the default validator: expiry and not-before
    against [time.Now()]; issued-at, audience, issuer and subject are not
    checked unless asked for.  The empty list is the nil error. *)
Definition Validate (claims : C) : M (list jwt_sentinel) :=
  now ← Now;
  mret (verifyExpiresAt claims now ++ verifyNotBefore claims now)%list.

(** [ParseWithClaims(tokenString, claims, keyFunc)] where [keyFunc] returns
    [key] for every token. *)
Definition ParseWithClaims (tokenString : string) (key : string)
  : M (result (Token C)) :=
  match ParseUnverified tokenString with
  | inr u => mret (Err (unparsed_error u))
  | inl (token, parts) =>
      match DecodeSegment (nth 2 parts "") with
      | None => mret (Err (Jwt [ErrTokenMalformed]))
      | Some sig =>
          let text := nth 0 parts "" +:+ "." +:+ nth 1 parts "" in
          if negb (Verify (Method token) text sig key)
          then mret (Err (Jwt [ErrTokenSignatureInvalid]))
          else
            errs ← Validate (TokenClaims token);
            match errs with
            | [] => mret (Ok (mkToken (Method token) (TokenClaims token) sig true))
            | _ => mret (Err (Jwt (ErrTokenInvalidClaims :: errs)))
            end
      end
  end.

End Parser.

End jwt.

(** ** package auth *)

Module auth.

(** [Claims]: the JWT claims. *)
Record Claims := mkClaims {
  UserID : string;
  Email : string;
  Role : string;
  Registered : jwt.RegisteredClaims;
}.

#[global] Instance Claims_jwt : jwt.Claims Claims := {
  jwt.GetExpirationTime c := jwt.ExpiresAt (Registered c);
  jwt.GetNotBefore c := jwt.NotBefore (Registered c);
}.

(** The [JWTService] interface. *)
Class JWTService (J : Type) := {
  GenerateToken : J → string → string → string → M (result string);
  ValidateToken : J → string → M (result Claims);
}.

(** [jwtService] implements [JWTService]. *)
Record jwtService := mkJwtService {
  secretKey : string;
  expiresIn : time.Duration;
}.

Definition NewJWTService (secretKey : string) (expiresIn : time.Duration)
  : jwtService := mkJwtService secretKey expiresIn.

Section Service.
Context `{jwt.Primitives Claims}.

Definition jwtService_GenerateToken (j : jwtService)
  (userID email role : string) : M (result string) :=
  t_exp ← Now;
  t_iat ← Now;
  t_nbf ← Now;
  let claims := {|
    UserID := userID;
    Email := email;
    Role := role;
    Registered := {|
      jwt.ExpiresAt := Some (jwt.NewNumericDate (time.Add t_exp (expiresIn j)));
      jwt.IssuedAt := Some (jwt.NewNumericDate t_iat);
      jwt.NotBefore := Some (jwt.NewNumericDate t_nbf);
    |};
  |} in
  mret (jwt.SignedString jwt.SigningMethodHS256 claims (secretKey j)).

Definition jwtService_ValidateToken (j : jwtService) (tokenString : string)
  : M (result Claims) :=
  parsed ← jwt.ParseWithClaims tokenString (secretKey j);
  match parsed with
  | Err err =>
      if IsJwt err ErrTokenExpired then mret (Err ErrExpiredToken)
      else mret (Err ErrInvalidToken)
  | Ok token =>
      if jwt.Valid token then mret (Ok (jwt.TokenClaims token))
      else mret (Err ErrInvalidToken)
  end.

#[global] Instance jwtService_JWTService : JWTService jwtService := {
  GenerateToken := jwtService_GenerateToken;
  ValidateToken := jwtService_ValidateToken;
}.

End Service.

End auth.

(** ** Byte-string helpers: Go's [s[i]], [s[:n]] and [s[n:]] *)

Fixpoint str_take (n : nat) (s : string) : string :=
  match n, s with
  | S n', String a s' => String a (str_take n' s')
  | _, _ => ""
  end.

Fixpoint str_drop (n : nat) (s : string) : string :=
  match n, s with
  | S n', String _ s' => str_drop n' s'
  | _, _ => s
  end.

Definition byte_at (s : string) (i : nat) : ascii :=
  match String.get i s with
  | Some a => a
  | None => "000"%char
  end.

Arguments str_take : simpl nomatch.
Arguments str_drop : simpl nomatch.

(** ** strconv and strings *)

Module strconv.

Definition digit_val (a : ascii) : option Z :=
  let n := Z.of_nat (nat_of_ascii a) in
  if ((48 <=? n) && (n <=? 57))%Z then Some (n - 48)%Z else None.

(** The value of a string of decimal digits, read left to right. *)
Fixpoint digits (acc : Z) (s : string) : option Z :=
  match s with
  | EmptyString => Some acc
  | String a s' =>
      match digit_val a with
      | Some d => digits (10 * acc + d)%Z s'
      | None => None
      end
  end.

(** [strconv.Atoi] where [int] has 64 bits: an optional sign, at least one
    digit, the value in range.  The error carries the text that failed. *)
Definition Atoi (s : string) : result Z :=
  let '(neg, body) :=
    match s with
    | String "+" s' => (false, s')
    | String "-" s' => (true, s')
    | _ => (false, s)
    end in
  if bool_decide (body = "") then Err (NumError s)
  else
    match digits 0 body with
    | None => Err (NumError s)
    | Some n =>
        let v := if (neg : bool) then (- n)%Z else n in
        if ((v <? - 2 ^ 63) || (2 ^ 63 - 1 <? v))%Z then Err (NumError s) else Ok v
    end.

End strconv.

(** [strings.Split(s, sep)] for a separator of one byte. *)
Fixpoint strings_Split (s : string) (sep : ascii) : list string :=
  match s with
  | EmptyString => [""]
  | String a s' =>
      if bool_decide (a = sep) then "" :: strings_Split s' sep
      else
        match strings_Split s' sep with
        | x :: xs => String a x :: xs
        | [] => [String a ""]
        end
  end.

(** ** unicode/utf8 *)

Module utf8.

(** Whether byte [b] lies in [lo, hi]. *)
Definition between (lo hi : N) (b : ascii) : bool :=
  ((lo <=? N_of_ascii b) && (N_of_ascii b <=? hi))%N.

(** [utf8.ValidString]: [s] is a sequence of well-formed UTF-8 encodings
    (no overlong form, no surrogate, nothing above U+10FFFF). *)
Fixpoint ValidString (s : string) : bool :=
  match s with
  | EmptyString => true
  | String b0 s1 =>
      if between 0 127 b0 then ValidString s1
      else
        match s1 with
        | EmptyString => false
        | String b1 s2 =>
            if between 194 223 b0 then between 128 191 b1 && ValidString s2
            else
              match s2 with
              | EmptyString => false
              | String b2 s3 =>
                  if between 224 239 b0 then
                    between (if between 224 224 b0 then 160 else 128)
                      (if between 237 237 b0 then 159 else 191) b1
                    && between 128 191 b2 && ValidString s3
                  else
                    match s3 with
                    | EmptyString => false
                    | String b3 s4 =>
                        between 240 244 b0
                        && between (if between 240 240 b0 then 144 else 128)
                             (if between 244 244 b0 then 143 else 191) b1
                        && between 128 191 b2 && between 128 191 b3
                        && ValidString s4
                    end
              end
        end
  end.

End utf8.

(** ** golang.org/x/crypto/bcrypt

    The hash format, the cost and length checks and the use of the password
    as Blowfish key material are written out; the Blowfish rounds and
    bcrypt's base64 alphabet are the fields of [Blowfish].  The limit of 72
    bytes in [GenerateFromPassword] is that of the releases since v0.5.0;
    [CompareHashAndPassword] has no such limit in any release. *)

Module bcrypt.

Definition MinCost : Z := 4.
Definition MaxCost : Z := 31.
Definition DefaultCost : Z := 10.

Definition majorVersion : ascii := "2".
Definition minorVersion : ascii := "a".
Definition maxSaltSize : nat := 16.
Definition encodedSaltSize : nat := 22.
Definition encodedHashSize : nat := 31.
Definition minHashSize : nat := 59.

Record hashed := mkHashed {
  hash : string;
  salt : string;
  cost : Z;
  major : ascii;
  minor : ascii;     (* the zero byte when the version has no minor part *)
}.

Class Blowfish := {
  (** bcrypt's [base64Encode] *)
  base64Encode : string → string;
  (** The expensive key setup and the 64 encryptions of [bcrypt()], from the
      cost, the encoded salt and the 72 bytes of key material, to the encoded
      hash; the error is that of decoding the salt. *)
  crypt : Z → string → string → result string;
  (** 16 bytes encode to 22 characters. *)
  salt_size : ∀ raw,
    String.length raw = maxSaltSize →
    String.length (base64Encode raw) = encodedSaltSize;
  (** A salt that [base64Encode] wrote decodes again. *)
  crypt_encoded_salt : ∀ raw cost key,
    String.length raw = maxSaltSize →
    ∃ hash, crypt cost (base64Encode raw) key = Ok hash;
  (** The 23 bytes kept of the cipher text encode to 31 characters. *)
  crypt_size : ∀ cost salt key hash,
    crypt cost salt key = Ok hash → String.length hash = encodedHashSize;
}.

(** [n] bytes read off [key] in a circle, continuing at [rest]: the way
    Blowfish's [ExpandKey] walks the key. *)
Fixpoint circular (n : nat) (rest key : string) : string :=
  match n with
  | O => ""
  | S n' =>
      match rest with
      | String a rest' => String a (circular n' rest' key)
      | EmptyString =>
          match key with
          | String a key' => String a (circular n' key' key)
          | EmptyString => ""
          end
      end
  end.

(** The key material: the password with a trailing zero byte, of which the
    key schedule reads 18 words of 4 bytes. *)
Definition key_material (password : string) : string :=
  let ckey := password +:+ String "000"%char "" in
  circular 72 ckey ckey.

Section Bcrypt.
Context `{Blowfish}.

(** [bcrypt(password, cost, salt)]. *)
Definition bcrypt (password : string) (cost : Z) (salt : string) : result string :=
  crypt cost salt (key_material password).

Definition checkCost (cost : Z) : option error :=
  if ((cost <? MinCost) || (MaxCost <? cost))%Z
  then Some (Bcrypt (InvalidCostError cost))
  else None.

Definition digit_char (d : Z) : ascii := ascii_of_nat (48 + Z.to_nat d).

(** [hashed.Hash]: the 60 (or 59) bytes [$2a$10$<salt><hash>], the cost
    printed with [%02d], the hash cut or padded to 31 bytes by the copy
    into the buffer. *)
Definition Hash (p : hashed) : string :=
  let rest :=
    String "$"%char
      (String (digit_char (cost p `div` 10))
         (String (digit_char (cost p `mod` 10))
            (String "$"%char (salt p +:+ fit encodedHashSize (hash p))))) in
  String "$"%char
    (String (major p)
       (if bool_decide (minor p = "000"%char) then rest
        else String (minor p) rest)).

(** [decodeVersion]: the major and minor version and the bytes consumed. *)
Definition decodeVersion (sbytes : string) : result (ascii * ascii * nat) :=
  if negb (bool_decide (byte_at sbytes 0 = "$"%char))
  then Err (Bcrypt (InvalidHashPrefixError (byte_at sbytes 0)))
  else if (nat_of_ascii majorVersion <? nat_of_ascii (byte_at sbytes 1))%nat
  then Err (Bcrypt (HashVersionTooNewError (byte_at sbytes 1)))
  else if negb (bool_decide (byte_at sbytes 2 = "$"%char))
  then Ok (byte_at sbytes 1, byte_at sbytes 2, 4%nat)
  else Ok (byte_at sbytes 1, "000"%char, 3%nat).

(** [decodeCost]: the cost and the bytes consumed. *)
Definition decodeCost (sbytes : string) : result (Z * nat) :=
  match strconv.Atoi (str_take 2 sbytes) with
  | Err e => Err e
  | Ok cost =>
      match checkCost cost with
      | Some e => Err e
      | None => Ok (cost, 3%nat)
      end
  end.

Definition newFromHash (hashedSecret : string) : result hashed :=
  if (String.length hashedSecret <? minHashSize)%nat
  then Err (Bcrypt ErrHashTooShort)
  else
    match decodeVersion hashedSecret with
    | Err e => Err e
    | Ok (major, minor, n) =>
        let hashedSecret := str_drop n hashedSecret in
        match decodeCost hashedSecret with
        | Err e => Err e
        | Ok (cost, n) =>
            let hashedSecret := str_drop n hashedSecret in
            let salt := str_take encodedSaltSize hashedSecret in
            let hashedSecret := str_drop encodedSaltSize hashedSecret in
            Ok (mkHashed hashedSecret salt cost major minor)
        end
    end.

Definition newFromPassword (password : string) (cost : Z) : M (result hashed) :=
  let cost := if (cost <? MinCost)%Z then DefaultCost else cost in
  match checkCost cost with
  | Some e => mret (Err e)
  | None =>
      unencodedSalt ← rand_Read maxSaltSize;
      let salt := base64Encode unencodedSalt in
      match bcrypt password cost salt with
      | Err e => mret (Err e)
      | Ok hash => mret (Ok (mkHashed hash salt cost majorVersion minorVersion))
      end
  end.

Definition GenerateFromPassword (password : string) (cost : Z) : M (result string) :=
  if (72 <? String.length password)%nat
  then mret (Err (Bcrypt ErrPasswordTooLong))
  else
    p ← newFromPassword password cost;
    match p with
    | Err e => mret (Err e)
    | Ok p => mret (Ok (Hash p))
    end.

(** [CompareHashAndPassword]; [None] is the nil error. *)
Definition CompareHashAndPassword (hashedPassword password : string) : option error :=
  match newFromHash hashedPassword with
  | Err e => Some e
  | Ok p =>
      match bcrypt password (cost p) (salt p) with
      | Err e => Some e
      | Ok otherHash =>
          let otherP := mkHashed otherHash (salt p) (cost p) (major p) (minor p) in
          if bool_decide (Hash p = Hash otherP) then None
          else Some (Bcrypt ErrMismatchedHashAndPassword)
      end
  end.

End Bcrypt.

End bcrypt.

(** ** package user *)

Module user.

(** [Role]: the role of a user. *)
Definition Role := string.

Definition RoleAdmin : Role := "admin".
Definition RoleUser : Role := "user".
Definition RoleGuest : Role := "guest".

(** [User]: the domain entity. *)
Record User := mkUser {
  ID : string;
  Email : string;
  Password : string;    (* json:"-" *)
  Name : string;
  Role_ : Role;
  IsActive : bool;
  CreatedAt : time.Time;
  UpdatedAt : time.Time;
}.

Definition with_Password (u : User) (p : string) : User :=
  mkUser (ID u) (Email u) p (Name u) (Role_ u) (IsActive u) (CreatedAt u) (UpdatedAt u).
Definition with_Name (u : User) (n : string) : User :=
  mkUser (ID u) (Email u) (Password u) n (Role_ u) (IsActive u) (CreatedAt u) (UpdatedAt u).
Definition with_Email (u : User) (e : string) : User :=
  mkUser (ID u) e (Password u) (Name u) (Role_ u) (IsActive u) (CreatedAt u) (UpdatedAt u).
Definition with_Role (u : User) (r : Role) : User :=
  mkUser (ID u) (Email u) (Password u) (Name u) r (IsActive u) (CreatedAt u) (UpdatedAt u).
Definition with_IsActive (u : User) (b : bool) : User :=
  mkUser (ID u) (Email u) (Password u) (Name u) (Role_ u) b (CreatedAt u) (UpdatedAt u).
Definition with_UpdatedAt (u : User) (t : time.Time) : User :=
  mkUser (ID u) (Email u) (Password u) (Name u) (Role_ u) (IsActive u) (CreatedAt u) t.
Definition with_CreatedAt (u : User) (t : time.Time) : User :=
  mkUser (ID u) (Email u) (Password u) (Name u) (Role_ u) (IsActive u) t (UpdatedAt u).
Definition with_ID (u : User) (id : string) : User :=
  mkUser id (Email u) (Password u) (Name u) (Role_ u) (IsActive u) (CreatedAt u) (UpdatedAt u).

Definition isValidRole (role : Role) : bool :=
  bool_decide (role = RoleAdmin) || bool_decide (role = RoleUser)
  || bool_decide (role = RoleGuest).

Section Entity.
Context `{bcrypt.Blowfish}.

(** [SetPassword]: the user with the bcrypt hash of [password]. *)
Definition SetPassword (u : User) (password : string) : M (result User) :=
  if bool_decide (password = "")
  then mret (Err (New "password cannot be empty"))
  else if (String.length password <? 6)%nat
  then mret (Err (New "password must be at least 6 characters long"))
  else
    hashedPassword ← bcrypt.GenerateFromPassword password bcrypt.DefaultCost;
    match hashedPassword with
    | Err err => mret (Err err)
    | Ok hashedPassword => mret (Ok (with_Password u hashedPassword))
    end.

Definition CheckPassword (u : User) (password : string) : bool :=
  match bcrypt.CompareHashAndPassword (Password u) password with
  | None => true
  | Some _ => false
  end.

(** [Validate]; [None] is the nil error. *)
Definition Validate (u : User) : option error :=
  if bool_decide (Email u = "") then Some (New "email cannot be empty")
  else if bool_decide (Name u = "") then Some (New "name cannot be empty")
  else if bool_decide (Password u = "") then Some (New "password cannot be empty")
  else if negb (isValidRole (Role_ u)) then Some (New "invalid role")
  else None.

Definition NewUser (email password name : string) (role : Role) : M (result User) :=
  createdAt ← Now;
  updatedAt ← Now;
  let user := mkUser "" email "" name role true createdAt updatedAt in
  set ← SetPassword user password;
  match set with
  | Err err => mret (Err err)
  | Ok user =>
      match Validate user with
      | Some err => mret (Err err)
      | None => mret (Ok user)
      end
  end.

Definition UpdateName (u : User) (name : string) : M (result User) :=
  if bool_decide (name = "") then mret (Err (New "name cannot be empty"))
  else now ← Now; mret (Ok (with_UpdatedAt (with_Name u name) now)).

Definition UpdateEmail (u : User) (email : string) : M (result User) :=
  if bool_decide (email = "") then mret (Err (New "email cannot be empty"))
  else now ← Now; mret (Ok (with_UpdatedAt (with_Email u email) now)).

Definition UpdateRole (u : User) (role : Role) : M (result User) :=
  if negb (isValidRole role) then mret (Err (New "invalid role"))
  else now ← Now; mret (Ok (with_UpdatedAt (with_Role u role) now)).

Definition Activate (u : User) : M User :=
  now ← Now; mret (with_UpdatedAt (with_IsActive u true) now).

Definition Deactivate (u : User) : M User :=
  now ← Now; mret (with_UpdatedAt (with_IsActive u false) now).

Definition IsAdmin (u : User) : bool := bool_decide (Role_ u = RoleAdmin).

Definition IsActiveUser (u : User) : bool := IsActive u.

End Entity.

End user.

(** ** github.com/google/uuid

    A UUID is its 16 bytes; the text form and the version bits are the
    library's. *)

Module uuid.

Definition UUID := string.

Class Format := {
  (** the version and variant bits laid over 16 random bytes *)
  FromRandom : string → UUID;
  (** [UUID.String] *)
  String_ : UUID → string;
  (** [uuid.Parse] *)
  Parse : string → result UUID;
}.

(** [uuid.New()]. *)
Definition New `{Format} : M UUID :=
  raw ← rand_Read 16;
  mret (FromRandom raw).

End uuid.

(** ** The queries of sql/queries/user.sql over the [users] table

    The table is [users] of the world, in insertion order.  The queries are
    run against a reachable server: their only failures are those of the
    statement itself. *)

Module db.

Class Engine := {
  (** the instant a [TIMESTAMP WITH TIME ZONE] column keeps of a Go time *)
  timestamptz : time.Time → time.Time;
  (** the text a [VARCHAR(n)] column keeps, or [None] when the server
      refuses it (too long, or not in the server's encoding) *)
  varchar : nat → string → option string;
  (** a text of at most [n] bytes has at most [n] characters and is kept
      as it is *)
  varchar_short : ∀ n s kept,
    (String.length s ≤ n)%nat → varchar n s = Some kept → kept = s;
}.

Record CreateUserParams := mkCreateUserParams {
  c_Email : string;
  c_Password : string;
  c_Name : string;
  c_Role : string;
  c_IsActive : bool;
  c_CreatedAt : time.Time;
  c_UpdatedAt : time.Time;
}.

Record UpdateUserParams := mkUpdateUserParams {
  u_ID : uuid.UUID;
  u_Email : string;
  u_Password : string;
  u_Name : string;
  u_Role : string;
  u_IsActive : bool;
  u_UpdatedAt : time.Time;
}.

Record ListUsersParams := mkListUsersParams {
  Limit : Z;      (* int32 *)
  Offset : Z;     (* int32 *)
}.

(** The conversion [int32(n)] of a Go [int]. *)
Definition int32 (n : Z) : Z := ((n + 2 ^ 31) `mod` 2 ^ 32 - 2 ^ 31)%Z.

Section Queries.
Context `{Engine} `{uuid.Format}.

(** The columns as the table keeps them. *)
Definition store_row (r : row.User) : result row.User :=
  match varchar 255 (row.Email r), varchar 255 (row.Password r),
        varchar 255 (row.Name r), varchar 50 (row.Role r) with
  | Some email, Some password, Some name, Some role =>
      Ok (row.mkUser (row.ID r) email password name role (row.IsActive r)
            (timestamptz (row.CreatedAt r)) (timestamptz (row.UpdatedAt r)))
  | _, _, _, _ => Err (Driver "value too long for type character varying")
  end.

(** The CHECK constraints of the migration; [None] when the row satisfies
    them. *)
Definition check_row (r : row.User) : option error :=
  if negb (bool_decide (row.Role r ∈ ["admin"; "user"; "guest"])) then
    Some (Driver "violates check constraint check_valid_role")
  else if bool_decide (row.Email r = "") then
    Some (Driver "violates check constraint check_email_not_empty")
  else if bool_decide (row.Name r = "") then
    Some (Driver "violates check constraint check_name_not_empty")
  else if bool_decide (row.Password r = "") then
    Some (Driver "violates check constraint check_password_not_empty")
  else None.

(** PRIMARY KEY (id) and UNIQUE (email) against the other rows. *)
Definition check_unique (others : list row.User) (r : row.User) : option error :=
  if existsb (λ o, bool_decide (row.ID o = row.ID r)) others then
    Some (Driver "duplicate key value violates unique constraint users_pkey")
  else if existsb (λ o, bool_decide (row.Email o = row.Email r)) others then
    Some (Driver "duplicate key value violates unique constraint users_email_key")
  else None.

(** [gen_random_uuid()]. *)
Definition gen_random_uuid : M uuid.UUID :=
  raw ← rand_Read 16;
  mret (uuid.FromRandom raw).

(** -- name: CreateUser :one *)
Definition CreateUser (arg : CreateUserParams) : M (result row.User) :=
  id ← gen_random_uuid;
  table ← get_users;
  match store_row (row.mkUser id (c_Email arg) (c_Password arg) (c_Name arg)
                     (c_Role arg) (c_IsActive arg) (c_CreatedAt arg)
                     (c_UpdatedAt arg)) with
  | Err e => mret (Err e)
  | Ok r =>
      match check_row r with
      | Some e => mret (Err e)
      | None =>
          match check_unique table r with
          | Some e => mret (Err e)
          | None => _ ← put_users (table ++ [r])%list; mret (Ok r)
          end
      end
  end.

(** The first row a [:one] query scans, or [sql.ErrNoRows]. *)
Definition one (rows : list row.User) : result row.User :=
  match rows with
  | r :: _ => Ok r
  | [] => Err ErrNoRows
  end.

(** -- name: GetUserByID :one *)
Definition GetUserByID (id : uuid.UUID) : M (result row.User) :=
  table ← get_users;
  mret (one (filter (λ r, row.ID r = id) table)).

(** -- name: GetUserByEmail :one *)
Definition GetUserByEmail (email : string) : M (result row.User) :=
  table ← get_users;
  mret (one (filter (λ r, row.Email r = email) table)).

(** -- name: UpdateUser :one.  Every parameter is non-null, so each
    [COALESCE] yields the parameter. *)
Definition UpdateUser (arg : UpdateUserParams) : M (result row.User) :=
  table ← get_users;
  match filter (λ r, row.ID r = u_ID arg) table with
  | [] => mret (Err ErrNoRows)
  | old :: _ =>
      let others := filter (λ o, row.ID o ≠ u_ID arg) table in
      match store_row (row.mkUser (row.ID old) (u_Email arg) (u_Password arg)
                         (u_Name arg) (u_Role arg) (u_IsActive arg) 0%Z
                         (u_UpdatedAt arg)) with
      | Err e => mret (Err e)
      | Ok new =>
          let r := row.mkUser (row.ID new) (row.Email new) (row.Password new)
                     (row.Name new) (row.Role new) (row.IsActive new)
                     (row.CreatedAt old) (row.UpdatedAt new) in
          match check_row r with
          | Some e => mret (Err e)
          | None =>
              match check_unique others r with
              | Some e => mret (Err e)
              | None =>
                  _ ← put_users
                        (map (λ o, if bool_decide (row.ID o = u_ID arg) then r else o)
                           table);
                  mret (Ok r)
              end
          end
      end
  end.

(** -- name: DeleteUser :exec.  Deleting no row is not an error. *)
Definition DeleteUser (id : uuid.UUID) : M (option error) :=
  table ← get_users;
  _ ← put_users (filter (λ r, row.ID r ≠ id) table);
  mret None.

(** [ORDER BY created_at DESC]; rows of equal [created_at] keep the table's
    order (SQL leaves their order open). *)
Fixpoint insert_desc (r : row.User) (sorted : list row.User) : list row.User :=
  match sorted with
  | [] => [r]
  | s :: rest =>
      if (row.CreatedAt s <? row.CreatedAt r)%Z then r :: sorted
      else s :: insert_desc r rest
  end.

Definition order_by_created_at_desc (rows : list row.User) : list row.User :=
  foldr (λ r acc, insert_desc r acc) [] rows.

(** -- name: ListUsers :many *)
Definition ListUsers (arg : ListUsersParams) : M (result (list row.User)) :=
  table ← get_users;
  if (Limit arg <? 0)%Z then mret (Err (Driver "LIMIT must not be negative"))
  else if (Offset arg <? 0)%Z then mret (Err (Driver "OFFSET must not be negative"))
  else mret (Ok (take (Z.to_nat (Limit arg))
                   (drop (Z.to_nat (Offset arg)) (order_by_created_at_desc table)))).

(** -- name: CountUsers :one *)
Definition CountUsers : M (result Z) :=
  table ← get_users;
  mret (Ok (Z.of_nat (length table))).

(** -- name: ExistsByEmail :one *)
Definition ExistsByEmail (email : string) : M (result bool) :=
  table ← get_users;
  mret (Ok (existsb (λ r, bool_decide (row.Email r = email)) table)).

(** -- name: ExistsByID :one *)
Definition ExistsByID (id : uuid.UUID) : M (result bool) :=
  table ← get_users;
  mret (Ok (existsb (λ r, bool_decide (row.ID r = id)) table)).

End Queries.

End db.

(** ** package repository *)

Module repository.

(** The [UserRepository] interface.  A method that takes [*user.User] and
    writes to it returns the user as it leaves it. *)
Class UserRepository (R : Type) := {
  Create : R → user.User → M (result user.User);
  GetByID : R → string → M (result user.User);
  GetByEmail : R → string → M (result user.User);
  Update : R → user.User → M (result user.User);
  Delete : R → string → M (option error);
  List : R → Z → Z → M (result (list user.User));
  Count : R → M (result Z);
  ExistsByEmail : R → string → M (result bool);
  ExistsByID : R → string → M (result bool);
}.

(** [PostgresUserRepository]: its fields are the connection and the
    querier, whose state is the world's table. *)
Inductive PostgresUserRepository := NewPostgresUserRepository.

Section Postgres.
Context `{db.Engine} `{uuid.Format}.

Definition mapDBUserToDomainUser (dbUser : row.User) : user.User :=
  user.mkUser (uuid.String_ (row.ID dbUser)) (row.Email dbUser)
    (row.Password dbUser) (row.Name dbUser) (row.Role dbUser)
    (row.IsActive dbUser) (row.CreatedAt dbUser) (row.UpdatedAt dbUser).

Definition Postgres_Create (r : PostgresUserRepository) (u : user.User)
  : M (result user.User) :=
  u ← (if bool_decide (user.ID u = "")
       then id ← uuid.New; mret (user.with_ID u (uuid.String_ id))
       else mret u);
  u ← (if time.IsZero (user.CreatedAt u)
       then now ← Now; mret (user.with_CreatedAt u now)
       else mret u);
  u ← (if time.IsZero (user.UpdatedAt u)
       then now ← Now; mret (user.with_UpdatedAt u now)
       else mret u);
  dbUser ← db.CreateUser
             (db.mkCreateUserParams (user.Email u) (user.Password u) (user.Name u)
                (user.Role_ u) (user.IsActive u) (user.CreatedAt u) (user.UpdatedAt u));
  match dbUser with
  | Err err => mret (Err (Errorf "failed to create user in database" err))
  | Ok dbUser => mret (Ok (mapDBUserToDomainUser dbUser))
  end.

Definition Postgres_GetByID (r : PostgresUserRepository) (id : string)
  : M (result user.User) :=
  match uuid.Parse id with
  | Err err => mret (Err (Errorf "invalid user ID format" err))
  | Ok userID =>
      dbUser ← db.GetUserByID userID;
      match dbUser with
      | Err err =>
          if same err ErrNoRows then mret (Err ErrUserNotFound)
          else mret (Err (Errorf "failed to get user by ID" err))
      | Ok dbUser => mret (Ok (mapDBUserToDomainUser dbUser))
      end
  end.

Definition Postgres_GetByEmail (r : PostgresUserRepository) (email : string)
  : M (result user.User) :=
  dbUser ← db.GetUserByEmail email;
  match dbUser with
  | Err err =>
      if same err ErrNoRows then mret (Err ErrUserNotFound)
      else mret (Err (Errorf "failed to get user by email" err))
  | Ok dbUser => mret (Ok (mapDBUserToDomainUser dbUser))
  end.

Definition Postgres_Update (r : PostgresUserRepository) (u : user.User)
  : M (result user.User) :=
  now ← Now;
  let u := user.with_UpdatedAt u now in
  match uuid.Parse (user.ID u) with
  | Err err => mret (Err (Errorf "invalid user ID format" err))
  | Ok userID =>
      dbUser ← db.UpdateUser
                 (db.mkUpdateUserParams userID (user.Email u) (user.Password u)
                    (user.Name u) (user.Role_ u) (user.IsActive u) (user.UpdatedAt u));
      match dbUser with
      | Err err =>
          if same err ErrNoRows then mret (Err ErrUserNotFound)
          else mret (Err (Errorf "failed to update user in database" err))
      | Ok dbUser => mret (Ok (mapDBUserToDomainUser dbUser))
      end
  end.

Definition Postgres_Delete (r : PostgresUserRepository) (id : string)
  : M (option error) :=
  match uuid.Parse id with
  | Err err => mret (Some (Errorf "invalid user ID format" err))
  | Ok userID =>
      err ← db.DeleteUser userID;
      match err with
      | Some err =>
          if same err ErrNoRows then mret (Some ErrUserNotFound)
          else mret (Some (Errorf "failed to delete user from database" err))
      | None => mret None
      end
  end.

Definition Postgres_List (r : PostgresUserRepository) (offset limit : Z)
  : M (result (list user.User)) :=
  dbUsers ← db.ListUsers (db.mkListUsersParams (db.int32 limit) (db.int32 offset));
  match dbUsers with
  | Err err => mret (Err (Errorf "failed to list users from database" err))
  | Ok dbUsers => mret (Ok (map mapDBUserToDomainUser dbUsers))
  end.

Definition Postgres_Count (r : PostgresUserRepository) : M (result Z) :=
  count ← db.CountUsers;
  match count with
  | Err err => mret (Err (Errorf "failed to count users in database" err))
  | Ok count => mret (Ok count)
  end.

Definition Postgres_ExistsByEmail (r : PostgresUserRepository) (email : string)
  : M (result bool) :=
  exists_ ← db.ExistsByEmail email;
  match exists_ with
  | Err err => mret (Err (Errorf "failed to check email existence in database" err))
  | Ok exists_ => mret (Ok exists_)
  end.

Definition Postgres_ExistsByID (r : PostgresUserRepository) (id : string)
  : M (result bool) :=
  match uuid.Parse id with
  | Err err => mret (Err (Errorf "invalid user ID format" err))
  | Ok userID =>
      exists_ ← db.ExistsByID userID;
      match exists_ with
      | Err err => mret (Err (Errorf "failed to check ID existence in database" err))
      | Ok exists_ => mret (Ok exists_)
      end
  end.

#[global] Instance Postgres_UserRepository : UserRepository PostgresUserRepository := {
  Create := Postgres_Create;
  GetByID := Postgres_GetByID;
  GetByEmail := Postgres_GetByEmail;
  Update := Postgres_Update;
  Delete := Postgres_Delete;
  List := Postgres_List;
  Count := Postgres_Count;
  ExistsByEmail := Postgres_ExistsByEmail;
  ExistsByID := Postgres_ExistsByID;
}.

End Postgres.

End repository.

(** ** package usecase *)

Module usecase.

(** [UserUseCase]: the use cases over a repository and a token service. *)
Record UserUseCase (R J : Type) := mkUserUseCase {
  userRepo : R;
  jwtService : J;
}.

Arguments mkUserUseCase {R J}.
Arguments userRepo {R J}.
Arguments jwtService {R J}.

Definition NewUserUseCase {R J : Type} (userRepo : R) (jwtService : J)
  : UserUseCase R J := mkUserUseCase userRepo jwtService.

Record CreateUserInput := mkCreateUserInput {
  ci_Email : string;
  ci_Password : string;
  ci_Name : string;
  ci_Role : user.Role;
}.

Record UpdateUserInput := mkUpdateUserInput {
  ui_ID : string;
  ui_Name : option string;
  ui_Email : option string;
  ui_Role : option user.Role;
}.

Record ListUsersInput := mkListUsersInput {
  li_Offset : Z;
  li_Limit : Z;
}.

Record ListUsersOutput := mkListUsersOutput {
  lo_Users : list user.User;
  lo_Total : Z;
}.

Record AuthenticateUserInput := mkAuthenticateUserInput {
  ai_Email : string;
  ai_Password : string;
}.

Record AuthenticateUserOutput := mkAuthenticateUserOutput {
  ao_User : user.User;
  ao_Token : string;
}.

Section UseCases.
Context {R J : Type} `{repository.UserRepository R} `{auth.JWTService J}
  `{bcrypt.Blowfish}.

(** [CreateUser]; the output is its [User]. *)
Definition CreateUser (uc : UserUseCase R J) (input : CreateUserInput)
  : M (result user.User) :=
  exists_ ← repository.ExistsByEmail (userRepo uc) (ci_Email input);
  match exists_ with
  | Err err => mret (Err (Errorf "failed to check email existence" err))
  | Ok true => mret (Err ErrUserAlreadyExists)
  | Ok false =>
      created ← user.NewUser (ci_Email input) (ci_Password input) (ci_Name input)
                  (ci_Role input);
      match created with
      | Err err => mret (Err (Errorf "failed to create user entity" err))
      | Ok user =>
          stored ← repository.Create (userRepo uc) user;
          match stored with
          | Err err => mret (Err (Errorf "failed to create user in repository" err))
          | Ok user => mret (Ok user)
          end
      end
  end.

(** [GetUserByID]; the output is its [User]. *)
Definition GetUserByID (uc : UserUseCase R J) (id : string) : M (result user.User) :=
  found ← repository.GetByID (userRepo uc) id;
  match found with
  | Err err =>
      if same err ErrUserNotFound then mret (Err err)
      else mret (Err (Errorf "failed to get user by ID" err))
  | Ok userEntity => mret (Ok userEntity)
  end.

(** [GetUserByEmail]; the output is its [User]. *)
Definition GetUserByEmail (uc : UserUseCase R J) (email : string)
  : M (result user.User) :=
  found ← repository.GetByEmail (userRepo uc) email;
  match found with
  | Err err =>
      if same err ErrUserNotFound then mret (Err err)
      else mret (Err (Errorf "failed to get user by email" err))
  | Ok userEntity => mret (Ok userEntity)
  end.

(** The check of [UpdateUser] that a new email is free; [None] lets the
    update go on. *)
Definition email_taken (uc : UserUseCase R J) (dbUser : user.User) (email : string)
  : M (option error) :=
  if negb (bool_decide (email = user.Email dbUser)) then
    exists_ ← repository.ExistsByEmail (userRepo uc) email;
    match exists_ with
    | Err err => mret (Some (Errorf "failed to check email existence" err))
    | Ok true => mret (Some ErrUserAlreadyExists)
    | Ok false => mret None
    end
  else mret None.

(** [UpdateUser]; the output is its [User]. *)
Definition UpdateUser (uc : UserUseCase R J) (input : UpdateUserInput)
  : M (result user.User) :=
  found ← repository.GetByID (userRepo uc) (ui_ID input);
  match found with
  | Err err =>
      if same err ErrUserNotFound then mret (Err err)
      else mret (Err (Errorf "failed to get user for update" err))
  | Ok dbUser =>
      named ← match ui_Name input with
              | Some name => user.UpdateName dbUser name
              | None => mret (Ok dbUser)
              end;
      match named with
      | Err err => mret (Err (Errorf "failed to update name" err))
      | Ok dbUser =>
          mailed ← match ui_Email input with
                   | Some email =>
                       taken ← email_taken uc dbUser email;
                       match taken with
                       | Some err => mret (Err err)
                       | None =>
                           set ← user.UpdateEmail dbUser email;
                           match set with
                           | Err err => mret (Err (Errorf "failed to update email" err))
                           | Ok dbUser => mret (Ok dbUser)
                           end
                       end
                   | None => mret (Ok dbUser)
                   end;
          match mailed with
          | Err err => mret (Err err)
          | Ok dbUser =>
              roled ← match ui_Role input with
                      | Some role => user.UpdateRole dbUser role
                      | None => mret (Ok dbUser)
                      end;
              match roled with
              | Err err => mret (Err (Errorf "failed to update role" err))
              | Ok dbUser =>
                  stored ← repository.Update (userRepo uc) dbUser;
                  match stored with
                  | Err err =>
                      mret (Err (Errorf "failed to update user in repository" err))
                  | Ok dbUser => mret (Ok dbUser)
                  end
              end
          end
      end
  end.

(** [DeleteUser]; [None] is the nil error. *)
Definition DeleteUser (uc : UserUseCase R J) (id : string) : M (option error) :=
  err ← repository.Delete (userRepo uc) id;
  match err with
  | Some err =>
      if same err ErrUserNotFound then mret (Some err)
      else mret (Some (Errorf "failed to delete user" err))
  | None => mret None
  end.

Definition ListUsers (uc : UserUseCase R J) (input : ListUsersInput)
  : M (result ListUsersOutput) :=
  let limit := if (li_Limit input <=? 0)%Z then 10%Z else li_Limit input in
  let offset := if (li_Offset input <? 0)%Z then 0%Z else li_Offset input in
  listed ← repository.List (userRepo uc) offset limit;
  match listed with
  | Err err => mret (Err (Errorf "failed to list users" err))
  | Ok users =>
      counted ← repository.Count (userRepo uc);
      match counted with
      | Err err => mret (Err (Errorf "failed to count users" err))
      | Ok total => mret (Ok (mkListUsersOutput users total))
      end
  end.

Definition AuthenticateUser (uc : UserUseCase R J) (input : AuthenticateUserInput)
  : M (result AuthenticateUserOutput) :=
  found ← repository.GetByEmail (userRepo uc) (ai_Email input);
  match found with
  | Err err =>
      if same err ErrUserNotFound then mret (Err ErrInvalidPassword)
      else mret (Err (Errorf "failed to get user by email" err))
  | Ok userEntity =>
      if negb (user.IsActiveUser userEntity) then mret (Err ErrUserDeactivated)
      else if negb (user.CheckPassword userEntity (ai_Password input))
      then mret (Err ErrInvalidPassword)
      else
        token ← auth.GenerateToken (jwtService uc) (user.ID userEntity)
                  (user.Email userEntity) (user.Role_ userEntity);
        match token with
        | Err err => mret (Err (Errorf "failed to generate token" err))
        | Ok token => mret (Ok (mkAuthenticateUserOutput userEntity token))
        end
  end.

End UseCases.

End usecase.

(** ** encoding/json and Gin *)

(** A JSON document.  [JTime t] is the RFC 3339 string of instant [t]; the
    fields of an object are in the order they are written. *)
#[warnings="-register-all"]
Inductive JSON :=
| JNull
| JBool (b : bool)
| JNumber (n : Z)
| JString (s : string)
| JTime (t : time.Time)
| JArray (items : list JSON)
| JObject (fields : list (string * JSON)).

(** The value of field [name] of an object. *)
Definition json_field (name : string) (doc : JSON) : option JSON :=
  match doc with
  | JObject fields =>
      snd <$> find (λ kv, bool_decide (fst kv = name)) fields
  | _ => None
  end.

(** [json.Marshal] of a [user.User], by its field tags; [Password] is
    tagged [json:"-"]. *)
Definition Marshal_User (u : user.User) : JSON :=
  JObject [
    ("id", JString (user.ID u));
    ("email", JString (user.Email u));
    ("name", JString (user.Name u));
    ("role", JString (user.Role_ u));
    ("is_active", JBool (user.IsActive u));
    ("created_at", JTime (user.CreatedAt u));
    ("updated_at", JTime (user.UpdatedAt u))
  ].

Definition Marshal_ListUsersOutput (o : usecase.ListUsersOutput) : JSON :=
  JObject [
    ("users", JArray (map Marshal_User (usecase.lo_Users o)));
    ("total", JNumber (usecase.lo_Total o))
  ].

Module gin.

(** A value kept under a key of the context ([any]). *)
Inductive any :=
| AnyString (s : string)
| AnyInt (n : Z)
| AnyBool (b : bool).

(** [gin.Context]: the request's headers, path parameters and query; the
    keys set for the request; what was written to the response; and
    whether the chain was aborted. *)
Record Context := mkContext {
  Header : gmap string string;
  Params : gmap string string;
  Queries : gmap string string;
  Keys : gmap string any;
  Written : list (Z * option JSON);
  Aborted : bool;
}.

(** What running handlers on a context comes to: they return, or one of
    them panics. *)
Inductive outcome :=
| Returned (c : Context)
| Panicked (value : string).

Definition GetHeader (c : Context) (key : string) : string :=
  default "" (Header c !! key).
Definition Param (c : Context) (key : string) : string :=
  default "" (Params c !! key).
Definition Query (c : Context) (key : string) : string :=
  default "" (Queries c !! key).
Definition DefaultQuery (c : Context) (key defaultValue : string) : string :=
  default defaultValue (Queries c !! key).

Definition Get (c : Context) (key : string) : option any := Keys c !! key.
Definition Set_ (c : Context) (key : string) (value : any) : Context :=
  mkContext (Header c) (Params c) (Queries c) (<[key := value]> (Keys c))
    (Written c) (Aborted c).

(** [c.JSON(code, obj)]. *)
Definition JSON_ (c : Context) (code : Z) (obj : JSON) : Context :=
  mkContext (Header c) (Params c) (Queries c) (Keys c)
    (Written c ++ [(code, Some obj)])%list (Aborted c).
(** [c.Status(code)]. *)
Definition Status (c : Context) (code : Z) : Context :=
  mkContext (Header c) (Params c) (Queries c) (Keys c)
    (Written c ++ [(code, None)])%list (Aborted c).
Definition Abort (c : Context) : Context :=
  mkContext (Header c) (Params c) (Queries c) (Keys c) (Written c) true.

(** [gin.H{..}]: encoding/json writes the keys of a map in sorted order;
    the literals of this program list them so. *)
Definition H (fields : list (string * JSON)) : JSON := JObject fields.

(** A handler; its first argument is what [c.Next()] runs. *)
Definition HandlerFunc : Type := (Context → M outcome) → Context → M outcome.

End gin.

Module http.

Definition StatusOK : Z := 200.
Definition StatusCreated : Z := 201.
Definition StatusNoContent : Z := 204.
Definition StatusBadRequest : Z := 400.
Definition StatusUnauthorized : Z := 401.
Definition StatusForbidden : Z := 403.
Definition StatusNotFound : Z := 404.
Definition StatusConflict : Z := 409.
Definition StatusInternalServerError : Z := 500.

End http.

(** ** package middleware *)

Module middleware.

Section Auth.
Context {J : Type} `{auth.JWTService J}.

Definition AuthMiddleware (jwtService : J) : gin.HandlerFunc :=
  λ Next c,
  let authHeader := gin.GetHeader c "Authorization" in
  if bool_decide (authHeader = "") then
    mret (gin.Returned (gin.Abort (gin.JSON_ c http.StatusUnauthorized (gin.H [
      ("error", JString "Authorization header required");
      ("message", JString "Token not provided")]))))
  else
    let tokenParts := strings_Split authHeader " " in
    if negb (length tokenParts =? 2)%nat
       || negb (bool_decide (nth 0 tokenParts "" = "Bearer"))
    then
      mret (gin.Returned (gin.Abort (gin.JSON_ c http.StatusUnauthorized (gin.H [
        ("error", JString "Invalid authorization header format");
        ("message", JString "Expected format: Bearer <token>")]))))
    else
      let tokenString := nth 1 tokenParts "" in
      validated ← auth.ValidateToken jwtService tokenString;
      match validated with
      | Err err =>
          let status := http.StatusUnauthorized in
          let message := if same err ErrExpiredToken then "Token expired"
                         else "Invalid token" in
          mret (gin.Returned (gin.Abort (gin.JSON_ c status (gin.H [
            ("error", JString "Authentication failed");
            ("message", JString message)]))))
      | Ok claims =>
          let c := gin.Set_ c "userID" (gin.AnyString (auth.UserID claims)) in
          let c := gin.Set_ c "userEmail" (gin.AnyString (auth.Email claims)) in
          let c := gin.Set_ c "userRole" (gin.AnyString (auth.Role claims)) in
          Next c
      end.

End Auth.

Definition RoleMiddleware (requiredRoles : list string) : gin.HandlerFunc :=
  λ Next c,
  match gin.Get c "userRole" with
  | None =>
      mret (gin.Returned (gin.Abort (gin.JSON_ c http.StatusUnauthorized (gin.H [
        ("error", JString "User role not found");
        ("message", JString "Authentication required")]))))
  | Some userRole =>
      match userRole with
      | gin.AnyString role =>
          let hasPermission :=
            existsb (λ requiredRole, bool_decide (role = requiredRole)) requiredRoles in
          if negb hasPermission then
            mret (gin.Returned (gin.Abort (gin.JSON_ c http.StatusForbidden (gin.H [
              ("error", JString "Insufficient permissions");
              ("message",
               JString "You don't have permission to access this resource")]))))
          else Next c
      | _ =>
          mret (gin.Panicked "interface conversion: interface {} is not string")
      end
  end.

End middleware.

(** ** package handlers *)

Module handlers.

(** [UserHandler]: the HTTP handlers over the use cases. *)
Record UserHandler (R J : Type) := mkUserHandler {
  userUseCase : usecase.UserUseCase R J;
}.

Arguments mkUserHandler {R J}.
Arguments userUseCase {R J}.

Definition NewUserHandler {R J : Type} (userUseCase : usecase.UserUseCase R J)
  : UserHandler R J := mkUserHandler userUseCase.

Record CreateUserRequest := mkCreateUserRequest {
  cr_Email : string;       (* binding:"required,email" *)
  cr_Password : string;    (* binding:"required,min=6" *)
  cr_Name : string;        (* binding:"required" *)
  cr_Role : string;        (* binding:"required" *)
}.

Record UpdateUserRequest := mkUpdateUserRequest {
  ur_Name : option string;
  ur_Email : option string;    (* binding:"omitempty,email" *)
  ur_Role : option string;
}.

Record LoginRequest := mkLoginRequest {
  lr_Email : string;       (* binding:"required,email" *)
  lr_Password : string;    (* binding:"required" *)
}.

(** [json.Marshal] of an [ErrorResponse]. *)
Definition ErrorResponse (Error Message : string) : JSON :=
  JObject [("error", JString Error); ("message", JString Message)].

Definition validateRole (roleStr : string) : result user.Role :=
  if bool_decide (roleStr = user.RoleAdmin) || bool_decide (roleStr = user.RoleUser)
     || bool_decide (roleStr = user.RoleGuest)
  then Ok roleStr
  else Err ErrInvalidRole.

Definition mapErrorToHTTPStatus (err : error) : Z * string :=
  if Is err ErrInvalidRole then (http.StatusBadRequest, "Invalid role")
  else if Is err ErrUserNotFound then (http.StatusNotFound, "User not found")
  else if Is err ErrUserAlreadyExists then (http.StatusConflict, "User already exists")
  else if Is err ErrInvalidPassword then (http.StatusUnauthorized, "Invalid password")
  else if Is err ErrUserDeactivated
  then (http.StatusUnauthorized, "User account is deactivated")
  else (http.StatusInternalServerError, "Internal server error").

Section Handlers.
Context {R J : Type} `{repository.UserRepository R} `{auth.JWTService J}
  `{bcrypt.Blowfish} `{uuid.Format}.

(** In the handlers that read a JSON body, [bound] is what
    [c.ShouldBindJSON(&req)] makes of the request: the decoded request, or
    the error of decoding or of a binding tag. *)

Definition CreateUser (h : UserHandler R J) (bound : result CreateUserRequest)
  (c : gin.Context) : M gin.Context :=
  match bound with
  | Err err =>
      mret (gin.JSON_ c http.StatusBadRequest
              (ErrorResponse "Invalid request data" (Error err)))
  | Ok req =>
      match validateRole (cr_Role req) with
      | Err err =>
          mret (gin.JSON_ c http.StatusBadRequest
                  (ErrorResponse "Invalid role" (Error err)))
      | Ok role =>
          let input := usecase.mkCreateUserInput (cr_Email req) (cr_Password req)
                         (cr_Name req) role in
          output ← usecase.CreateUser (userUseCase h) input;
          match output with
          | Err err =>
              let '(status, message) := mapErrorToHTTPStatus err in
              mret (gin.JSON_ c status (ErrorResponse "Failed to create user" message))
          | Ok user => mret (gin.JSON_ c http.StatusCreated (Marshal_User user))
          end
      end
  end.

Definition GetUserByID (h : UserHandler R J) (c : gin.Context) : M gin.Context :=
  let idStr := gin.Param c "id" in
  if bool_decide (idStr = "") then
    mret (gin.JSON_ c http.StatusBadRequest
            (ErrorResponse "Invalid user ID" "User ID is required"))
  else
    match uuid.Parse idStr with
    | Err _ =>
        mret (gin.JSON_ c http.StatusBadRequest
                (ErrorResponse "Invalid user ID" "User ID must be a valid UUID"))
    | Ok _ =>
        output ← usecase.GetUserByID (userUseCase h) idStr;
        match output with
        | Err err =>
            let '(status, message) := mapErrorToHTTPStatus err in
            mret (gin.JSON_ c status (ErrorResponse "Failed to get user" message))
        | Ok user => mret (gin.JSON_ c http.StatusOK (Marshal_User user))
        end
    end.

Definition GetUserByEmail (h : UserHandler R J) (c : gin.Context) : M gin.Context :=
  let email := gin.Query c "email" in
  if bool_decide (email = "") then
    mret (gin.JSON_ c http.StatusBadRequest
            (ErrorResponse "Invalid email" "Email is required"))
  else
    output ← usecase.GetUserByEmail (userUseCase h) email;
    match output with
    | Err err =>
        let '(status, message) := mapErrorToHTTPStatus err in
        mret (gin.JSON_ c status (ErrorResponse "Failed to get user" message))
    | Ok user => mret (gin.JSON_ c http.StatusOK (Marshal_User user))
    end.

Definition UpdateUser (h : UserHandler R J) (bound : result UpdateUserRequest)
  (c : gin.Context) : M gin.Context :=
  let idStr := gin.Param c "id" in
  if bool_decide (idStr = "") then
    mret (gin.JSON_ c http.StatusBadRequest
            (ErrorResponse "Invalid user ID" "User ID is required"))
  else
    match uuid.Parse idStr with
    | Err _ =>
        mret (gin.JSON_ c http.StatusBadRequest
                (ErrorResponse "Invalid user ID" "User ID must be a valid UUID"))
    | Ok _ =>
        match bound with
        | Err err =>
            mret (gin.JSON_ c http.StatusBadRequest
                    (ErrorResponse "Invalid request data" (Error err)))
        | Ok req =>
            match
              match ur_Role req with
              | Some roleStr =>
                  match validateRole roleStr with
                  | Err err => Err err
                  | Ok role => Ok (Some role)
                  end
              | None => Ok None
              end
            with
            | Err err =>
                mret (gin.JSON_ c http.StatusBadRequest
                        (ErrorResponse "Invalid role" (Error err)))
            | Ok role =>
                let input := usecase.mkUpdateUserInput idStr (ur_Name req)
                               (ur_Email req) role in
                output ← usecase.UpdateUser (userUseCase h) input;
                match output with
                | Err err =>
                    let '(status, message) := mapErrorToHTTPStatus err in
                    mret (gin.JSON_ c status
                            (ErrorResponse "Failed to update user" message))
                | Ok user => mret (gin.JSON_ c http.StatusOK (Marshal_User user))
                end
            end
        end
    end.

Definition DeleteUser (h : UserHandler R J) (c : gin.Context) : M gin.Context :=
  let idStr := gin.Param c "id" in
  if bool_decide (idStr = "") then
    mret (gin.JSON_ c http.StatusBadRequest
            (ErrorResponse "Invalid user ID" "User ID is required"))
  else
    match uuid.Parse idStr with
    | Err _ =>
        mret (gin.JSON_ c http.StatusBadRequest
                (ErrorResponse "Invalid user ID" "User ID must be a valid UUID"))
    | Ok _ =>
        err ← usecase.DeleteUser (userUseCase h) idStr;
        match err with
        | Some err =>
            let '(status, message) := mapErrorToHTTPStatus err in
            mret (gin.JSON_ c status (ErrorResponse "Failed to delete user" message))
        | None => mret (gin.Status c http.StatusNoContent)
        end
    end.

Definition ListUsers (h : UserHandler R J) (c : gin.Context) : M gin.Context :=
  let offsetStr := gin.DefaultQuery c "offset" "0" in
  let limitStr := gin.DefaultQuery c "limit" "10" in
  match strconv.Atoi offsetStr with
  | Err _ =>
      mret (gin.JSON_ c http.StatusBadRequest
              (ErrorResponse "Invalid offset" "Offset must be a positive integer"))
  | Ok offset =>
      if (offset <? 0)%Z then
        mret (gin.JSON_ c http.StatusBadRequest
                (ErrorResponse "Invalid offset" "Offset must be a positive integer"))
      else
        match strconv.Atoi limitStr with
        | Err _ =>
            mret (gin.JSON_ c http.StatusBadRequest
                    (ErrorResponse "Invalid limit" "Limit must be a positive integer"))
        | Ok limit =>
            if (limit <=? 0)%Z then
              mret (gin.JSON_ c http.StatusBadRequest
                      (ErrorResponse "Invalid limit" "Limit must be a positive integer"))
            else
              output ← usecase.ListUsers (userUseCase h)
                         (usecase.mkListUsersInput offset limit);
              match output with
              | Err err =>
                  let '(status, message) := mapErrorToHTTPStatus err in
                  mret (gin.JSON_ c status
                          (ErrorResponse "Failed to list users" message))
              | Ok output =>
                  mret (gin.JSON_ c http.StatusOK (Marshal_ListUsersOutput output))
              end
        end
  end.

Definition Login (h : UserHandler R J) (bound : result LoginRequest)
  (c : gin.Context) : M gin.Context :=
  match bound with
  | Err err =>
      mret (gin.JSON_ c http.StatusBadRequest
              (ErrorResponse "Invalid request data" (Error err)))
  | Ok req =>
      let input := usecase.mkAuthenticateUserInput (lr_Email req) (lr_Password req) in
      output ← usecase.AuthenticateUser (userUseCase h) input;
      match output with
      | Err err =>
          let '(status, message) := mapErrorToHTTPStatus err in
          mret (gin.JSON_ c status (ErrorResponse "Authentication failed" message))
      | Ok output =>
          mret (gin.JSON_ c http.StatusOK (Marshal_User (usecase.ao_User output)))
      end
  end.

End Handlers.

End handlers.

(** ** package validator

    The two custom rules [NewCustomValidator] registers.  [validatePassword]
    ranges over the runes of the password; a letter or digit of ASCII is a
    rune of one byte and no byte of a longer rune lies in their ranges, so
    the bytes are ranged over. *)

Module validator.

Definition is_letter (char : ascii) : bool :=
  let n := nat_of_ascii char in
  ((97 <=? n) && (n <=? 122) || (65 <=? n) && (n <=? 90))%nat.

Definition is_number (char : ascii) : bool :=
  let n := nat_of_ascii char in ((48 <=? n) && (n <=? 57))%nat.

(** The loop of [validatePassword], from the two flags so far. *)
Fixpoint scan (password : string) (hasLetter hasNumber : bool) : bool * bool :=
  match password with
  | EmptyString => (hasLetter, hasNumber)
  | String char rest =>
      scan rest (if is_letter char then true else hasLetter)
        (if is_number char then true else hasNumber)
  end.

Definition validatePassword (password : string) : bool :=
  if (String.length password <? 6)%nat then false
  else
    let '(hasLetter, hasNumber) := scan password false false in
    hasLetter && hasNumber.

Definition validateRole (role : string) : bool :=
  existsb (λ validRole, bool_decide (role = validRole)) ["admin"; "user"; "guest"].

End validator.

(** ** package router

    The handler chains of the route groups of [SetupRouter], as gin runs
    them after the middleware of the engine: [users.Use(AuthMiddleware)]
    and, for the routes of [adminRoutes], [RoleMiddleware("admin")]. *)

Module router.

(** The last handler of a chain: it writes its response and returns. *)
Definition handle (handler : gin.Context → M gin.Context)
  : gin.Context → M gin.outcome :=
  λ c, c' ← handler c; mret (gin.Returned c').

Section Groups.
Context {J : Type} `{auth.JWTService J}.

(** A route of the group [users]: GET "", GET "/email", GET "/:id". *)
Definition users_route (jwtService : J) (handler : gin.Context → M gin.Context)
  : gin.Context → M gin.outcome :=
  middleware.AuthMiddleware jwtService (handle handler).

(** A route of the group [adminRoutes]: POST "", PUT "/:id", DELETE "/:id". *)
Definition admin_route (jwtService : J) (handler : gin.Context → M gin.Context)
  : gin.Context → M gin.outcome :=
  middleware.AuthMiddleware jwtService
    (middleware.RoleMiddleware ["admin"] (handle handler)).

End Groups.

End router.

(** ** A small instantiation that runs

    Stand-ins for the library parameters, simple enough to evaluate the
    model on concrete requests: a token format of three dot-separated
    segments with a keyed tag, a digest that reads the key material, a
    server that keeps texts that fit. *)

Module sample.

Definition hex_digit (n : N) : ascii :=
  ascii_of_N (if (n <? 10)%N then 48 + n else 87 + n).

Definition hex_val (a : ascii) : option N :=
  let n := N_of_ascii a in
  if ((48 <=? n) && (n <=? 57))%N then Some (n - 48)%N
  else if ((97 <=? n) && (n <=? 102))%N then Some (n - 87)%N
  else None.

Fixpoint to_hex (s : string) : string :=
  match s with
  | EmptyString => ""
  | String a s' =>
      let n := N_of_ascii a in
      String (hex_digit (n `div` 16)) (String (hex_digit (n `mod` 16)) (to_hex s'))
  end.

Fixpoint of_hex_fuel (fuel : nat) (s : string) : option string :=
  match fuel, s with
  | _, EmptyString => Some ""
  | S fuel', String a (String b s') =>
      match hex_val a, hex_val b, of_hex_fuel fuel' s' with
      | Some x, Some y, Some rest => Some (String (ascii_of_N (16 * x + y)) rest)
      | _, _, _ => None
      end
  | _, _ => None
  end.

Definition of_hex (s : string) : option string := of_hex_fuel (String.length s) s.

Definition decimal (z : Z) : string := NilZero.string_of_int (Z.to_int z).

Definition date_text (d : option jwt.NumericDate) : string :=
  match d with
  | None => ""
  | Some z => decimal z
  end.

Definition date_of_text (s : string) : option (option jwt.NumericDate) :=
  if bool_decide (s = "") then Some None
  else
    match strconv.Atoi s with
    | Ok z => Some (Some z)
    | Err _ => None
    end.

(** The payload segment: the six claims, comma-separated. *)
Definition payload (c : auth.Claims) : string :=
  String.concat "," [
    to_hex (auth.UserID c); to_hex (auth.Email c); to_hex (auth.Role c);
    date_text (jwt.ExpiresAt (auth.Registered c));
    date_text (jwt.NotBefore (auth.Registered c));
    date_text (jwt.IssuedAt (auth.Registered c))
  ].

Definition claims_of_payload (s : string) : option auth.Claims :=
  match strings_Split s "," with
  | [uid; email; role; exp; nbf; iat] =>
      match of_hex uid, of_hex email, of_hex role,
            date_of_text exp, date_of_text nbf, date_of_text iat with
      | Some uid, Some email, Some role, Some exp, Some nbf, Some iat =>
          Some (auth.mkClaims uid email role (jwt.mkRegisteredClaims exp nbf iat))
      | _, _, _, _, _, _ => None
      end
  | _ => None
  end.

(** The keyed tag over the signing text. *)
Definition tag (key text : string) : string := key +:+ "#" +:+ text.

#[global] Instance primitives : jwt.Primitives auth.Claims := {
  jwt.SignedString method claims key :=
    let text := to_hex method +:+ "." +:+ payload claims in
    Ok (text +:+ "." +:+ to_hex (tag key text));
  jwt.ParseUnverified tokenString :=
    match strings_Split tokenString "." with
    | [header; body; signature] =>
        match of_hex header, claims_of_payload body with
        | Some method, Some claims =>
            if bool_decide (method = jwt.SigningMethodHS256)
            then inl (jwt.mkToken method claims "" false, [header; body; signature])
            else inr jwt.Unverifiable
        | _, _ => inr jwt.Malformed
        end
    | _ => inr jwt.Malformed
    end;
  jwt.DecodeSegment := of_hex;
  jwt.Verify method text sig key := bool_decide (sig = tag key text);
}.

Definition encode_salt (raw : string) : string :=
  fit bcrypt.encodedSaltSize (to_hex raw).

Definition digest (cost : Z) (salt key : string) : result string :=
  Ok (fit bcrypt.encodedHashSize (str_take 9 salt +:+ key)).

Lemma encode_salt_size raw :
  String.length raw = bcrypt.maxSaltSize →
  String.length (encode_salt raw) = bcrypt.encodedSaltSize.
Proof. intros _. apply fit_length. Qed.

Lemma digest_encoded_salt raw cost key :
  String.length raw = bcrypt.maxSaltSize →
  ∃ hash, digest cost (encode_salt raw) key = Ok hash.
Proof. intros _. unfold digest. eauto. Qed.

Lemma digest_size cost salt key hash :
  digest cost salt key = Ok hash → String.length hash = bcrypt.encodedHashSize.
Proof.
  unfold digest. intros Heq.
  replace hash with (fit bcrypt.encodedHashSize (str_take 9 salt +:+ key))
    by congruence.
  apply fit_length.
Qed.

#[global] Instance blowfish : bcrypt.Blowfish := {|
  bcrypt.base64Encode := encode_salt;
  bcrypt.crypt := digest;
  bcrypt.salt_size := encode_salt_size;
  bcrypt.crypt_encoded_salt := digest_encoded_salt;
  bcrypt.crypt_size := digest_size;
|}.

#[global] Instance uuid_format : uuid.Format := {
  uuid.FromRandom raw := raw;
  uuid.String_ id := to_hex id;
  uuid.Parse text :=
    match of_hex text with
    | Some id =>
        if bool_decide (String.length id = 16%nat) then Ok id
        else Err (UUIDFormat "invalid UUID length")
    | None => Err (UUIDFormat "invalid UUID format")
    end;
}.

Definition keep (n : nat) (s : string) : option string :=
  if (String.length s <=? n)%nat then Some s else None.

Lemma keep_short n s kept :
  (String.length s ≤ n)%nat → keep n s = Some kept → kept = s.
Proof. intros _. unfold keep. destruct (_ <=? _)%nat; congruence. Qed.

#[global] Instance engine : db.Engine := {|
  db.timestamptz t := (t `div` 1000 * 1000)%Z;
  db.varchar := keep;
  db.varchar_short := keep_short;
|}.

(** A clock that advances a millisecond per reading, from one hour in. *)
Definition world : World := {|
  clock k := (time.Hour + 1000000 * Z.of_nat k)%Z;
  ticks := 0;
  entropy k := "seed" +:+ decimal (Z.of_nat k);
  draws := 0;
  users := [];
|}.

Definition service : auth.jwtService :=
  auth.NewJWTService "test-secret" (24 * time.Hour)%Z.

Definition handler
  : handlers.UserHandler repository.PostgresUserRepository auth.jwtService :=
  handlers.NewUserHandler
    (usecase.NewUserUseCase repository.NewPostgresUserRepository service).

Definition request : gin.Context := gin.mkContext ∅ ∅ ∅ ∅ [] false.

Definition registration : usecase.CreateUserInput :=
  usecase.mkCreateUserInput "test@example.com" "password123" "Test User" "user".

Definition credentials : handlers.LoginRequest :=
  handlers.mkLoginRequest "test@example.com" "password123".

Definition nobody : user.User := user.mkUser "" "" "" "" "" false 0%Z 0%Z.

(** The account that registering test@example.com with password123 in
    [world] returns, and the world it leaves. *)
Definition account : user.User :=
  Eval vm_compute in
  match fst (usecase.CreateUser (handlers.userUseCase handler) registration world) with
  | Ok u => u
  | Err _ => nobody
  end.

Definition registered : World :=
  snd (usecase.CreateUser (handlers.userUseCase handler) registration world).

(** What logging in with these credentials returns then. *)
Definition session : usecase.AuthenticateUserOutput :=
  Eval vm_compute in
  match fst (usecase.AuthenticateUser (handlers.userUseCase handler)
               (usecase.mkAuthenticateUserInput "test@example.com" "password123")
               registered) with
  | Ok o => o
  | Err _ => usecase.mkAuthenticateUserOutput nobody ""
  end.

Definition logged_in : World :=
  snd (usecase.AuthenticateUser (handlers.userUseCase handler)
         (usecase.mkAuthenticateUserInput "test@example.com" "password123")
         registered).


(** A world whose clock stands still, one hour in. *)
Definition still : World := {|
  clock _ := time.Hour;
  ticks := 0;
  entropy := entropy world;
  draws := 0;
  users := [];
|}.

(** A service whose tokens live half a second. *)
Definition brief : auth.jwtService :=
  auth.NewJWTService "test-secret" 500000000%Z.

(** The token [j] issues in [still], and the world after. *)
Definition issue (j : auth.jwtService) : string * World :=
  let '(r, w) := auth.GenerateToken j "42" "test@example.com" "user" still in
  (match r with Ok token => token | Err _ => "" end, w).

Fixpoint repeated (n : nat) (a : ascii) : string :=
  match n with
  | O => ""
  | S n' => String a (repeated n' a)
  end.

(** A password of 72 bytes, and one that goes on after it. *)
Definition long_password : string := repeated 72 "a".
Definition longer_password : string := long_password +:+ "b".

End sample.

(** Requests for the sample handler. *)
Module scenario.

(** A request for the user whose id has the bytes 0123456789abcdef. *)
Definition stranger : gin.Context :=
  gin.mkContext ∅ {["id" := "30313233343536373839616263646566"]} ∅ ∅ [] false.

(** A request that asks for 2^31 users. *)
Definition greedy : gin.Context :=
  gin.mkContext ∅ ∅ {["limit" := "2147483648"]} ∅ [] false.

End scenario.

(** * Vocabulary of the properties *)

(** Unfolding of the world monad. *)
Ltac run := unfold mbind, mret, M_bind, M_ret, Now in *; simpl in *.

(** A clock that stands still at [now]. *)
Definition frozen (now : time.Time) (w : World) : Prop := ∀ k, clock w k = now.

(** The claims [GenerateToken] signs when every reading of the clock is [now]. *)
Definition issued (j : auth.jwtService) (userID email role : string)
  (now : time.Time) : auth.Claims := {|
  auth.UserID := userID;
  auth.Email := email;
  auth.Role := role;
  auth.Registered := {|
    jwt.ExpiresAt := Some (jwt.NewNumericDate (time.Add now (auth.expiresIn j)));
    jwt.IssuedAt := Some (jwt.NewNumericDate now);
    jwt.NotBefore := Some (jwt.NewNumericDate now);
  |};
|}.

(** The parser reads [tokenString] as [claims] under a signature that
    verifies with [key]. *)
Definition reads_back `{jwt.Primitives auth.Claims} (claims : auth.Claims)
  (key tokenString : string) : Prop :=
  ∃ token parts sig,
    jwt.ParseUnverified tokenString = inl (token, parts)
    ∧ jwt.TokenClaims token = claims
    ∧ jwt.DecodeSegment (nth 2 parts "") = Some sig
    ∧ jwt.Verify (jwt.Method token) (nth 0 parts "" +:+ "." +:+ nth 1 parts "")
        sig key = true.

(** A date that JSON carries unchanged: the parser reads a number as a
    float64, which holds the whole seconds up to 2^53 exactly. *)
Definition exact (d : option jwt.NumericDate) : Prop :=
  match d with
  | None => True
  | Some seconds => (- 2 ^ 53 ≤ seconds ≤ 2 ^ 53)%Z
  end.

(** Claims that the JSON of a token carries unchanged: texts in UTF-8
    (encoding/json replaces any other byte by U+FFFD) and exact dates. *)
Definition carried (claims : auth.Claims) : Prop :=
  utf8.ValidString (auth.UserID claims) = true
  ∧ utf8.ValidString (auth.Email claims) = true
  ∧ utf8.ValidString (auth.Role claims) = true
  ∧ exact (jwt.ExpiresAt (auth.Registered claims))
  ∧ exact (jwt.NotBefore (auth.Registered claims))
  ∧ exact (jwt.IssuedAt (auth.Registered claims)).

(** The round trip of golang-jwt with HS256 and a key of bytes: signing
    does not fail, and the token signed over claims that JSON carries
    reads back as these claims under a signature that verifies with the
    key. *)
Class RoundTrip `{jwt.Primitives auth.Claims} : Prop := {
  signs : ∀ claims key,
    carried claims →
    ∃ tokenString, jwt.SignedString jwt.SigningMethodHS256 claims key = Ok tokenString;
  parses_back : ∀ claims key tokenString,
    carried claims →
    jwt.SignedString jwt.SigningMethodHS256 claims key = Ok tokenString →
    reads_back claims key tokenString;
}.

(** The expiry of [claims] has passed at [now]: [now] is not before it. *)
Definition expired (claims : auth.Claims) (now : time.Time) : Prop :=
  ∃ exp, jwt.ExpiresAt (auth.Registered claims) = Some exp
         ∧ (jwt.DateTime exp ≤ now)%Z.

(** [now] is before the not-before date of [claims]. *)
Definition premature (claims : auth.Claims) (now : time.Time) : Prop :=
  ∃ nbf, jwt.NotBefore (auth.Registered claims) = Some nbf
         ∧ (now < jwt.DateTime nbf)%Z.

(** The salt the next call of [GenerateFromPassword] draws in [w]. *)
Definition next_salt `{bcrypt.Blowfish} (w : World) : string :=
  bcrypt.base64Encode (fit bcrypt.maxSaltSize (entropy w (draws w))).

(** The rejection every gate writes: a JSON body of an error and a message
    under [status], and the chain aborted. *)
Definition reject (c : gin.Context) (status : Z) (error message : string)
  : gin.Context :=
  gin.Abort (gin.JSON_ c status
               (gin.H [("error", JString error); ("message", JString message)])).

(** The context with the identity of [claims] set. *)
Definition identified (c : gin.Context) (claims : auth.Claims) : gin.Context :=
  gin.Set_
    (gin.Set_ (gin.Set_ c "userID" (gin.AnyString (auth.UserID claims)))
       "userEmail" (gin.AnyString (auth.Email claims)))
    "userRole" (gin.AnyString (auth.Role claims)).

(** [authHeader] is [Bearer], one space, and [token]. *)
Definition bearer (authHeader token : string) : Prop :=
  strings_Split authHeader " " = ["Bearer"; token].

(** Two users that differ at most in the password hash. *)
Definition alike (u1 u2 : user.User) : Prop :=
  user.with_Password u1 "" = user.with_Password u2 "".

(** The role of an update request as [UpdateUser] validates it. *)
Definition update_role (req : handlers.UpdateUserRequest)
  : result (option user.Role) :=
  match handlers.ur_Role req with
  | Some roleStr =>
      match handlers.validateRole roleStr with
      | Err err => Err err
      | Ok role => Ok (Some role)
      end
  | None => Ok None
  end.

(** The first three steps of [Create]: an id, a creation time and an
    update time for a user that lacks them. *)
Definition prepared `{uuid.Format} (u : user.User) : M user.User :=
  u ← (if bool_decide (user.ID u = "")
       then id ← uuid.New; mret (user.with_ID u (uuid.String_ id))
       else mret u);
  u ← (if time.IsZero (user.CreatedAt u)
       then now ← Now; mret (user.with_CreatedAt u now)
       else mret u);
  if time.IsZero (user.UpdatedAt u)
  then now ← Now; mret (user.with_UpdatedAt u now)
  else mret u.

(** [err] wrapped with [%w] under each of [texts], the first outermost. *)
Definition wraps (texts : list string) (err : error) : error :=
  foldr Errorf err texts.

(** A user that passes [Validate]. *)
Definition valid (u : user.User) : Prop := user.Validate u = None.

(** Some byte of [s] satisfies [P]. *)
Definition has_byte (P : ascii → bool) (s : string) : Prop :=
  ∃ i a, String.get i s = Some a ∧ P a = true.

(** Whether some byte of [s] satisfies [P]. *)
Fixpoint some_byte (P : ascii → bool) (s : string) : bool :=
  match s with
  | EmptyString => false
  | String a s' => P a || some_byte P s'
  end.

(** The [users] table satisfies its constraints: the primary key, the
    unique email and the checks of the migration. *)
Definition consistent (table : list row.User) : Prop :=
  NoDup (map row.ID table) ∧ NoDup (map row.Email table)
  ∧ Forall (λ r, db.check_row r = None) table.

(** Running [m] keeps property [P] of the table. *)
Definition preserves {A : Type} (P : list row.User → Prop) (m : M A) : Prop :=
  ∀ w, P (users w) → P (users (m w).2).

(** The world with its table replaced. *)
Definition with_users (w : World) (table : list row.User) : World :=
  mkWorld (clock w) (ticks w) (entropy w) (draws w) table.

(** [email] is the email of a row. *)
Definition registered_email (table : list row.User) (email : string) : Prop :=
  ∃ r, r ∈ table ∧ row.Email r = email.

(** An error that is no sentinel and wraps none: [errors.Is] finds no
    sentinel in it. *)
Definition plain (err : error) : bool :=
  match err with
  | New _ | Bcrypt _ | Driver _ => true
  | _ => false
  end.

(** What [AuthMiddleware] answers to a request it turns away. *)
Definition turned_away (c : gin.Context) (failure : option error) : gin.Context :=
  match failure with
  | None =>
      if bool_decide (gin.GetHeader c "Authorization" = "")
      then reject c 401 "Authorization header required" "Token not provided"
      else reject c 401 "Invalid authorization header format"
             "Expected format: Bearer <token>"
  | Some err =>
      reject c 401 "Authentication failed"
        (if same err ErrExpiredToken then "Token expired" else "Invalid token")
  end.


(** [s] has no byte [sep]. *)
Fixpoint lacks (sep : ascii) (s : string) : bool :=
  match s with
  | EmptyString => true
  | String a s' => negb (bool_decide (a = sep)) && lacks sep s'
  end.

(** * Properties *)

(** ** Token service *)

Lemma DateTime_NewNumericDate t :
  jwt.DateTime (jwt.NewNumericDate t) = time.Truncate t time.Second.
Proof.
  unfold jwt.DateTime, jwt.NewNumericDate, time.Truncate, time.Second.
  rewrite Z.div_mul by lia. reflexivity.
Qed.

Lemma Truncate_le t : (time.Truncate t time.Second ≤ t)%Z.
Proof.
  unfold time.Truncate, time.Second.
  pose proof (Z.mul_div_le t 1000000000). lia.
Qed.

Lemma Truncate_gt t d :
  (time.Second ≤ d)%Z → (t < time.Truncate (time.Add t d) time.Second)%Z.
Proof.
  unfold time.Truncate, time.Add, time.Second. intros Hd.
  pose proof (Z.mod_pos_bound (t + d) 1000000000).
  pose proof (Z.div_mod (t + d) 1000000000). lia.
Qed.

Section TokenService.
Context `{jwt.Primitives auth.Claims}.

Lemma GenerateToken_frozen j userID email role now w :
  frozen now w →
  auth.GenerateToken j userID email role w =
  (jwt.SignedString jwt.SigningMethodHS256 (issued j userID email role now)
     (auth.secretKey j),
   mkWorld (clock w) (S (S (S (ticks w)))) (entropy w) (draws w) (users w)).
Proof.
  intros Hw. unfold auth.GenerateToken. simpl.
  unfold auth.jwtService_GenerateToken, issued. run.
  rewrite !Hw. reflexivity.
Qed.

Lemma verifyExpiresAt_spec (claims : auth.Claims) now :
  (jwt.verifyExpiresAt claims now = [ErrTokenExpired] ∧ expired claims now)
  ∨ (jwt.verifyExpiresAt claims now = [] ∧ ¬ expired claims now).
Proof.
  unfold jwt.verifyExpiresAt, expired, time.Before. simpl.
  destruct (jwt.ExpiresAt (auth.Registered claims)) as [exp|].
  - destruct (Z.ltb_spec now (jwt.DateTime exp)).
    + right. split; [done|]. intros (e & [= <-] & ?). lia.
    + left. eauto.
  - right. split; [done|]. intros (e & ? & ?). done.
Qed.

Lemma verifyNotBefore_spec (claims : auth.Claims) now :
  (jwt.verifyNotBefore claims now = [ErrTokenNotValidYet] ∧ premature claims now)
  ∨ (jwt.verifyNotBefore claims now = [] ∧ ¬ premature claims now).
Proof.
  unfold jwt.verifyNotBefore, premature, time.Before. simpl.
  destruct (jwt.NotBefore (auth.Registered claims)) as [nbf|].
  - destruct (Z.ltb_spec now (jwt.DateTime nbf)); simpl.
    + left. eauto.
    + right. split; [done|]. intros (e & [= <-] & ?). lia.
  - right. split; [done|]. intros (e & ? & ?). done.
Qed.

(** What [ValidateToken] returns for a token that reads back. *)
Lemma ValidateToken_signed j tokenString claims w :
  reads_back claims (auth.secretKey j) tokenString →
  let now := clock w (ticks w) in
  ∃ w',
    auth.ValidateToken j tokenString w =
    (match jwt.verifyExpiresAt claims now, jwt.verifyNotBefore claims now with
     | [], [] => Ok claims
     | [], _ => Err ErrInvalidToken
     | _, _ => Err ErrExpiredToken
     end, w').
Proof.
  intros (token & parts & sig & Hparse & <- & Hseg & Hsig). simpl.
  unfold auth.jwtService_ValidateToken, jwt.ParseWithClaims, jwt.Validate. run.
  rewrite Hparse, Hseg, Hsig. simpl.
  destruct (verifyExpiresAt_spec (jwt.TokenClaims token) (clock w (ticks w)))
    as [[-> _]|[-> _]];
    destruct (verifyNotBefore_spec (jwt.TokenClaims token) (clock w (ticks w)))
      as [[-> _]|[-> _]]; simpl; eauto.
Qed.

(** What it returns for any other token. *)
Lemma ValidateToken_unsigned j tokenString w :
  (∀ claims, ¬ reads_back claims (auth.secretKey j) tokenString) →
  auth.ValidateToken j tokenString w = (Err ErrInvalidToken, w).
Proof.
  intros Hno. simpl.
  unfold auth.jwtService_ValidateToken, jwt.ParseWithClaims. run.
  destruct (jwt.ParseUnverified tokenString) as [[token parts]|[]] eqn:Hparse;
    [|done..].
  destruct (jwt.DecodeSegment (nth 2 parts "")) as [sig|] eqn:Hseg; [|done].
  destruct (jwt.Verify _ _ sig _) eqn:Hsig; [|done].
  exfalso. apply (Hno (jwt.TokenClaims token)).
  exists token, parts, sig. eauto.
Qed.

Lemma reads_back_unique key tokenString claims claims' :
  reads_back claims key tokenString → reads_back claims' key tokenString →
  claims = claims'.
Proof.
  intros (t & p & s & H1 & <- & _) (t' & p' & s' & H2 & <- & _). congruence.
Qed.

End TokenService.

Lemma NewNumericDate_exact t :
  (0 ≤ t < 2 ^ 63)%Z → exact (Some (jwt.NewNumericDate t)).
Proof.
  intros Ht. unfold exact, jwt.NewNumericDate, time.Truncate, time.Second.
  rewrite Z.div_mul by lia.
  pose proof (Z.div_pos t 1000000000).
  assert (t `div` 1000000000 < 2 ^ 53)%Z; [|lia].
  apply Z.div_lt_upper_bound; lia.
Qed.

(** C2, as amended.  With the clock standing still at a time since 1970,
    for every subject id, email and role that are UTF-8 text and every time
    to live of at least one second whose expiry is a Go time, issuing a
    token succeeds, the token validates at once under the same secret, and
    the claims returned carry the subject id, email and role that were
    passed to issuance.  (Expiry is kept in whole seconds, rounded down.
    The conditions on the texts and on the times are those under which the
    jwt library reads back what it signs, [RoundTrip].) *)
Theorem validate_after_issue `{jwt.Primitives auth.Claims} `{!RoundTrip}
  (j : auth.jwtService) (userID email role : string)
  (now : time.Time) (w : World) :
  frozen now w →
  (time.Second ≤ auth.expiresIn j)%Z →
  utf8.ValidString userID = true →
  utf8.ValidString email = true →
  utf8.ValidString role = true →
  (0 ≤ now)%Z → (now + auth.expiresIn j < 2 ^ 63)%Z →
  ∃ tokenString w1 claims w2,
    auth.GenerateToken j userID email role w = (Ok tokenString, w1)
    ∧ auth.ValidateToken j tokenString w1 = (Ok claims, w2)
    ∧ auth.UserID claims = userID
    ∧ auth.Email claims = email
    ∧ auth.Role claims = role.
Proof.
  intros Hw Httl Hid Hemail Hrole Hnow Hexp.
  assert (Hcarried : carried (issued j userID email role now)).
  { unfold carried, issued. simpl. unfold time.Second in Httl.
    split_and!; try done; apply NewNumericDate_exact; unfold time.Add; lia. }
  destruct (signs _ (auth.secretKey j) Hcarried) as [tokenString Hsigned].
  pose proof (parses_back _ _ _ Hcarried Hsigned) as Hback.
  rewrite (GenerateToken_frozen _ _ _ _ now) by done. rewrite Hsigned.
  destruct (ValidateToken_signed j tokenString _
              (mkWorld (clock w) (S (S (S (ticks w)))) (entropy w) (draws w) (users w))
              Hback) as [w2 Hval].
  cbv zeta in Hval. cbn [clock ticks] in Hval. rewrite !Hw in Hval.
  eexists tokenString, _, (issued j userID email role now), w2.
  split; [done|]. split; [|done].
  rewrite Hval.
  unfold jwt.verifyExpiresAt, jwt.verifyNotBefore, time.Before. simpl.
  rewrite !DateTime_NewNumericDate.
  pose proof (Truncate_gt now (auth.expiresIn j) Httl).
  pose proof (Truncate_le now).
  destruct (Z.ltb_spec now (time.Truncate (time.Add now (auth.expiresIn j)) time.Second));
    [|lia].
  destruct (Z.ltb_spec now (time.Truncate now time.Second)); [lia|done].
Qed.

(** C3.  [ValidateToken] fails with [ErrExpiredToken] exactly when the
    token reads back under a signature that verifies with the secret and its
    expiry has passed at the time of validation; every other failure is
    [ErrInvalidToken]: a token that does not parse, a signature segment that
    does not decode, a signature that does not verify, a token not yet
    valid.  The two errors are distinct values, told apart by [==]. *)
Theorem token_failures `{jwt.Primitives auth.Claims}
  (j : auth.jwtService) (tokenString : string) (w : World) :
  let r := fst (auth.ValidateToken j tokenString w) in
  let now := clock w (ticks w) in
  (r = Err ErrExpiredToken ↔
   ∃ claims, reads_back claims (auth.secretKey j) tokenString ∧ expired claims now)
  ∧ (∀ e, r = Err e → e = ErrExpiredToken ∨ e = ErrInvalidToken)
  ∧ (∀ u, jwt.ParseUnverified tokenString = inr u → r = Err ErrInvalidToken)
  ∧ (∀ token parts,
       jwt.ParseUnverified tokenString = inl (token, parts) →
       jwt.DecodeSegment (nth 2 parts "") = None → r = Err ErrInvalidToken)
  ∧ (∀ token parts sig,
       jwt.ParseUnverified tokenString = inl (token, parts) →
       jwt.DecodeSegment (nth 2 parts "") = Some sig →
       jwt.Verify (jwt.Method token) (nth 0 parts "" +:+ "." +:+ nth 1 parts "")
         sig (auth.secretKey j) = false →
       r = Err ErrInvalidToken)
  ∧ same ErrInvalidToken ErrExpiredToken = false
  ∧ same ErrExpiredToken ErrExpiredToken = true
  ∧ ErrInvalidToken ≠ ErrExpiredToken.
Proof.
  intros r now.
  assert (Hcases :
    (∃ claims, reads_back claims (auth.secretKey j) tokenString)
    ∨ (∀ claims, ¬ reads_back claims (auth.secretKey j) tokenString)).
  { unfold reads_back.
    destruct (jwt.ParseUnverified tokenString) as [[token parts]|u] eqn:Hparse.
    - destruct (jwt.DecodeSegment (nth 2 parts "")) as [sig|] eqn:Hseg.
      + destruct (jwt.Verify (jwt.Method token)
                    (nth 0 parts "" +:+ "." +:+ nth 1 parts "") sig
                    (auth.secretKey j)) eqn:Hsig.
        * left. exists (jwt.TokenClaims token), token, parts, sig. eauto.
        * right. intros c (t & p & s & [= <- <-] & _ & Hs & Hv). congruence.
      + right. intros c (t & p & s & [= <- <-] & _ & Hs & _). congruence.
    - right. intros c (t & p & s & ? & _). congruence. }
  assert (Hno : ∀ claims,
            (∀ c, ¬ reads_back c (auth.secretKey j) tokenString) →
            reads_back claims (auth.secretKey j) tokenString → False)
    by (intros c Hn; apply Hn).
  repeat split.
  - (* expired only if signed and past expiry *)
    intros Hr. destruct Hcases as [[claims Hback]|Hnone].
    + exists claims. split; [done|].
      destruct (ValidateToken_signed j tokenString claims w Hback) as [w' Hval].
      subst r. rewrite Hval in Hr. simpl in Hr. fold now in Hr.
      destruct (verifyExpiresAt_spec claims now) as [[_ He]|[Hnil _]]; [done|].
      rewrite Hnil in Hr.
      destruct (jwt.verifyNotBefore claims now); discriminate.
    + subst r. rewrite ValidateToken_unsigned in Hr by done. discriminate.
  - (* signed and past expiry: expired *)
    intros (claims & Hback & Hexp).
    destruct (ValidateToken_signed j tokenString claims w Hback) as [w' Hval].
    subst r. rewrite Hval. simpl. fold now.
    destruct (verifyExpiresAt_spec claims now) as [[-> _]|[_ Hn]]; [done|].
    contradiction.
  - (* no third error *)
    intros e Hr. destruct Hcases as [[claims Hback]|Hnone].
    + destruct (ValidateToken_signed j tokenString claims w Hback) as [w' Hval].
      subst r. rewrite Hval in Hr. simpl in Hr.
      destruct (jwt.verifyExpiresAt claims (clock w (ticks w))),
        (jwt.verifyNotBefore claims (clock w (ticks w)));
        simplify_eq; auto.
    + subst r. rewrite ValidateToken_unsigned in Hr by done.
      simplify_eq/=. auto.
  - intros u Hparse. subst r. rewrite ValidateToken_unsigned; [done|].
    intros c (t & p & s & ? & _). congruence.
  - intros token parts Hparse Hseg. subst r. rewrite ValidateToken_unsigned; [done|].
    intros c (t & p & s & ? & _ & ? & _). congruence.
  - intros token parts sig Hparse Hseg Hsig. subst r.
    rewrite ValidateToken_unsigned; [done|].
    intros c (t & p & s & ? & _ & ? & ?). congruence.
  - done.
Qed.

(** ** Credential hashing *)

Lemma str_app_cons a s t : String a s +:+ t = String a (s +:+ t).
Proof. reflexivity. Qed.

Lemma str_app_nil t : "" +:+ t = t.
Proof. reflexivity. Qed.

Lemma str_length_app s t :
  String.length (s +:+ t) = (String.length s + String.length t)%nat.
Proof.
  induction s as [|a s IH]; [done|].
  rewrite str_app_cons. simpl. by rewrite IH.
Qed.

Lemma str_take_app s t : str_take (String.length s) (s +:+ t) = s.
Proof.
  induction s as [|a s IH]; [by destruct t|].
  rewrite str_app_cons. simpl. by rewrite IH.
Qed.

Lemma str_drop_app s t : str_drop (String.length s) (s +:+ t) = t.
Proof.
  induction s as [|a s IH]; [by destruct t|].
  rewrite str_app_cons. simpl. by rewrite IH.
Qed.

Lemma fit_exact n s : String.length s = n → fit n s = s.
Proof.
  revert s. induction n as [|n IH]; intros [|a s] Hlen; simpl in *; try done.
  f_equal. apply IH. lia.
Qed.

Lemma fit_fit n s : fit n (fit n s) = fit n s.
Proof. apply fit_exact, fit_length. Qed.

Section Hashing.
Context `{bcrypt.Blowfish}.

Lemma next_salt_length w : String.length (next_salt w) = bcrypt.encodedSaltSize.
Proof. apply bcrypt.salt_size, fit_length. Qed.

(** A hash of the current version and the default cost parses back. *)
Lemma newFromHash_Hash hash salt :
  String.length salt = bcrypt.encodedSaltSize →
  bcrypt.newFromHash
    (bcrypt.Hash (bcrypt.mkHashed hash salt bcrypt.DefaultCost
                    bcrypt.majorVersion bcrypt.minorVersion)) =
  Ok (bcrypt.mkHashed (fit bcrypt.encodedHashSize hash) salt bcrypt.DefaultCost
        bcrypt.majorVersion bcrypt.minorVersion).
Proof.
  intros Hsalt.
  assert (Hhash :
    bcrypt.Hash (bcrypt.mkHashed hash salt bcrypt.DefaultCost
                   bcrypt.majorVersion bcrypt.minorVersion) =
    String "$" (String "2" (String "a" (String "$" (String "1" (String "0"
      (String "$" (salt +:+ fit bcrypt.encodedHashSize hash)))))))) by reflexivity.
  rewrite Hhash. clear Hhash.
  remember (salt +:+ fit bcrypt.encodedHashSize hash) as body eqn:Hbody.
  assert (Hlen : String.length body = 53%nat).
  { subst body. rewrite str_length_app, Hsalt, fit_length. reflexivity. }
  unfold bcrypt.newFromHash.
  change (String.length (String "$" (String "2" (String "a" (String "$"
            (String "1" (String "0" (String "$" body))))))))
    with (7 + String.length body)%nat.
  rewrite Hlen. simpl.
  subst body. rewrite <- Hsalt, str_take_app, str_drop_app.
  reflexivity.
Qed.

Lemma Hash_inj h1 h2 salt cost major minor :
  bcrypt.Hash (bcrypt.mkHashed h1 salt cost major minor) =
  bcrypt.Hash (bcrypt.mkHashed h2 salt cost major minor) ↔
  fit bcrypt.encodedHashSize h1 = fit bcrypt.encodedHashSize h2.
Proof.
  unfold bcrypt.Hash. simpl. split.
  - intros Heq.
    destruct (bool_decide (minor = "000"%char)); injection Heq as Heq;
      by apply (inj (String.app salt)) in Heq.
  - by intros ->.
Qed.

(** [GenerateFromPassword] at the default cost: it refuses more than 72
    bytes and hashes anything else under a fresh salt. *)
Lemma GenerateFromPassword_long password w :
  (72 < String.length password)%nat →
  bcrypt.GenerateFromPassword password bcrypt.DefaultCost w =
  (Err (Bcrypt ErrPasswordTooLong), w).
Proof.
  intros Hlen. unfold bcrypt.GenerateFromPassword.
  destruct (Nat.ltb_spec 72 (String.length password)); [done|lia].
Qed.

Lemma GenerateFromPassword_short password w :
  (String.length password ≤ 72)%nat →
  ∃ hash,
    bcrypt.bcrypt password bcrypt.DefaultCost (next_salt w) = Ok hash
    ∧ bcrypt.GenerateFromPassword password bcrypt.DefaultCost w =
      (Ok (bcrypt.Hash (bcrypt.mkHashed hash (next_salt w) bcrypt.DefaultCost
                          bcrypt.majorVersion bcrypt.minorVersion)),
       mkWorld (clock w) (ticks w) (entropy w) (S (draws w)) (users w)).
Proof.
  intros Hlen.
  destruct (bcrypt.crypt_encoded_salt (fit bcrypt.maxSaltSize (entropy w (draws w)))
              bcrypt.DefaultCost (bcrypt.key_material password) (fit_length _ _))
    as [hash Hhash].
  exists hash. split; [done|].
  unfold bcrypt.GenerateFromPassword, bcrypt.newFromPassword, rand_Read.
  destruct (Nat.ltb_spec 72 (String.length password)); [lia|].
  run. unfold bcrypt.bcrypt. rewrite Hhash. reflexivity.
Qed.

(** [CompareHashAndPassword] against such a hash recomputes the digest
    under the hash's salt and cost and compares. *)
Lemma CompareHashAndPassword_Hash hash salt password :
  String.length salt = bcrypt.encodedSaltSize →
  String.length hash = bcrypt.encodedHashSize →
  bcrypt.CompareHashAndPassword
    (bcrypt.Hash (bcrypt.mkHashed hash salt bcrypt.DefaultCost
                    bcrypt.majorVersion bcrypt.minorVersion)) password =
  match bcrypt.bcrypt password bcrypt.DefaultCost salt with
  | Err e => Some e
  | Ok other =>
      if bool_decide (other = hash) then None
      else Some (Bcrypt ErrMismatchedHashAndPassword)
  end.
Proof.
  intros Hsalt Hhash. unfold bcrypt.CompareHashAndPassword.
  rewrite newFromHash_Hash by done. simpl.
  destruct (bcrypt.bcrypt password bcrypt.DefaultCost salt) as [other|e] eqn:Hb;
    [|done].
  apply bcrypt.crypt_size in Hb.
  destruct (decide (other = hash)) as [->|Hne].
  - rewrite !bool_decide_eq_true_2; [done..|].
    apply Hash_inj. by rewrite fit_fit.
  - rewrite !bool_decide_eq_false_2; [done|done|].
    rewrite Hash_inj, fit_fit, !fit_exact by done. congruence.
Qed.

Lemma SetPassword_valid u password w :
  (6 ≤ String.length password ≤ 72)%nat →
  ∃ hash,
    bcrypt.bcrypt password bcrypt.DefaultCost (next_salt w) = Ok hash
    ∧ user.SetPassword u password w =
      (Ok (user.with_Password u
             (bcrypt.Hash (bcrypt.mkHashed hash (next_salt w) bcrypt.DefaultCost
                             bcrypt.majorVersion bcrypt.minorVersion))),
       mkWorld (clock w) (ticks w) (entropy w) (S (draws w)) (users w)).
Proof.
  intros [Hmin Hmax].
  destruct (GenerateFromPassword_short password w Hmax) as (hash & Hhash & Hgen).
  exists hash. split; [done|].
  unfold user.SetPassword.
  rewrite bool_decide_eq_false_2 by (intros ->; simpl in Hmin; lia).
  destruct (Nat.ltb_spec (String.length password) 6); [lia|].
  run. rewrite Hgen. reflexivity.
Qed.

(** The key schedule never reads past byte 72 of the password. *)
Lemma circular_take n rest key :
  (n ≤ String.length rest)%nat → bcrypt.circular n rest key = str_take n rest.
Proof.
  revert rest. induction n as [|n IH]; intros [|a rest] Hlen; simpl in *;
    try done; try lia.
  f_equal. apply IH. lia.
Qed.

Lemma str_take_app_long n s t :
  (n ≤ String.length s)%nat → str_take n (s +:+ t) = str_take n s.
Proof.
  revert s. induction n as [|n IH]; intros [|a s] Hlen; simpl in *;
    try done; try lia.
  f_equal. apply IH. lia.
Qed.

Lemma key_material_long password :
  (72 ≤ String.length password)%nat →
  bcrypt.key_material password = str_take 72 password.
Proof.
  intros Hlen. unfold bcrypt.key_material.
  rewrite circular_take by (rewrite str_length_app; lia).
  by apply str_take_app_long.
Qed.

Lemma key_material_suffix password suffix :
  String.length password = 72%nat →
  bcrypt.key_material (password +:+ suffix) = bcrypt.key_material password.
Proof.
  intros Hlen. rewrite !key_material_long by (rewrite ?str_length_app; lia).
  by apply str_take_app_long; lia.
Qed.

(** Checking a password against a hash [SetPassword] stored. *)
Lemma CheckPassword_Hash u hash salt password :
  String.length salt = bcrypt.encodedSaltSize →
  String.length hash = bcrypt.encodedHashSize →
  user.CheckPassword
    (user.with_Password u
       (bcrypt.Hash (bcrypt.mkHashed hash salt bcrypt.DefaultCost
                       bcrypt.majorVersion bcrypt.minorVersion))) password = true ↔
  bcrypt.bcrypt password bcrypt.DefaultCost salt = Ok hash.
Proof.
  intros Hsalt Hhash. unfold user.CheckPassword. simpl.
  rewrite CompareHashAndPassword_Hash by done.
  destruct (bcrypt.bcrypt password bcrypt.DefaultCost salt) as [other|e]; [|done].
  destruct (decide (other = hash)) as [->|Hne].
  - by rewrite bool_decide_eq_true_2.
  - rewrite bool_decide_eq_false_2 by done. split; congruence.
Qed.

Lemma Hash_length hash salt cost :
  String.length salt = bcrypt.encodedSaltSize →
  String.length (bcrypt.Hash (bcrypt.mkHashed hash salt cost
                                bcrypt.majorVersion bcrypt.minorVersion)) = 60%nat.
Proof.
  intros Hsalt. unfold bcrypt.Hash. simpl.
  by rewrite str_length_app, Hsalt, fit_length.
Qed.

End Hashing.

(** Setting a password of 6 to 72 bytes succeeds, and what then checks
    against the stored hash is what bcrypt maps to the same digest. *)
Lemma SetPassword_checks `{bcrypt.Blowfish} (u : user.User) (p : string) (w : World) :
  (6 ≤ String.length p ≤ 72)%nat →
  ∃ u' w',
    user.SetPassword u p w = (Ok u', w')
    ∧ ∀ p1, user.CheckPassword u' p1 = true ↔
            bcrypt.bcrypt p1 bcrypt.DefaultCost (next_salt w) =
            bcrypt.bcrypt p bcrypt.DefaultCost (next_salt w).
Proof.
  intros Hlen.
  destruct (SetPassword_valid u p w Hlen) as (hash & Hhash & Hset).
  eexists _, _. split; [exact Hset|].
  intros p1. rewrite Hhash.
  apply CheckPassword_Hash; eauto using next_salt_length, bcrypt.crypt_size.
Qed.

(** C6, as amended.  For every password [p] of 6 to 72 bytes, hashing
    succeeds and verifying [p] against its hash is true.  Verifying another
    password against the hash is true exactly when bcrypt gives both the same
    digest under the hash's salt and cost; it does so whenever the two
    passwords yield the same key material, the first 72 bytes of the
    zero-terminated password read in a circle. *)
Theorem password_round_trip `{bcrypt.Blowfish}
  (u : user.User) (p : string) (w : World) :
  (6 ≤ String.length p ≤ 72)%nat →
  ∃ u' w',
    user.SetPassword u p w = (Ok u', w')
    ∧ user.CheckPassword u' p = true
    ∧ (∀ p1, user.CheckPassword u' p1 = true ↔
             bcrypt.bcrypt p1 bcrypt.DefaultCost (next_salt w) =
             bcrypt.bcrypt p bcrypt.DefaultCost (next_salt w))
    ∧ (∀ p1, bcrypt.key_material p1 = bcrypt.key_material p →
             user.CheckPassword u' p1 = true).
Proof.
  intros Hlen.
  destruct (SetPassword_checks u p w Hlen) as (u' & w' & Hset & Hcheck).
  exists u', w'. split_and!.
  - exact Hset.
  - by apply Hcheck.
  - exact Hcheck.
  - intros p1 Hkey. apply Hcheck. unfold bcrypt.bcrypt. by rewrite Hkey.
Qed.

(** ** Authentication use case *)

Section Authentication.
Context {R J : Type} `{repository.UserRepository R} `{auth.JWTService J}
  `{bcrypt.Blowfish}.

(** [AuthenticateUser] once the lookup has found [u]. *)
Lemma AuthenticateUser_found (uc : usecase.UserUseCase R J)
  (input : usecase.AuthenticateUserInput) (u : user.User) (w w1 : World) :
  repository.GetByEmail (usecase.userRepo uc) (usecase.ai_Email input) w = (Ok u, w1) →
  usecase.AuthenticateUser uc input w =
  if negb (user.IsActive u) then (Err ErrUserDeactivated, w1)
  else if negb (user.CheckPassword u (usecase.ai_Password input))
  then (Err ErrInvalidPassword, w1)
  else
    let '(token, w2) :=
      auth.GenerateToken (usecase.jwtService uc) (user.ID u) (user.Email u)
        (user.Role_ u) w1 in
    (match token with
     | Err err => Err (Errorf "failed to generate token" err)
     | Ok token => Ok (usecase.mkAuthenticateUserOutput u token)
     end, w2).
Proof.
  intros Hget. unfold usecase.AuthenticateUser, user.IsActiveUser. run.
  rewrite Hget.
  destruct (user.IsActive u); simpl; [|done].
  destruct (user.CheckPassword u _); simpl; [|done].
  destruct (auth.GenerateToken _ _ _ _ w1) as [[token|err] w2]; done.
Qed.

Lemma AuthenticateUser_missing (uc : usecase.UserUseCase R J)
  (input : usecase.AuthenticateUserInput) (err : error) (w w1 : World) :
  repository.GetByEmail (usecase.userRepo uc) (usecase.ai_Email input) w = (Err err, w1) →
  usecase.AuthenticateUser uc input w =
  (if same err ErrUserNotFound then Err ErrInvalidPassword
   else Err (Errorf "failed to get user by email" err), w1).
Proof.
  intros Hget. unfold usecase.AuthenticateUser. run. rewrite Hget.
  by destruct (same err ErrUserNotFound).
Qed.

(** C4.  [AuthenticateUser] answers [ErrInvalidPassword] when the
    repository has no user of that email, and the same error when the user is
    active and the password does not check; it answers [ErrUserDeactivated],
    a different error, when the user's active flag is false, whatever the
    password, the flag being tested first; and when it succeeds, its output
    is the user found and the token [GenerateToken] made of the user's id,
    email and role. *)
Theorem authenticate_outcomes (uc : usecase.UserUseCase R J)
  (input : usecase.AuthenticateUserInput) (w : World) :
  let lookup := repository.GetByEmail (usecase.userRepo uc) (usecase.ai_Email input) w in
  let out := usecase.AuthenticateUser uc input w in
  let issue (u : user.User) :=
    auth.GenerateToken (usecase.jwtService uc) (user.ID u) (user.Email u)
      (user.Role_ u) (snd lookup) in
  (fst lookup = Err ErrUserNotFound → out = (Err ErrInvalidPassword, snd lookup))
  ∧ (∀ u, fst lookup = Ok u → user.IsActive u = false →
          out = (Err ErrUserDeactivated, snd lookup))
  ∧ (∀ u, fst lookup = Ok u → user.IsActive u = true →
          user.CheckPassword u (usecase.ai_Password input) = false →
          out = (Err ErrInvalidPassword, snd lookup))
  ∧ (∀ u token w2, fst lookup = Ok u → user.IsActive u = true →
          user.CheckPassword u (usecase.ai_Password input) = true →
          issue u = (Ok token, w2) →
          out = (Ok (usecase.mkAuthenticateUserOutput u token), w2))
  ∧ (∀ o, fst out = Ok o →
          fst lookup = Ok (usecase.ao_User o)
          ∧ user.IsActive (usecase.ao_User o) = true
          ∧ user.CheckPassword (usecase.ao_User o) (usecase.ai_Password input) = true
          ∧ issue (usecase.ao_User o) = (Ok (usecase.ao_Token o), snd out))
  ∧ same ErrUserDeactivated ErrInvalidPassword = false
  ∧ ErrUserDeactivated ≠ ErrInvalidPassword.
Proof.
  intros lookup out issue. subst out issue.
  destruct lookup as [found w1] eqn:Hget. subst lookup. simpl.
  split_and!; try done.
  - intros ->. by rewrite (AuthenticateUser_missing _ _ _ _ _ Hget).
  - intros u -> Hactive. rewrite (AuthenticateUser_found _ _ _ _ _ Hget).
    by rewrite Hactive.
  - intros u -> Hactive Hcheck. rewrite (AuthenticateUser_found _ _ _ _ _ Hget).
    by rewrite Hactive, Hcheck.
  - intros u token w2 -> Hactive Hcheck Hissue.
    rewrite (AuthenticateUser_found _ _ _ _ _ Hget).
    by rewrite Hactive, Hcheck, Hissue.
  - intros o Hout. destruct found as [u|err].
    + rewrite (AuthenticateUser_found _ _ _ _ _ Hget) in Hout |- *.
      destruct (user.IsActive u) eqn:Hactive; simpl in *; [|done].
      destruct (user.CheckPassword u _) eqn:Hcheck; simpl in *; [|done].
      destruct (auth.GenerateToken _ _ _ _ w1) as [[token|err] w2] eqn:Hissue;
        simpl in *; by simplify_eq.
    + rewrite (AuthenticateUser_missing _ _ _ _ _ Hget) in Hout.
      by destruct (same err ErrUserNotFound).
Qed.

End Authentication.

(** ** Login handler *)

Section Login.
Context {R J : Type} `{repository.UserRepository R} `{auth.JWTService J}
  `{bcrypt.Blowfish}.

(** What [Login] writes for a request that binds. *)
Lemma Login_bound (h : handlers.UserHandler R J) (req : handlers.LoginRequest)
  (c : gin.Context) (w : World) :
  handlers.Login h (Ok req) c w =
  let '(output, w') :=
    usecase.AuthenticateUser (handlers.userUseCase h)
      (usecase.mkAuthenticateUserInput (handlers.lr_Email req)
         (handlers.lr_Password req)) w in
  (match output with
   | Err err =>
       gin.JSON_ c (fst (handlers.mapErrorToHTTPStatus err))
         (handlers.ErrorResponse "Authentication failed"
            (snd (handlers.mapErrorToHTTPStatus err)))
   | Ok output => gin.JSON_ c http.StatusOK (Marshal_User (usecase.ao_User output))
   end, w').
Proof.
  unfold handlers.Login. run.
  destruct (usecase.AuthenticateUser _ _ w) as [[output|err] w']; [done|].
  by destruct (handlers.mapErrorToHTTPStatus err).
Qed.

(** C1, on the code.  When the credentials of a login request
    authenticate, [Login] answers 200 with the JSON of the user alone: the
    token of the use case's output is dropped, and the body has no field
    [token]. *)
Theorem login_body_is_user_alone (h : handlers.UserHandler R J)
  (req : handlers.LoginRequest) (c : gin.Context) (w w' : World)
  (output : usecase.AuthenticateUserOutput) :
  usecase.AuthenticateUser (handlers.userUseCase h)
    (usecase.mkAuthenticateUserInput (handlers.lr_Email req)
       (handlers.lr_Password req)) w = (Ok output, w') →
  handlers.Login h (Ok req) c w =
    (gin.JSON_ c http.StatusOK (Marshal_User (usecase.ao_User output)), w')
  ∧ json_field "token" (Marshal_User (usecase.ao_User output)) = None
  ∧ gin.Written (fst (handlers.Login h (Ok req) c w)) =
    (gin.Written c ++ [(200%Z, Some (Marshal_User (usecase.ao_User output)))])%list.
Proof.
  intros Hauth. rewrite Login_bound, Hauth. done.
Qed.


End Login.

(** ** Middleware *)

Lemma bearer_dec authHeader :
  (∃ token, bearer authHeader token) ∨ (∀ token, ¬ bearer authHeader token).
Proof.
  unfold bearer.
  destruct (strings_Split authHeader " ") as [|first [|token [|? ?]]];
    try (right; intros ?; discriminate).
  destruct (decide (first = "Bearer")) as [->|Hne].
  - left. by exists token.
  - right. intros t [= ? ?]. done.
Qed.

Lemma identified_keys c claims :
  gin.Get (identified c claims) "userID" = Some (gin.AnyString (auth.UserID claims))
  ∧ gin.Get (identified c claims) "userEmail"
    = Some (gin.AnyString (auth.Email claims))
  ∧ gin.Get (identified c claims) "userRole"
    = Some (gin.AnyString (auth.Role claims)).
Proof.
  unfold identified, gin.Get, gin.Set_. simpl. split_and!.
  - rewrite !lookup_insert_ne by done. apply lookup_insert_eq.
  - rewrite lookup_insert_ne by done. apply lookup_insert_eq.
  - apply lookup_insert_eq.
Qed.

Section AuthGate.
Context {J : Type} `{auth.JWTService J}.

(** C7.  [AuthMiddleware] ends in one of five ways, and which one is
    decided by the Authorization header and by [ValidateToken]: no header,
    401 "Authorization header required"; a header that is not [Bearer], a
    space and a token, 401 "Invalid authorization header format"; a token
    that fails with [ErrInvalidToken], 401 with message "Invalid token"; one
    that fails with [ErrExpiredToken], 401 with message "Token expired"; a
    token that validates, the user id, email and role of its claims set on
    the context and the rest of the chain run on it.  A rejection aborts
    the chain and does not run the rest. *)
Theorem auth_middleware_outcomes (jwtService : J)
  (Next : gin.Context → M gin.outcome) (c : gin.Context) (w : World) :
  let authHeader := gin.GetHeader c "Authorization" in
  let run := middleware.AuthMiddleware jwtService Next c w in
  (authHeader = "" →
   run = (gin.Returned (reject c 401 "Authorization header required"
                          "Token not provided"), w))
  ∧ (authHeader ≠ "" → (∀ token, ¬ bearer authHeader token) →
     run = (gin.Returned (reject c 401 "Invalid authorization header format"
                            "Expected format: Bearer <token>"), w))
  ∧ (∀ token, bearer authHeader token →
     let validation := auth.ValidateToken jwtService token w in
     (fst validation = Err ErrInvalidToken →
      run = (gin.Returned (reject c 401 "Authentication failed" "Invalid token"),
             snd validation))
     ∧ (fst validation = Err ErrExpiredToken →
        run = (gin.Returned (reject c 401 "Authentication failed" "Token expired"),
               snd validation))
     ∧ (∀ claims, fst validation = Ok claims →
        run = Next (identified c claims) (snd validation)
        ∧ gin.Get (identified c claims) "userID"
          = Some (gin.AnyString (auth.UserID claims))
        ∧ gin.Get (identified c claims) "userEmail"
          = Some (gin.AnyString (auth.Email claims))
        ∧ gin.Get (identified c claims) "userRole"
          = Some (gin.AnyString (auth.Role claims))))
  ∧ (authHeader = ""
     ∨ (authHeader ≠ "" ∧ ∀ token, ¬ bearer authHeader token)
     ∨ (authHeader ≠ "" ∧ ∃ token, bearer authHeader token))
  ∧ (∀ status error message,
       gin.Aborted (reject c status error message) = true
       ∧ gin.Keys (reject c status error message) = gin.Keys c
       ∧ gin.Written (reject c status error message) =
         (gin.Written c ++
          [(status, Some (JObject [("error", JString error);
                                   ("message", JString message)]))])%list).
Proof.
  intros authHeader run. subst run. unfold middleware.AuthMiddleware.
  fold authHeader. split_and!.
  - intros ->. done.
  - intros Hne Hform. rewrite bool_decide_eq_false_2 by done.
    unfold bearer in Hform.
    destruct (strings_Split authHeader " ") as [|first [|token [|? ?]]]; try done.
    simpl. destruct (decide (first = "Bearer")) as [->|Hfirst].
    + by destruct (Hform token).
    + by rewrite bool_decide_eq_false_2.
  - intros token Hbearer. cbv zeta.
    assert (authHeader ≠ "") as Hne by (intros Heq; rewrite Heq in Hbearer; done).
    rewrite bool_decide_eq_false_2 by done.
    unfold bearer in Hbearer. rewrite Hbearer. simpl. run.
    destruct (auth.ValidateToken jwtService token w) as [[claims|err] w1]; simpl.
    + split_and!; try done. intros ? [= <-]. split; [done|].
      apply identified_keys.
    + split_and!; [by intros [= ->]..|done].
  - destruct (decide (authHeader = "")) as [|Hne]; [by left|right].
    destruct (bearer_dec authHeader); [right|left]; done.
  - done.
Qed.

End AuthGate.

(** C8.  [RoleMiddleware] answers 403 "Insufficient permissions" exactly
    when the context carries a role and the role is none of the required
    ones; when the context carries no role it answers 401 and returns
    normally; when the role is one of the required ones it runs the rest of
    the chain on the unchanged context. *)
Theorem role_gate_outcomes (requiredRoles : list string)
  (Next : gin.Context → M gin.outcome) (c : gin.Context) (w : World) :
  let run := middleware.RoleMiddleware requiredRoles Next c w in
  let forbidden :=
    reject c 403 "Insufficient permissions"
      "You don't have permission to access this resource" in
  (gin.Get c "userRole" = None →
   run = (gin.Returned (reject c 401 "User role not found"
                          "Authentication required"), w))
  ∧ (∀ role, gin.Get c "userRole" = Some (gin.AnyString role) →
       role ∉ requiredRoles → run = (gin.Returned forbidden, w))
  ∧ (∀ role, gin.Get c "userRole" = Some (gin.AnyString role) →
       role ∈ requiredRoles → run = Next c w)
  ∧ ((∀ Next', middleware.RoleMiddleware requiredRoles Next' c w
               = (gin.Returned forbidden, w)) ↔
     ∃ role, gin.Get c "userRole" = Some (gin.AnyString role)
             ∧ role ∉ requiredRoles).
Proof.
  intros run forbidden. subst run forbidden.
  assert (Hmember : ∀ role,
    existsb (λ requiredRole, bool_decide (role = requiredRole)) requiredRoles = true
    ↔ role ∈ requiredRoles).
  { intros role. rewrite existsb_exists. split.
    - intros (r & Hin & Heq). apply bool_decide_eq_true in Heq as ->.
      by apply list_elem_of_In.
    - intros Hin. exists role. split; [by apply list_elem_of_In|].
      by apply bool_decide_eq_true. }
  assert (Hno : ∀ role Next', gin.Get c "userRole" = Some (gin.AnyString role) →
     role ∉ requiredRoles →
     middleware.RoleMiddleware requiredRoles Next' c w =
     (gin.Returned (reject c 403 "Insufficient permissions"
        "You don't have permission to access this resource"), w)).
  { intros role Next' Hget Hnot. unfold middleware.RoleMiddleware. rewrite Hget.
    destruct (existsb _ requiredRoles) eqn:Hex; [|done].
    by apply Hmember in Hex. }
  assert (Hyes : ∀ role Next', gin.Get c "userRole" = Some (gin.AnyString role) →
     role ∈ requiredRoles →
     middleware.RoleMiddleware requiredRoles Next' c w = Next' c w).
  { intros role Next' Hget Hin. unfold middleware.RoleMiddleware. rewrite Hget.
    apply Hmember in Hin. by rewrite Hin. }
  split_and!.
  - intros Hget. unfold middleware.RoleMiddleware. by rewrite Hget.
  - intros role. apply Hno.
  - intros role. apply Hyes.
  - split.
    + intros Hall.
      specialize (Hall (λ _ w, (gin.Panicked "", w))).
      destruct (gin.Get c "userRole") as [[role| |]|] eqn:Hget.
      * destruct (decide (role ∈ requiredRoles)) as [Hin|Hnot].
        -- rewrite (Hyes role) in Hall by done. discriminate.
        -- by exists role.
      * unfold middleware.RoleMiddleware in Hall. rewrite Hget in Hall.
        discriminate.
      * unfold middleware.RoleMiddleware in Hall. rewrite Hget in Hall.
        discriminate.
      * unfold middleware.RoleMiddleware in Hall. rewrite Hget in Hall.
        unfold reject, gin.Abort, gin.JSON_ in Hall. simpl in Hall.
        injection Hall as Hall. apply app_inv_head in Hall. discriminate.
    + intros (role & Hget & Hnot) Next'. by apply (Hno role).
Qed.

(** Behind [AuthMiddleware] the gate never panics: the role it finds is the
    string the claims carried. *)
Lemma role_gate_after_auth (requiredRoles : list string)
  (Next : gin.Context → M gin.outcome) (c : gin.Context) (claims : auth.Claims)
  (w : World) :
  middleware.RoleMiddleware requiredRoles Next (identified c claims) w =
  if bool_decide (auth.Role claims ∈ requiredRoles)
  then Next (identified c claims) w
  else (gin.Returned (reject (identified c claims) 403 "Insufficient permissions"
                        "You don't have permission to access this resource"), w).
Proof.
  destruct (identified_keys c claims) as (_ & _ & Hrole).
  unfold middleware.RoleMiddleware. rewrite Hrole.
  destruct (existsb _ requiredRoles) eqn:Hex; simpl.
  - rewrite bool_decide_eq_true_2; [done|].
    apply existsb_exists in Hex as (r & Hin & Heq).
    apply bool_decide_eq_true in Heq as ->. by apply list_elem_of_In.
  - rewrite bool_decide_eq_false_2; [done|]. intros Hin.
    apply not_true_iff_false in Hex. apply Hex, existsb_exists.
    exists (auth.Role claims). split; [by apply list_elem_of_In|].
    by apply bool_decide_eq_true.
Qed.

(** ** Serialization of users *)

Lemma Marshal_User_alike u1 u2 : alike u1 u2 → Marshal_User u1 = Marshal_User u2.
Proof.
  destruct u1, u2. unfold alike, user.with_Password, Marshal_User. simpl.
  intros [= -> -> -> -> -> -> ->]. reflexivity.
Qed.

Lemma Marshal_Users_alike us1 us2 :
  Forall2 alike us1 us2 → map Marshal_User us1 = map Marshal_User us2.
Proof.
  induction 1 as [|u1 u2 us1 us2 Hu _ IH]; [done|].
  simpl. by rewrite (Marshal_User_alike u1 u2), IH.
Qed.

Section Responses.
Context {R J : Type} `{repository.UserRepository R} `{auth.JWTService J}
  `{bcrypt.Blowfish} `{uuid.Format}.

(** What each handler writes when its use case returns a user. *)
Lemma CreateUser_writes (h : handlers.UserHandler R J)
  (req : handlers.CreateUserRequest) role c w u w' :
  handlers.validateRole (handlers.cr_Role req) = Ok role →
  usecase.CreateUser (handlers.userUseCase h)
    (usecase.mkCreateUserInput (handlers.cr_Email req) (handlers.cr_Password req)
       (handlers.cr_Name req) role) w = (Ok u, w') →
  handlers.CreateUser h (Ok req) c w
  = (gin.JSON_ c http.StatusCreated (Marshal_User u), w').
Proof.
  intros Hrole Hrun. unfold handlers.CreateUser. rewrite Hrole. run.
  by rewrite Hrun.
Qed.

Lemma GetUserByID_writes (h : handlers.UserHandler R J) c w id u w' :
  gin.Param c "id" ≠ "" →
  uuid.Parse (gin.Param c "id") = Ok id →
  usecase.GetUserByID (handlers.userUseCase h) (gin.Param c "id") w = (Ok u, w') →
  handlers.GetUserByID h c w = (gin.JSON_ c http.StatusOK (Marshal_User u), w').
Proof.
  intros Hid Hparse Hrun. unfold handlers.GetUserByID.
  rewrite bool_decide_eq_false_2, Hparse by done. run. by rewrite Hrun.
Qed.

Lemma GetUserByEmail_writes (h : handlers.UserHandler R J) c w u w' :
  gin.Query c "email" ≠ "" →
  usecase.GetUserByEmail (handlers.userUseCase h) (gin.Query c "email") w
  = (Ok u, w') →
  handlers.GetUserByEmail h c w = (gin.JSON_ c http.StatusOK (Marshal_User u), w').
Proof.
  intros Hemail Hrun. unfold handlers.GetUserByEmail.
  rewrite bool_decide_eq_false_2 by done. run. by rewrite Hrun.
Qed.

Lemma UpdateUser_writes (h : handlers.UserHandler R J)
  (req : handlers.UpdateUserRequest) role c w id u w' :
  gin.Param c "id" ≠ "" →
  uuid.Parse (gin.Param c "id") = Ok id →
  update_role req = Ok role →
  usecase.UpdateUser (handlers.userUseCase h)
    (usecase.mkUpdateUserInput (gin.Param c "id") (handlers.ur_Name req)
       (handlers.ur_Email req) role) w = (Ok u, w') →
  handlers.UpdateUser h (Ok req) c w
  = (gin.JSON_ c http.StatusOK (Marshal_User u), w').
Proof.
  intros Hid Hparse Hrole Hrun. unfold handlers.UpdateUser.
  rewrite bool_decide_eq_false_2, Hparse by done.
  unfold update_role in Hrole. rewrite Hrole. run. by rewrite Hrun.
Qed.

Lemma ListUsers_writes (h : handlers.UserHandler R J) c w offset limit o w' :
  strconv.Atoi (gin.DefaultQuery c "offset" "0") = Ok offset →
  strconv.Atoi (gin.DefaultQuery c "limit" "10") = Ok limit →
  (0 ≤ offset)%Z → (0 < limit)%Z →
  usecase.ListUsers (handlers.userUseCase h) (usecase.mkListUsersInput offset limit) w
  = (Ok o, w') →
  handlers.ListUsers h c w
  = (gin.JSON_ c http.StatusOK (Marshal_ListUsersOutput o), w').
Proof.
  intros Hoff Hlim Hoff0 Hlim0 Hrun. unfold handlers.ListUsers.
  rewrite Hoff, Hlim.
  destruct (Z.ltb_spec offset 0); [lia|].
  destruct (Z.leb_spec limit 0); [lia|]. run. by rewrite Hrun.
Qed.

(** C9.  The JSON of a user has no field for the password hash, so two
    users that differ only in the hash have the same JSON; and whenever two
    runs of the create, get-by-id, get-by-email, update or login handler end
    with their use cases returning two such users (or, for the list handler,
    two lists of such users and the same total), the two runs write the same
    response. *)
Theorem password_hash_not_serialized (u1 u2 : user.User) :
  alike u1 u2 →
  Marshal_User u1 = Marshal_User u2
  ∧ json_field "password" (Marshal_User u1) = None
  ∧ (∀ (h1 h2 : handlers.UserHandler R J) req1 req2 role1 role2 c w1 w2 w1' w2',
       handlers.validateRole (handlers.cr_Role req1) = Ok role1 →
       handlers.validateRole (handlers.cr_Role req2) = Ok role2 →
       usecase.CreateUser (handlers.userUseCase h1)
         (usecase.mkCreateUserInput (handlers.cr_Email req1)
            (handlers.cr_Password req1) (handlers.cr_Name req1) role1) w1
       = (Ok u1, w1') →
       usecase.CreateUser (handlers.userUseCase h2)
         (usecase.mkCreateUserInput (handlers.cr_Email req2)
            (handlers.cr_Password req2) (handlers.cr_Name req2) role2) w2
       = (Ok u2, w2') →
       fst (handlers.CreateUser h1 (Ok req1) c w1)
       = fst (handlers.CreateUser h2 (Ok req2) c w2))
  ∧ (∀ (h1 h2 : handlers.UserHandler R J) c id w1 w2 w1' w2',
       gin.Param c "id" ≠ "" → uuid.Parse (gin.Param c "id") = Ok id →
       usecase.GetUserByID (handlers.userUseCase h1) (gin.Param c "id") w1
       = (Ok u1, w1') →
       usecase.GetUserByID (handlers.userUseCase h2) (gin.Param c "id") w2
       = (Ok u2, w2') →
       fst (handlers.GetUserByID h1 c w1) = fst (handlers.GetUserByID h2 c w2))
  ∧ (∀ (h1 h2 : handlers.UserHandler R J) c w1 w2 w1' w2',
       gin.Query c "email" ≠ "" →
       usecase.GetUserByEmail (handlers.userUseCase h1) (gin.Query c "email") w1
       = (Ok u1, w1') →
       usecase.GetUserByEmail (handlers.userUseCase h2) (gin.Query c "email") w2
       = (Ok u2, w2') →
       fst (handlers.GetUserByEmail h1 c w1) = fst (handlers.GetUserByEmail h2 c w2))
  ∧ (∀ (h1 h2 : handlers.UserHandler R J) req1 req2 role1 role2 c id
       w1 w2 w1' w2',
       gin.Param c "id" ≠ "" → uuid.Parse (gin.Param c "id") = Ok id →
       update_role req1 = Ok role1 → update_role req2 = Ok role2 →
       usecase.UpdateUser (handlers.userUseCase h1)
         (usecase.mkUpdateUserInput (gin.Param c "id") (handlers.ur_Name req1)
            (handlers.ur_Email req1) role1) w1 = (Ok u1, w1') →
       usecase.UpdateUser (handlers.userUseCase h2)
         (usecase.mkUpdateUserInput (gin.Param c "id") (handlers.ur_Name req2)
            (handlers.ur_Email req2) role2) w2 = (Ok u2, w2') →
       fst (handlers.UpdateUser h1 (Ok req1) c w1)
       = fst (handlers.UpdateUser h2 (Ok req2) c w2))
  ∧ (∀ (h1 h2 : handlers.UserHandler R J) req1 req2 c w1 w2 w1' w2' token1 token2,
       usecase.AuthenticateUser (handlers.userUseCase h1)
         (usecase.mkAuthenticateUserInput (handlers.lr_Email req1)
            (handlers.lr_Password req1)) w1
       = (Ok (usecase.mkAuthenticateUserOutput u1 token1), w1') →
       usecase.AuthenticateUser (handlers.userUseCase h2)
         (usecase.mkAuthenticateUserInput (handlers.lr_Email req2)
            (handlers.lr_Password req2)) w2
       = (Ok (usecase.mkAuthenticateUserOutput u2 token2), w2') →
       fst (handlers.Login h1 (Ok req1) c w1) = fst (handlers.Login h2 (Ok req2) c w2))
  ∧ (∀ (h1 h2 : handlers.UserHandler R J) c offset limit us1 us2 total
       w1 w2 w1' w2',
       strconv.Atoi (gin.DefaultQuery c "offset" "0") = Ok offset →
       strconv.Atoi (gin.DefaultQuery c "limit" "10") = Ok limit →
       (0 ≤ offset)%Z → (0 < limit)%Z →
       Forall2 alike us1 us2 →
       usecase.ListUsers (handlers.userUseCase h1)
         (usecase.mkListUsersInput offset limit) w1
       = (Ok (usecase.mkListUsersOutput us1 total), w1') →
       usecase.ListUsers (handlers.userUseCase h2)
         (usecase.mkListUsersInput offset limit) w2
       = (Ok (usecase.mkListUsersOutput us2 total), w2') →
       fst (handlers.ListUsers h1 c w1) = fst (handlers.ListUsers h2 c w2)).
Proof.
  intros Halike. pose proof (Marshal_User_alike u1 u2 Halike) as Hjson.
  split_and!; [done|done|..].
  - intros h1 h2 req1 req2 role1 role2 c w1 w2 w1' w2' Hr1 Hr2 Hrun1 Hrun2.
    rewrite (CreateUser_writes h1 req1 role1 c w1 u1 w1') by done.
    rewrite (CreateUser_writes h2 req2 role2 c w2 u2 w2') by done.
    simpl. by rewrite Hjson.
  - intros h1 h2 c id w1 w2 w1' w2' Hid Hparse Hrun1 Hrun2.
    rewrite (GetUserByID_writes h1 c w1 id u1 w1') by done.
    rewrite (GetUserByID_writes h2 c w2 id u2 w2') by done.
    simpl. by rewrite Hjson.
  - intros h1 h2 c w1 w2 w1' w2' Hemail Hrun1 Hrun2.
    rewrite (GetUserByEmail_writes h1 c w1 u1 w1') by done.
    rewrite (GetUserByEmail_writes h2 c w2 u2 w2') by done.
    simpl. by rewrite Hjson.
  - intros h1 h2 req1 req2 role1 role2 c id w1 w2 w1' w2' Hid Hparse Hr1 Hr2
      Hrun1 Hrun2.
    rewrite (UpdateUser_writes h1 req1 role1 c w1 id u1 w1') by done.
    rewrite (UpdateUser_writes h2 req2 role2 c w2 id u2 w2') by done.
    simpl. by rewrite Hjson.
  - intros h1 h2 req1 req2 c w1 w2 w1' w2' token1 token2 Hrun1 Hrun2.
    rewrite !Login_bound, Hrun1, Hrun2. simpl. by rewrite Hjson.
  - intros h1 h2 c offset limit us1 us2 total w1 w2 w1' w2' Hoff Hlim Hoff0 Hlim0
      Hus Hrun1 Hrun2.
    rewrite (ListUsers_writes h1 c w1 offset limit _ w1') by done.
    rewrite (ListUsers_writes h2 c w2 offset limit _ w2') by done.
    unfold Marshal_ListUsersOutput. simpl.
    by rewrite (Marshal_Users_alike us1 us2).
Qed.

End Responses.

(** ** Registration *)

Section Registration.
Context `{bcrypt.Blowfish} `{db.Engine} `{uuid.Format}.

Lemma SetPassword_inv u password w u' w' :
  user.SetPassword u password w = (Ok u', w') →
  (6 ≤ String.length password ≤ 72)%nat.
Proof.
  unfold user.SetPassword. intros Hset.
  destruct (bool_decide (password = "")); [done|].
  destruct (Nat.ltb_spec (String.length password) 6); [done|].
  destruct (Nat.le_gt_cases (String.length password) 72) as [|Hlong]; [lia|].
  run. rewrite (GenerateFromPassword_long password w) in Hset by done. done.
Qed.

(** A user [NewUser] returns: active, without an id, under the given
    email, with a hash of 60 bytes against which the password checks. *)
Lemma NewUser_inv email password name role w u w1 :
  user.NewUser email password name role w = (Ok u, w1) →
  user.IsActive u = true
  ∧ user.Email u = email
  ∧ user.ID u = ""
  ∧ String.length (user.Password u) = 60%nat
  ∧ (∀ p, user.CheckPassword (user.with_Password u (user.Password u)) p
          = user.CheckPassword u p)
  ∧ user.CheckPassword u password = true
  ∧ users w1 = users w.
Proof.
  unfold user.NewUser. run.
  set (w0 := mkWorld (clock w) (S (S (ticks w))) (entropy w) (draws w) (users w)).
  set (u0 := user.mkUser "" email "" name role true (clock w (ticks w))
               (clock w (S (ticks w)))).
  destruct (user.SetPassword u0 password w0) as [[u'|err] w'] eqn:Hset; [|done].
  pose proof (SetPassword_inv _ _ _ _ _ Hset) as Hlen.
  destruct (SetPassword_valid u0 password w0 Hlen) as (hash & Hhash & Hset').
  rewrite Hset' in Hset. injection Hset as <- <-.
  destruct (user.Validate _); [done|]. intros [= <- <-].
  split_and!; try done.
  - exact (Hash_length hash (next_salt w0) _ (next_salt_length w0)).
  - apply CheckPassword_Hash; eauto using next_salt_length, bcrypt.crypt_size.
Qed.

Lemma prepared_keeps u w :
  users (prepared u w).2 = users w
  ∧ user.Password (prepared u w).1 = user.Password u
  ∧ user.IsActive (prepared u w).1 = user.IsActive u
  ∧ user.Email (prepared u w).1 = user.Email u.
Proof.
  unfold prepared, uuid.New, rand_Read. run.
  destruct (bool_decide (user.ID u = "")); simpl;
    destruct (time.IsZero _); simpl; destruct (time.IsZero _); done.
Qed.

Lemma Postgres_Create_prepared repo u w :
  repository.Postgres_Create repo u w =
  let '(u, w) := prepared u w in
  let '(dbUser, w) :=
    db.CreateUser
      (db.mkCreateUserParams (user.Email u) (user.Password u) (user.Name u)
         (user.Role_ u) (user.IsActive u) (user.CreatedAt u) (user.UpdatedAt u)) w in
  (match dbUser with
   | Err err => Err (Errorf "failed to create user in database" err)
   | Ok dbUser => Ok (repository.mapDBUserToDomainUser dbUser)
   end, w).
Proof.
  unfold repository.Postgres_Create, prepared. run.
  destruct (bool_decide (user.ID u = "")); simpl;
    destruct (time.IsZero _); simpl; destruct (time.IsZero _); simpl;
    by destruct (db.CreateUser _ _) as [[?|?] ?].
Qed.

(** A successful [CreateUser] query appends one row, of a new email, that
    keeps the flag and, when it is short, the password of its argument. *)
Lemma db_CreateUser_inv arg w r w' :
  (String.length (db.c_Password arg) ≤ 255)%nat →
  db.CreateUser arg w = (Ok r, w') →
  users w' = (users w ++ [r])%list
  ∧ row.IsActive r = db.c_IsActive arg
  ∧ row.Password r = db.c_Password arg
  ∧ db.varchar 255 (db.c_Email arg) = Some (row.Email r)
  ∧ Forall (λ o, row.Email o ≠ row.Email r) (users w).
Proof.
  intros Hshort.
  unfold db.CreateUser, db.gen_random_uuid, rand_Read, get_users, put_users. run.
  unfold db.store_row. simpl.
  destruct (db.varchar 255 (db.c_Email arg)) as [email|] eqn:Hemail; [|done].
  destruct (db.varchar 255 (db.c_Password arg)) as [password|] eqn:Hpw; [|done].
  destruct (db.varchar 255 (db.c_Name arg)) as [name|]; [|done].
  destruct (db.varchar 50 (db.c_Role arg)) as [role|]; [|done].
  destruct (db.check_row _); [done|].
  unfold db.check_unique.
  destruct (existsb (λ o, bool_decide (row.ID o = _)) (users w)); [done|].
  destruct (existsb (λ o, bool_decide (row.Email o = _)) (users w)) eqn:Hmail;
    [done|].
  simpl. intros [= <- <-]. simpl. split_and!; try done.
  - by apply db.varchar_short in Hpw.
  - apply Forall_forall. intros o Ho Heq.
    apply not_true_iff_false in Hmail. apply Hmail, existsb_exists.
    exists o. split; [by apply list_elem_of_In|]. by apply bool_decide_eq_true.
Qed.

(** A successful [Create] appends one row, of a new email, that keeps the
    flag and the hash of the user, and returns that row as a user. *)
Lemma Postgres_Create_inv repo u w u' w' :
  (String.length (user.Password u) ≤ 255)%nat →
  repository.Postgres_Create repo u w = (Ok u', w') →
  ∃ r,
    users w' = (users w ++ [r])%list
    ∧ u' = repository.mapDBUserToDomainUser r
    ∧ row.IsActive r = user.IsActive u
    ∧ row.Password r = user.Password u
    ∧ db.varchar 255 (user.Email u) = Some (row.Email r)
    ∧ Forall (λ o, row.Email o ≠ row.Email r) (users w).
Proof.
  intros Hshort. rewrite Postgres_Create_prepared.
  destruct (prepared_keeps u w) as (Husers & Hpassword & Hactive & Hemail).
  destruct (prepared u w) as [u1 w1]. simpl in *.
  destruct (db.CreateUser _ w1) as [[r|err] w2] eqn:Hdb; [|done].
  intros [= <- <-].
  apply db_CreateUser_inv in Hdb as (Hw & Ha & Hp & He & Hnew);
    [|simpl; by rewrite Hpassword].
  simpl in *. exists r.
  rewrite <- Husers, <- Hpassword, <- Hactive, <- Hemail. done.
Qed.

Lemma Postgres_GetByEmail_last repo table r w :
  users w = (table ++ [r])%list →
  Forall (λ o, row.Email o ≠ row.Email r) table →
  repository.Postgres_GetByEmail repo (row.Email r) w
  = (Ok (repository.mapDBUserToDomainUser r), w).
Proof.
  intros Husers Hnew.
  unfold repository.Postgres_GetByEmail, db.GetUserByEmail, get_users. run.
  rewrite Husers.
  assert (Hfilter :
    filter (λ o, row.Email o = row.Email r) (table ++ [r])%list = [r]).
  { clear Husers. induction Hnew as [|o table Ho _ IH]; simpl.
    - by rewrite filter_cons_True.
    - by rewrite filter_cons_False. }
  by rewrite Hfilter.
Qed.

Context {J : Type} `{auth.JWTService J}.

(** C10.  When [CreateUser] succeeds, the account it returns, and the row
    it stored, have the active flag set; and authenticating right away with
    the account's email (the email given, when it fits the column) and the
    password given finds the account, passes the active test and the
    password check, and ends in the issue of a token: no activation step
    lies in between. *)
Theorem created_account_is_active
  (uc : usecase.UserUseCase repository.PostgresUserRepository J)
  (input : usecase.CreateUserInput) (w w' : World) (u : user.User) :
  usecase.CreateUser uc input w = (Ok u, w') →
  let login :=
    usecase.mkAuthenticateUserInput (user.Email u) (usecase.ci_Password input) in
  let issue :=
    auth.GenerateToken (usecase.jwtService uc) (user.ID u) (user.Email u)
      (user.Role_ u) w' in
  user.IsActive u = true
  ∧ (∃ r, users w' = (users w ++ [r])%list ∧ row.IsActive r = true
          ∧ u = repository.mapDBUserToDomainUser r)
  ∧ ((String.length (usecase.ci_Email input) ≤ 255)%nat →
     user.Email u = usecase.ci_Email input)
  ∧ usecase.AuthenticateUser uc login w' =
    (match fst issue with
     | Err err => Err (Errorf "failed to generate token" err)
     | Ok token => Ok (usecase.mkAuthenticateUserOutput u token)
     end, snd issue)
  ∧ (∀ token w2, issue = (Ok token, w2) →
       usecase.AuthenticateUser uc login w' =
       (Ok (usecase.mkAuthenticateUserOutput u token), w2)).
Proof.
  intros Hcreate login issue.
  unfold usecase.CreateUser in Hcreate. run.
  destruct (existsb _ (users w)); [done|].
  destruct (user.NewUser _ _ _ _ w) as [[u0|err] w1] eqn:Hnew; [|done].
  apply NewUser_inv in Hnew
    as (Hactive & Hemail & Hid & Hlen & _ & Hcheck & Hw1).
  destruct (repository.Postgres_Create _ u0 w1) as [[u1|err] w2] eqn:Hstore;
    [|done].
  injection Hcreate as -> ->.
  apply Postgres_Create_inv in Hstore
    as (r & Hw2 & -> & Hra & Hrp & Hre & Hfresh); [|lia].
  assert (Hau :
    user.IsActive (repository.mapDBUserToDomainUser r) = true)
    by (simpl; congruence).
  assert (Hck :
    user.CheckPassword (repository.mapDBUserToDomainUser r)
      (usecase.ci_Password input) = true).
  { unfold user.CheckPassword in *. simpl. by rewrite Hrp. }
  assert (Hauth :
    usecase.AuthenticateUser uc login w' =
    (match fst issue with
     | Err err => Err (Errorf "failed to generate token" err)
     | Ok token =>
         Ok (usecase.mkAuthenticateUserOutput (repository.mapDBUserToDomainUser r)
               token)
     end, snd issue)).
  { rewrite (AuthenticateUser_found uc login
               (repository.mapDBUserToDomainUser r) w' w').
    - rewrite Hau. simpl. subst login. simpl. rewrite Hck. simpl.
      subst issue. by destruct (auth.GenerateToken _ _ _ _ w') as [[?|?] ?].
    - simpl. apply (Postgres_GetByEmail_last _ (users w1)); [done|done]. }
  split_and!.
  - done.
  - exists r. split_and!; [by rewrite Hw2, Hw1|congruence|done].
  - intros Hfit. simpl. rewrite Hemail in Hre.
    by apply db.varchar_short in Hre.
  - done.
  - intros token w2 Hissue. rewrite Hauth, Hissue. done.
Qed.

End Registration.

(** ** The properties on the sample instantiation *)

(** The sample token format has the round trip: hexadecimal texts and
    decimal dates read back, and no segment holds a separator. *)

Lemma lacks_app sep s t : lacks sep (s +:+ t) = lacks sep s && lacks sep t.
Proof.
  induction s as [|a s IH]; [by rewrite str_app_nil|].
  rewrite str_app_cons. simpl. by rewrite IH, andb_assoc.
Qed.

Lemma Split_lacks s sep : lacks sep s = true → strings_Split s sep = [s].
Proof.
  induction s as [|a s IH]; [done|]. simpl.
  intros [Ha Hs]%andb_true_iff. apply negb_true_iff in Ha. rewrite Ha.
  by rewrite IH.
Qed.

Lemma Split_app s t sep :
  lacks sep s = true →
  strings_Split (s +:+ String sep t) sep = s :: strings_Split t sep.
Proof.
  induction s as [|a s IH].
  - intros _. rewrite str_app_nil. simpl. by rewrite bool_decide_eq_true_2.
  - rewrite str_app_cons. simpl.
    intros [Ha Hs]%andb_true_iff. apply negb_true_iff in Ha. rewrite Ha.
    by rewrite IH.
Qed.

Lemma hex_byte a :
  let n := N_of_ascii a in
  sample.hex_val (sample.hex_digit (n `div` 16)) = Some (n `div` 16)%N
  ∧ sample.hex_val (sample.hex_digit (n `mod` 16)) = Some (n `mod` 16)%N
  ∧ ascii_of_N (16 * (n `div` 16) + n `mod` 16) = a
  ∧ lacks "." (String (sample.hex_digit (n `div` 16))
                 (String (sample.hex_digit (n `mod` 16)) "")) = true
  ∧ lacks "," (String (sample.hex_digit (n `div` 16))
                 (String (sample.hex_digit (n `mod` 16)) "")) = true.
Proof.
  destruct a as [[] [] [] [] [] [] [] []]; vm_compute; done.
Qed.

Lemma of_hex_fuel_to_hex s fuel :
  (String.length s ≤ fuel)%nat →
  sample.of_hex_fuel fuel (sample.to_hex s) = Some s.
Proof.
  revert fuel. induction s as [|a s IH]; intros fuel Hfuel.
  - by destruct fuel.
  - destruct fuel as [|fuel]; [simpl in Hfuel; lia|].
    destruct (hex_byte a) as (Hhi & Hlo & Ha & _).
    cbn [sample.to_hex sample.of_hex_fuel]. cbv zeta in *.
    rewrite Hhi, Hlo, IH by (simpl in Hfuel; lia). by rewrite Ha.
Qed.

Lemma to_hex_length s :
  String.length (sample.to_hex s) = (2 * String.length s)%nat.
Proof. induction s as [|a s IH]; simpl; [done|]. rewrite IH. lia. Qed.

Lemma of_hex_to_hex s : sample.of_hex (sample.to_hex s) = Some s.
Proof.
  unfold sample.of_hex. apply of_hex_fuel_to_hex. rewrite to_hex_length. lia.
Qed.

Lemma to_hex_lacks s :
  lacks "." (sample.to_hex s) = true ∧ lacks "," (sample.to_hex s) = true.
Proof.
  induction s as [|a s [IH1 IH2]]; [done|].
  destruct (hex_byte a) as (_ & _ & _ & Hdot & Hcomma).
  cbn [sample.to_hex]. cbv zeta in *.
  change (String ?x (String ?y ?r)) with (String x (String y "") +:+ r).
  rewrite !lacks_app, Hdot, Hcomma, IH1, IH2. done.
Qed.

Lemma digits_uint_acc d p :
  strconv.digits (Z.pos p) (NilEmpty.string_of_uint d)
  = Some (Z.pos (Pos.of_uint_acc d p)).
Proof.
  revert p. induction d; intros p; simpl; try done;
    match goal with
    | |- strconv.digits ?acc _ = Some (Z.pos (Pos.of_uint_acc _ ?q)) =>
        replace acc with (Z.pos q);
        [apply IHd|
         match goal with
         | |- context [(Z.of_nat (nat_of_ascii ?c) - 48)%Z] =>
             let v := eval vm_compute in (Z.of_nat (nat_of_ascii c) - 48)%Z in
             change (Z.of_nat (nat_of_ascii c) - 48)%Z with v
         end; lia]
    end.
Qed.

Lemma digits_uint d :
  strconv.digits 0 (NilEmpty.string_of_uint d) = Some (Z.of_N (Pos.of_uint d)).
Proof.
  induction d; simpl; try done;
    match goal with
    | |- strconv.digits ?acc _ = _ =>
        let acc' := eval vm_compute in acc in change acc with acc'
    end; apply digits_uint_acc.
Qed.

Lemma uint_text p :
  let text := NilZero.string_of_uint (Pos.to_uint p) in
  text ≠ ""
  ∧ strconv.digits 0 text = Some (Z.pos p)
  ∧ (∀ rest, text ≠ String "+" rest) ∧ (∀ rest, text ≠ String "-" rest)
  ∧ lacks "." text = true ∧ lacks "," text = true.
Proof.
  intros text.
  assert (Htext : text = NilEmpty.string_of_uint (Pos.to_uint p)).
  { subst text. pose proof (Unsigned.to_uint_nonnil p).
    by destruct (Pos.to_uint p). }
  assert (Hlacks : ∀ d, lacks "." (NilEmpty.string_of_uint d) = true
                        ∧ lacks "," (NilEmpty.string_of_uint d) = true).
  { induction d as [|d [??]|d [??]|d [??]|d [??]|d [??]|d [??]|d [??]|d [??]
                     |d [??]|d [??]]; done. }
  rewrite Htext. split_and!.
  - pose proof (Unsigned.to_uint_nonnil p). by destruct (Pos.to_uint p).
  - by rewrite digits_uint, Unsigned.of_to.
  - intros rest. by destruct (Pos.to_uint p).
  - intros rest. by destruct (Pos.to_uint p).
  - apply Hlacks.
  - apply Hlacks.
Qed.

Lemma decimal_text z :
  (- 2 ^ 63 ≤ z ≤ 2 ^ 63 - 1)%Z →
  sample.decimal z ≠ "" ∧ strconv.Atoi (sample.decimal z) = Ok z
  ∧ lacks "." (sample.decimal z) = true ∧ lacks "," (sample.decimal z) = true.
Proof.
  intros Hz. unfold sample.decimal. destruct z as [|p|p]; [done| |].
  - destruct (uint_text p) as (Hne & Hdigits & Hplus & Hminus & Hdot & Hcomma).
    cbn [Z.to_int NilZero.string_of_int]. cbv zeta in *.
    set (text := NilZero.string_of_uint (Pos.to_uint p)) in *.
    split_and!; try done.
    unfold strconv.Atoi.
    assert (Hsign :
      match text with
      | String "+" s' => (false, s')
      | String "-" s' => (true, s')
      | _ => (false, text)
      end = (false, text)).
    { destruct text as [|a rest]; [done|].
      destruct (decide (a = "+"%char)) as [->|]; [by destruct (Hplus rest)|].
      destruct (decide (a = "-"%char)) as [->|]; [by destruct (Hminus rest)|].
      destruct a as [[] [] [] [] [] [] [] []]; done. }
    rewrite Hsign. rewrite bool_decide_eq_false_2 by done. rewrite Hdigits.
    destruct (Z.ltb_spec (Z.pos p) (- 2 ^ 63)); [lia|].
    destruct (Z.ltb_spec (2 ^ 63 - 1) (Z.pos p)); [lia|done].
  - destruct (uint_text p) as (Hne & Hdigits & Hplus & Hminus & Hdot & Hcomma).
    cbn [Z.to_int NilZero.string_of_int]. cbv zeta in *.
    set (text := NilZero.string_of_uint (Pos.to_uint p)) in *.
    split_and!; try done.
    unfold strconv.Atoi. rewrite bool_decide_eq_false_2 by done. rewrite Hdigits.
    change (- Z.pos p)%Z with (Z.neg p).
    destruct (Z.ltb_spec (Z.neg p) (- 2 ^ 63)); [lia|].
    destruct (Z.ltb_spec (2 ^ 63 - 1) (Z.neg p)); [lia|done].
Qed.

Lemma str_app_assoc s t u : (s +:+ t) +:+ u = s +:+ (t +:+ u).
Proof.
  induction s as [|a s IH]; [by rewrite !str_app_nil|].
  by rewrite !str_app_cons, IH.
Qed.

Lemma date_text_round d :
  exact d →
  sample.date_of_text (sample.date_text d) = Some d
  ∧ lacks "." (sample.date_text d) = true ∧ lacks "," (sample.date_text d) = true.
Proof.
  destruct d as [z|]; [|done]. simpl. intros Hz.
  destruct (decimal_text z) as (Hne & Hatoi & Hdot & Hcomma); [lia|].
  unfold sample.date_of_text. rewrite bool_decide_eq_false_2 by done.
  by rewrite Hatoi.
Qed.

Lemma payload_round claims :
  carried claims →
  sample.claims_of_payload (sample.payload claims) = Some claims
  ∧ lacks "." (sample.payload claims) = true.
Proof.
  intros (_ & _ & _ & Hexp & Hnbf & Hiat).
  destruct claims as [uid email role [exp nbf iat]]. simpl in *.
  destruct (date_text_round exp Hexp) as (Rexp & Dexp & Cexp).
  destruct (date_text_round nbf Hnbf) as (Rnbf & Dnbf & Cnbf).
  destruct (date_text_round iat Hiat) as (Riat & Diat & Ciat).
  destruct (to_hex_lacks uid) as [Duid Cuid].
  destruct (to_hex_lacks email) as [Demail Cemail].
  destruct (to_hex_lacks role) as [Drole Crole].
  unfold sample.payload, sample.claims_of_payload. cbn [String.concat].
  simpl auth.UserID. simpl auth.Email. simpl auth.Role. simpl jwt.ExpiresAt.
  simpl jwt.NotBefore. simpl jwt.IssuedAt.
  rewrite !str_app_cons, !str_app_nil. split.
  - rewrite !Split_app, Split_lacks by done.
    by rewrite !of_hex_to_hex, Rexp, Rnbf, Riat.
  - repeat (rewrite lacks_app; cbn [lacks]).
    by rewrite Duid, Demail, Drole, Dexp, Dnbf, Diat.
Qed.

Lemma sample_SignedString method claims key :
  jwt.SignedString method claims key =
  Ok ((sample.to_hex method +:+ "." +:+ sample.payload claims) +:+ "."
      +:+ sample.to_hex
            (sample.tag key (sample.to_hex method +:+ "." +:+ sample.payload claims))).
Proof. reflexivity. Qed.

Lemma sample_ParseUnverified header body signature claims :
  sample.of_hex header = Some jwt.SigningMethodHS256 →
  sample.claims_of_payload body = Some claims →
  strings_Split (header +:+ "." +:+ body +:+ "." +:+ signature) "."
  = [header; body; signature] →
  jwt.ParseUnverified (header +:+ "." +:+ body +:+ "." +:+ signature)
  = inl (jwt.mkToken jwt.SigningMethodHS256 claims "" false,
         [header; body; signature]).
Proof.
  intros Hheader Hbody Hsplit.
  change (jwt.ParseUnverified ?t) with
    (match strings_Split t "." with
     | [header; body; signature] =>
         match sample.of_hex header, sample.claims_of_payload body with
         | Some method, Some claims =>
             if bool_decide (method = jwt.SigningMethodHS256)
             then inl (jwt.mkToken method claims "" false, [header; body; signature])
             else inr jwt.Unverifiable
         | _, _ => inr jwt.Malformed
         end
     | _ => inr jwt.Malformed
     end).
  rewrite Hsplit, Hheader, Hbody. by rewrite bool_decide_eq_true_2.
Qed.

(** The sample token format has the round trip of the library. *)
Lemma sample_round_trip : RoundTrip.
Proof.
  split.
  - intros claims key _. rewrite sample_SignedString. eauto.
  - intros claims key tokenString Hcarried.
    rewrite sample_SignedString. intros [= <-].
    destruct (payload_round claims Hcarried) as [Hpayload Hdot].
    destruct (to_hex_lacks jwt.SigningMethodHS256) as [Hmethod _].
    set (header := sample.to_hex jwt.SigningMethodHS256) in *.
    set (body := sample.payload claims) in *.
    set (signature := sample.to_hex (sample.tag key (header +:+ "." +:+ body))).
    destruct (to_hex_lacks (sample.tag key (header +:+ "." +:+ body))) as [Hsig _].
    fold signature in Hsig.
    rewrite str_app_assoc, (str_app_cons "."%char "" body), str_app_nil.
    rewrite <- (str_app_nil body) at 1.
    rewrite <- (str_app_cons "."%char "" body).
    exists (jwt.mkToken jwt.SigningMethodHS256 claims "" false),
      [header; body; signature], (sample.tag key (header +:+ "." +:+ body)).
    split_and!.
    + apply sample_ParseUnverified; [apply of_hex_to_hex|done|].
      rewrite !str_app_cons, !str_app_nil.
      by rewrite !Split_app, Split_lacks.
    + done.
    + apply of_hex_to_hex.
    + by apply bool_decide_eq_true_2.
Qed.

(** The token the sample service issues for a day validates at once. *)
Lemma validate_after_issue_witness :
  ∃ tokenString w1 claims w2,
    auth.GenerateToken sample.service "42" "test@example.com" "user" sample.still
    = (Ok tokenString, w1)
    ∧ auth.ValidateToken sample.service tokenString w1 = (Ok claims, w2)
    ∧ auth.UserID claims = "42"
    ∧ auth.Email claims = "test@example.com"
    ∧ auth.Role claims = "user".
Proof.
  apply (@validate_after_issue sample.primitives sample_round_trip sample.service
           "42" "test@example.com" "user" time.Hour sample.still).
  - intros k. reflexivity.
  - vm_compute. discriminate.
  - reflexivity.
  - reflexivity.
  - reflexivity.
  - vm_compute. discriminate.
  - vm_compute. reflexivity.
Defined.

(** A time to live under a second can round the expiry down to the
    present: the token is expired as soon as it is issued. *)
Lemma sub_second_expiry `{jwt.Primitives auth.Claims}
  (j : auth.jwtService) (userID email role tokenString : string)
  (now : time.Time) (w w1 : World) :
  frozen now w →
  (now `mod` time.Second + auth.expiresIn j < time.Second)%Z →
  auth.GenerateToken j userID email role w = (Ok tokenString, w1) →
  reads_back (issued j userID email role now) (auth.secretKey j) tokenString →
  fst (auth.ValidateToken j tokenString w1) = Err ErrExpiredToken.
Proof.
  intros Hw Httl Hgen Hback.
  rewrite (GenerateToken_frozen _ _ _ _ now) in Hgen by done.
  injection Hgen as _ <-.
  destruct (ValidateToken_signed j tokenString _
              (mkWorld (clock w) (S (S (S (ticks w)))) (entropy w) (draws w) (users w))
              Hback) as [w2 Hval].
  cbv zeta in Hval. cbn [clock ticks] in Hval. rewrite !Hw in Hval.
  rewrite Hval. simpl.
  unfold jwt.verifyExpiresAt, time.Before. simpl.
  rewrite DateTime_NewNumericDate.
  assert (time.Truncate (time.Add now (auth.expiresIn j)) time.Second ≤ now)%Z.
  { unfold time.Truncate, time.Add, time.Second in *.
    pose proof (Z.div_mod now 1000000000).
    pose proof (Z.mod_pos_bound now 1000000000).
    assert ((now + auth.expiresIn j) `div` 1000000000
            ≤ now `div` 1000000000)%Z; [|nia].
    apply Z.lt_succ_r, Z.div_lt_upper_bound; lia. }
  destruct (Z.ltb_spec now
              (time.Truncate (time.Add now (auth.expiresIn j)) time.Second));
    [lia|done].
Qed.

(** C2 as stated fails for a time to live of half a second: issued on the
    full hour with the clock standing still, the token is expired at once. *)
Lemma half_second_token_expired :
  (0 < auth.expiresIn sample.brief)%Z
  ∧ frozen time.Hour sample.still
  ∧ auth.GenerateToken sample.brief "42" "test@example.com" "user" sample.still
    = (Ok (sample.issue sample.brief).1, (sample.issue sample.brief).2)
  ∧ reads_back (issued sample.brief "42" "test@example.com" "user" time.Hour)
      (auth.secretKey sample.brief) (sample.issue sample.brief).1
  ∧ fst (auth.ValidateToken sample.brief (sample.issue sample.brief).1
           (sample.issue sample.brief).2) = Err ErrExpiredToken.
Proof.
  split_and!.
  - reflexivity.
  - intros k. reflexivity.
  - vm_compute. reflexivity.
  - unfold reads_back. eexists _, _, _. split_and!; reflexivity.
  - vm_compute. reflexivity.
Qed.


(** password123 can be set and checks against its own hash. *)
Lemma password_round_trip_witness :
  ∃ u' w',
    user.SetPassword sample.nobody "password123" sample.world = (Ok u', w')
    ∧ user.CheckPassword u' "password123" = true.
Proof.
  destruct (password_round_trip sample.nobody "password123" sample.world)
    as (u' & w' & Hset & Hcheck & _); [simpl; lia|].
  exists u', w'. by split.
Defined.

(** C6 as stated fails on a password of 72 bytes and the same password
    with one more byte: they differ, the first can be hashed, and the second
    checks against the hash of the first. *)
Lemma longer_password_checks :
  sample.longer_password ≠ sample.long_password
  ∧ (6 ≤ String.length sample.long_password)%nat
  ∧ ∃ u w',
      user.SetPassword sample.nobody sample.long_password sample.world = (Ok u, w')
      ∧ user.CheckPassword u sample.longer_password = true.
Proof.
  split_and!.
  - intros Heq. apply (f_equal String.length) in Heq. vm_compute in Heq.
    discriminate.
  - vm_compute. lia.
  - destruct (SetPassword_checks sample.nobody sample.long_password sample.world)
      as (u & w' & Hset & Hcheck); [vm_compute; lia|].
    exists u, w'. split; [done|]. apply Hcheck.
    unfold bcrypt.bcrypt, sample.longer_password.
    by rewrite (key_material_suffix sample.long_password "b").
Qed.

(** The registered account under two different hashes has one JSON. *)
Lemma password_hash_not_serialized_witness :
  Marshal_User (user.with_Password sample.account "one")
  = Marshal_User (user.with_Password sample.account "two").
Proof.
  destruct (password_hash_not_serialized
              (R := repository.PostgresUserRepository) (J := auth.jwtService)
              (user.with_Password sample.account "one")
              (user.with_Password sample.account "two")) as [Hjson _];
    [reflexivity|exact Hjson].
Defined.

(** A run that returns [a] and leaves whatever world it leaves. *)
Lemma run_returns {A : Type} (m : A * World) (a : A) : m.1 = a → m = (a, m.2).
Proof. destruct m. simpl. congruence. Qed.

(** Registering and logging in on the sample instantiation. *)
Lemma sample_registration :
  usecase.CreateUser (handlers.userUseCase sample.handler) sample.registration
    sample.world = (Ok sample.account, sample.registered).
Proof. apply run_returns. vm_compute. reflexivity. Qed.

Lemma sample_login :
  usecase.AuthenticateUser (handlers.userUseCase sample.handler)
    (usecase.mkAuthenticateUserInput "test@example.com" "password123")
    sample.registered = (Ok sample.session, sample.logged_in).
Proof. apply run_returns. vm_compute. reflexivity. Qed.

(** The registered account is active and logs in right away. *)
Lemma created_account_is_active_witness :
  user.IsActive sample.account = true
  ∧ fst (usecase.AuthenticateUser (handlers.userUseCase sample.handler)
           (usecase.mkAuthenticateUserInput (user.Email sample.account)
              "password123")
           sample.registered) = Ok sample.session.
Proof.
  destruct (created_account_is_active (handlers.userUseCase sample.handler)
              sample.registration sample.world sample.registered sample.account
              sample_registration) as (Hactive & _ & _ & Hlogin & _).
  split; [exact Hactive|].
  cbv zeta in Hlogin. cbn [usecase.ci_Password sample.registration] in Hlogin.
  rewrite Hlogin. cbn [fst]. vm_compute. reflexivity.
Defined.

(** The login of the registered account: a token is issued, and the body
    written is the user without it. *)
Lemma login_body_is_user_alone_witness :
  usecase.ao_Token sample.session ≠ ""
  ∧ json_field "token" (Marshal_User (usecase.ao_User sample.session)) = None
  ∧ gin.Written
      (fst (handlers.Login sample.handler (Ok sample.credentials) sample.request
              sample.registered))
    = [(200%Z, Some (Marshal_User (usecase.ao_User sample.session)))].
Proof.
  destruct (login_body_is_user_alone sample.handler sample.credentials
              sample.request sample.registered sample.logged_in sample.session
              sample_login) as (_ & Hfield & Hwritten).
  split_and!; [by vm_compute|exact Hfield|exact Hwritten].
Defined.

(** * Further properties of the code

    What the entity, the queries, the repository, the use cases, the
    handlers and the route groups do beyond the properties above. *)

(** ** Passwords and the entity *)

Section Passwords.
Context `{bcrypt.Blowfish}.

Lemma SetPassword_short u password w :
  (String.length password < 6)%nat →
  user.SetPassword u password w =
  (Err (New (if bool_decide (password = "") then "password cannot be empty"
             else "password must be at least 6 characters long")), w).
Proof.
  intros Hlen. unfold user.SetPassword.
  destruct (bool_decide (password = "")); [done|].
  destruct (Nat.ltb_spec (String.length password) 6); [done|lia].
Qed.

Lemma SetPassword_long u password w :
  (72 < String.length password)%nat →
  user.SetPassword u password w = (Err (Bcrypt ErrPasswordTooLong), w).
Proof.
  intros Hlen. unfold user.SetPassword.
  rewrite bool_decide_eq_false_2 by (intros ->; simpl in Hlen; lia).
  destruct (Nat.ltb_spec (String.length password) 6); [lia|].
  run. by rewrite GenerateFromPassword_long.
Qed.

Lemma SetPassword_errors u password e w w' :
  user.SetPassword u password w = (Err e, w') →
  w' = w
  ∧ (e = New "password cannot be empty" ∧ password = ""
     ∨ e = New "password must be at least 6 characters long"
       ∧ (0 < String.length password < 6)%nat
     ∨ e = Bcrypt ErrPasswordTooLong ∧ (72 < String.length password)%nat).
Proof.
  intros Hset.
  destruct (Nat.lt_ge_cases (String.length password) 6) as [Hshort|Hsix].
  - rewrite SetPassword_short in Hset by done.
    injection Hset as <- <-. split; [done|].
    case_bool_decide as Hempty; [by left|right; left]. split; [done|].
    destruct password; [done|simpl in *; lia].
  - destruct (Nat.le_gt_cases (String.length password) 72) as [Hfit|Hlong].
    + destruct (SetPassword_valid u password w (conj Hsix Hfit)) as (h & _ & Hok).
      congruence.
    + rewrite SetPassword_long in Hset by done.
      injection Hset as <- <-. eauto.
Qed.

(** X1.  [SetPassword] succeeds exactly on the passwords of 6 to 72 bytes.
    A failure leaves the world as it is (no random bytes are drawn) and its
    error tells why: the password is empty, shorter than 6 bytes, or longer
    than 72 bytes (the error of bcrypt).  A success changes only the
    password of the user, to a hash of 60 bytes, and draws one salt. *)
Theorem SetPassword_accepts (u : user.User) (password : string) (w : World) :
  ((∃ u' w', user.SetPassword u password w = (Ok u', w'))
   ↔ (6 ≤ String.length password ≤ 72)%nat)
  ∧ (∀ e w', user.SetPassword u password w = (Err e, w') →
       w' = w
       ∧ (e = New "password cannot be empty" ∧ password = ""
          ∨ e = New "password must be at least 6 characters long"
            ∧ (0 < String.length password < 6)%nat
          ∨ e = Bcrypt ErrPasswordTooLong ∧ (72 < String.length password)%nat))
  ∧ (∀ u' w', user.SetPassword u password w = (Ok u', w') →
       alike u u'
       ∧ String.length (user.Password u') = 60%nat
       ∧ w' = mkWorld (clock w) (ticks w) (entropy w) (S (draws w)) (users w)).
Proof.
  split_and!.
  - split.
    + intros (u' & w' & Hset). by apply SetPassword_inv in Hset.
    + intros Hlen. destruct (SetPassword_valid u password w Hlen) as (h & _ & Hset).
      eauto.
  - intros e w' Hset. by apply SetPassword_errors in Hset.
  - intros u' w' Hset.
    pose proof (SetPassword_inv _ _ _ _ _ Hset) as Hlen.
    destruct (SetPassword_valid u password w Hlen) as (h & _ & Hok).
    rewrite Hok in Hset. injection Hset as <- <-.
    split_and!; [done| |done].
    exact (Hash_length h (next_salt w) _ (next_salt_length w)).
Qed.

End Passwords.

Section EntityRules.
Context `{bcrypt.Blowfish}.

Lemma length_nonempty s : (0 < String.length s)%nat → s ≠ "".
Proof. intros Hlen ->. simpl in Hlen. lia. Qed.

Lemma NewUser_hashed email password name role w :
  (6 ≤ String.length password ≤ 72)%nat →
  ∃ hashedPassword,
    String.length hashedPassword = 60%nat
    ∧ user.NewUser email password name role w =
      let user := user.mkUser "" email hashedPassword name role true
                    (clock w (ticks w)) (clock w (S (ticks w))) in
      (match user.Validate user with
       | Some err => Err err
       | None => Ok user
       end,
       mkWorld (clock w) (S (S (ticks w))) (entropy w) (S (draws w)) (users w)).
Proof.
  intros Hlen. unfold user.NewUser. run.
  set (w0 := mkWorld (clock w) (S (S (ticks w))) (entropy w) (draws w) (users w)).
  set (u0 := user.mkUser "" email "" name role true _ _).
  destruct (SetPassword_valid u0 password w0 Hlen) as (h & _ & ->).
  exists (bcrypt.Hash (bcrypt.mkHashed h (next_salt w0) bcrypt.DefaultCost
                         bcrypt.majorVersion bcrypt.minorVersion)).
  split; [exact (Hash_length h (next_salt w0) _ (next_salt_length w0))|].
  simpl. by destruct (user.Validate _).
Qed.

(** X2.  [NewUser] succeeds exactly when the email and the name are not
    empty, the role is one of the three roles and the password has 6 to 72
    bytes.  The user it returns has no id, the email, name and role given,
    is active, is created and updated at the two readings of the clock,
    holds a hash of 60 bytes and passes [Validate].  The password is checked
    first: a bad password gives the error of [SetPassword], whatever the
    other fields are, after the clock was read twice. *)
Theorem NewUser_accepts (email password name : string) (role : user.Role)
  (w : World) :
  ((∃ u w', user.NewUser email password name role w = (Ok u, w'))
   ↔ email ≠ "" ∧ name ≠ "" ∧ user.isValidRole role = true
     ∧ (6 ≤ String.length password ≤ 72)%nat)
  ∧ (∀ u w', user.NewUser email password name role w = (Ok u, w') →
       u = user.mkUser "" email (user.Password u) name role true
             (clock w (ticks w)) (clock w (S (ticks w)))
       ∧ String.length (user.Password u) = 60%nat
       ∧ user.Validate u = None
       ∧ w' = mkWorld (clock w) (S (S (ticks w))) (entropy w) (S (draws w)) (users w))
  ∧ ((String.length password < 6)%nat ∨ (72 < String.length password)%nat →
     ∃ e, user.NewUser email password name role w =
          (Err e, mkWorld (clock w) (S (S (ticks w))) (entropy w) (draws w) (users w))
          ∧ ∀ u, fst (user.SetPassword u password w) = Err e).
Proof.
  split_and!.
  - split.
    + intros (u & w' & Hnew).
      assert (6 ≤ String.length password ≤ 72)%nat as Hlen.
      { revert Hnew. unfold user.NewUser. run.
        destruct (user.SetPassword _ _ _) as [[u'|e] w1] eqn:Hset; [|done].
        intros _. by apply SetPassword_inv in Hset. }
      destruct (NewUser_hashed email password name role w Hlen) as (h & Hh & Heq).
      rewrite Heq in Hnew. cbv zeta in Hnew. unfold user.Validate in Hnew.
      simpl in Hnew.
      repeat case_bool_decide; try done.
      destruct (user.isValidRole role); done.
    + intros (Hemail & Hname & Hrole & Hlen).
      destruct (NewUser_hashed email password name role w Hlen) as (h & Hh & ->).
      cbv zeta. unfold user.Validate. simpl.
      rewrite !bool_decide_eq_false_2, Hrole; eauto.
      apply length_nonempty. lia.
  - intros u w' Hnew.
    assert (6 ≤ String.length password ≤ 72)%nat as Hlen.
    { revert Hnew. unfold user.NewUser. run.
      destruct (user.SetPassword _ _ _) as [[u'|e] w1] eqn:Hset; [|done].
      intros _. by apply SetPassword_inv in Hset. }
    destruct (NewUser_hashed email password name role w Hlen) as (h & Hh & Heq).
    rewrite Heq in Hnew. cbv zeta in Hnew.
    destruct (user.Validate _) eqn:Hvalid; [done|].
    injection Hnew as <- <-. done.
  - intros Hlen. unfold user.NewUser. run.
    set (w0 := mkWorld (clock w) (S (S (ticks w))) (entropy w) (draws w) (users w)).
    destruct Hlen as [Hshort|Hlong].
    + eexists. rewrite SetPassword_short by done. split; [done|].
      intros u. by rewrite SetPassword_short.
    + eexists. rewrite SetPassword_long by done. split; [done|].
      intros u. by rewrite SetPassword_long.
Qed.

Lemma isValidRole_elem role :
  user.isValidRole role = true ↔ role ∈ ["admin"; "user"; "guest"].
Proof.
  unfold user.isValidRole, user.RoleAdmin, user.RoleUser, user.RoleGuest.
  rewrite !orb_true_iff, !bool_decide_eq_true.
  rewrite !elem_of_cons, elem_of_nil. tauto.
Qed.

Lemma Validate_None u :
  user.Validate u = None ↔
  user.Email u ≠ "" ∧ user.Name u ≠ "" ∧ user.Password u ≠ ""
  ∧ user.isValidRole (user.Role_ u) = true.
Proof.
  unfold user.Validate.
  repeat case_bool_decide; destruct (user.isValidRole _); simpl; split;
    try done; try tauto; intros (? & ? & ? & ?); done.
Qed.

(** X3.  The methods that change a user keep it valid: on a user that
    passes [Validate], a successful [UpdateName], [UpdateEmail] or
    [UpdateRole] returns a user that passes it and differs in that field and
    the update time only; so do [SetPassword], [Activate] and [Deactivate],
    which set the active flag.  An empty name, an empty email and a role
    outside the three are refused without reading the clock. *)
Theorem mutators_keep_valid (u : user.User) (w : World) :
  valid u →
  (∀ name u' w', user.UpdateName u name w = (Ok u', w') →
     valid u' ∧ u' = user.with_UpdatedAt (user.with_Name u name) (clock w (ticks w)))
  ∧ (∀ email u' w', user.UpdateEmail u email w = (Ok u', w') →
       valid u'
       ∧ u' = user.with_UpdatedAt (user.with_Email u email) (clock w (ticks w)))
  ∧ (∀ role u' w', user.UpdateRole u role w = (Ok u', w') →
       valid u'
       ∧ u' = user.with_UpdatedAt (user.with_Role u role) (clock w (ticks w)))
  ∧ (∀ password u' w', user.SetPassword u password w = (Ok u', w') → valid u')
  ∧ valid (user.Activate u w).1 ∧ user.IsActive (user.Activate u w).1 = true
  ∧ valid (user.Deactivate u w).1 ∧ user.IsActive (user.Deactivate u w).1 = false
  ∧ user.UpdateName u "" w = (Err (New "name cannot be empty"), w)
  ∧ user.UpdateEmail u "" w = (Err (New "email cannot be empty"), w)
  ∧ (∀ role, user.isValidRole role = false →
       user.UpdateRole u role w = (Err (New "invalid role"), w)).
Proof.
  unfold valid. intros Hvalid.
  apply Validate_None in Hvalid as (Hemail & Hname & Hpw & Hrole).
  split_and!.
  - intros name u' w'. unfold user.UpdateName.
    case_bool_decide; [done|]. run. intros [= <- <-].
    split; [|done]. by apply Validate_None.
  - intros email u' w'. unfold user.UpdateEmail.
    case_bool_decide; [done|]. run. intros [= <- <-].
    split; [|done]. by apply Validate_None.
  - intros role u' w'. unfold user.UpdateRole.
    destruct (user.isValidRole role) eqn:Hr; [|done]. run. intros [= <- <-].
    split; [|done]. by apply Validate_None.
  - intros password u' w' Hset.
    pose proof (SetPassword_inv _ _ _ _ _ Hset) as Hlen.
    destruct (SetPassword_valid u password w Hlen) as (h & _ & Hok).
    rewrite Hok in Hset. injection Hset as <- <-.
    apply Validate_None. simpl. split_and!; done.
  - by apply Validate_None.
  - done.
  - by apply Validate_None.
  - done.
  - done.
  - done.
  - intros role Hr. unfold user.UpdateRole. by rewrite Hr.
Qed.

End EntityRules.

(** ** Roles and statuses *)

Lemma validateRole_isValidRole role :
  handlers.validateRole role =
  if user.isValidRole role then Ok role else Err ErrInvalidRole.
Proof. done. Qed.

(** X4.  The four checks of a role agree: [isValidRole] of the entity,
    [validateRole] of the handlers, [validateRole] of the validator and the
    constraint check_valid_role of the table accept exactly admin, user and
    guest; the handlers' check returns the role unchanged or
    [ErrInvalidRole]. *)
Theorem role_checks_agree (role : string) :
  (user.isValidRole role = true ↔ role ∈ ["admin"; "user"; "guest"])
  ∧ validator.validateRole role = user.isValidRole role
  ∧ handlers.validateRole role =
    (if user.isValidRole role then Ok role else Err ErrInvalidRole)
  ∧ (∀ r, row.Role r = role → db.check_row r = None → user.isValidRole role = true)
  ∧ (∀ r, row.Role r = role → user.isValidRole role = false →
       db.check_row r = Some (Driver "violates check constraint check_valid_role"))
  ∧ (∀ u, user.Role_ u = role → user.Validate u = None →
       user.isValidRole role = true).
Proof.
  split_and!.
  - apply isValidRole_elem.
  - unfold validator.validateRole, user.isValidRole, user.RoleAdmin, user.RoleUser,
      user.RoleGuest. simpl. by rewrite orb_false_r, orb_assoc.
  - done.
  - intros r <-. unfold db.check_row. case_bool_decide as Hin; [|done].
    intros _. by apply isValidRole_elem.
  - intros r <- Hno. unfold db.check_row.
    rewrite bool_decide_eq_false_2; [done|].
    rewrite <- isValidRole_elem. congruence.
  - intros u <- Hv. by apply Validate_None in Hv as (_ & _ & _ & Hr).
Qed.

Lemma Is_Errorf text err target :
  Is (Errorf text err) target = Is err target.
Proof. by destruct target. Qed.

Lemma mapErrorToHTTPStatus_Errorf text err :
  handlers.mapErrorToHTTPStatus (Errorf text err) = handlers.mapErrorToHTTPStatus err.
Proof. unfold handlers.mapErrorToHTTPStatus. by rewrite !Is_Errorf. Qed.

(** X5.  [mapErrorToHTTPStatus] looks through [%w] wrapping: an error
    wrapped any number of times has the status and message of the error
    inside.  The status is one of 400, 404, 409, 401 and 500; each sentinel
    of the domain has its own, and an error made at a call site or by the
    database driver has 500. *)
Theorem status_survives_wrapping (texts : list string) (err : error) :
  handlers.mapErrorToHTTPStatus (wraps texts err) = handlers.mapErrorToHTTPStatus err
  ∧ fst (handlers.mapErrorToHTTPStatus err) ∈ [400; 404; 409; 401; 500]%Z
  ∧ handlers.mapErrorToHTTPStatus (wraps texts ErrInvalidRole)
    = (400%Z, "Invalid role")
  ∧ handlers.mapErrorToHTTPStatus (wraps texts ErrUserNotFound)
    = (404%Z, "User not found")
  ∧ handlers.mapErrorToHTTPStatus (wraps texts ErrUserAlreadyExists)
    = (409%Z, "User already exists")
  ∧ handlers.mapErrorToHTTPStatus (wraps texts ErrInvalidPassword)
    = (401%Z, "Invalid password")
  ∧ handlers.mapErrorToHTTPStatus (wraps texts ErrUserDeactivated)
    = (401%Z, "User account is deactivated")
  ∧ (∀ text, handlers.mapErrorToHTTPStatus (wraps texts (New text))
             = (500%Z, "Internal server error"))
  ∧ (∀ text, handlers.mapErrorToHTTPStatus (wraps texts (Driver text))
             = (500%Z, "Internal server error")).
Proof.
  assert (Hwrap : ∀ e,
    handlers.mapErrorToHTTPStatus (wraps texts e) = handlers.mapErrorToHTTPStatus e).
  { intros e. induction texts as [|t texts IH]; [done|].
    simpl. by rewrite mapErrorToHTTPStatus_Errorf. }
  split_and!; try (rewrite Hwrap; reflexivity); try (intros; rewrite Hwrap; reflexivity).
  unfold handlers.mapErrorToHTTPStatus.
  repeat match goal with |- context [if ?b then _ else _] => destruct b end;
    simpl; set_solver.
Qed.

(** ** The users table *)

Lemma preserves_ret {A} P (a : A) : preserves P (mret a).
Proof. by intros w. Qed.

Lemma preserves_bind {A B} P (m : M A) (f : A → M B) :
  preserves P m → (∀ a, preserves P (f a)) → preserves P (m ≫= f).
Proof.
  intros Hm Hf w HP. unfold mbind, M_bind.
  specialize (Hm w HP). destruct (m w) as [a w1]. by apply Hf.
Qed.

Lemma preserves_Now P : preserves P Now.
Proof. by intros w. Qed.

Lemma preserves_rand_Read P n : preserves P (rand_Read n).
Proof. by intros w. Qed.

Lemma preserves_get_users P : preserves P get_users.
Proof. by intros w. Qed.

Create HintDb frames.

(** Splits a run into its steps, down to the calls of functions that are
    known to keep the property. *)
Ltac frame :=
  repeat first
    [ solve [auto with frames]
    | apply preserves_ret
    | apply preserves_Now
    | apply preserves_rand_Read
    | apply preserves_get_users
    | apply preserves_bind; [|intros ?]
    | match goal with
      | |- preserves _ (match ?x with _ => _ end) => destruct x
      end ].

Section Constraints.
Context `{db.Engine} `{uuid.Format}.

Lemma store_row_ID r r' : db.store_row r = Ok r' → row.ID r' = row.ID r.
Proof.
  unfold db.store_row.
  destruct (db.varchar 255 (row.Email r)); [|done].
  destruct (db.varchar 255 (row.Password r)); [|done].
  destruct (db.varchar 255 (row.Name r)); [|done].
  destruct (db.varchar 50 (row.Role r)); [|done].
  by intros [= <-].
Qed.

Lemma check_unique_None others r :
  db.check_unique others r = None →
  Forall (λ o, row.ID o ≠ row.ID r ∧ row.Email o ≠ row.Email r) others.
Proof.
  unfold db.check_unique.
  destruct (existsb (λ o, bool_decide (row.ID o = _)) others) eqn:Hid; [done|].
  destruct (existsb (λ o, bool_decide (row.Email o = _)) others) eqn:Hmail; [done|].
  intros _. apply Forall_forall. intros o Ho.
  apply not_true_iff_false in Hid, Hmail.
  split; intros Heq; [apply Hid|apply Hmail]; apply existsb_exists;
    exists o; (split; [by apply list_elem_of_In|by apply bool_decide_eq_true]).
Qed.

Lemma consistent_snoc table r :
  consistent table → db.check_row r = None → db.check_unique table r = None →
  consistent (table ++ [r]).
Proof.
  intros (Hid & Hmail & Hrows) Hrow Huniq.
  apply check_unique_None in Huniq. rewrite Forall_forall in Huniq.
  unfold consistent. rewrite !map_app. simpl. split_and!.
  - apply NoDup_app. split_and!; [done| |apply NoDup_singleton].
    intros x Hx Hr. apply list_elem_of_singleton in Hr as ->.
    apply (list_elem_of_fmap row.ID) in Hx as (o & Ho & Hin).
    by destruct (Huniq o Hin).
  - apply NoDup_app. split_and!; [done| |apply NoDup_singleton].
    intros x Hx Hr. apply list_elem_of_singleton in Hr as ->.
    apply (list_elem_of_fmap row.Email) in Hx as (o & Ho & Hin).
    by destruct (Huniq o Hin).
  - apply Forall_app. split; [done|]. by apply Forall_singleton.
Qed.

Lemma consistent_filter (P : row.User → Prop) `{∀ r, Decision (P r)} table :
  consistent table → consistent (filter P table).
Proof.
  intros (Hid & Hmail & Hrows). unfold consistent. split_and!.
  - eapply sublist_NoDup; [exact Hid|]. apply fmap_sublist, sublist_filter.
  - eapply sublist_NoDup; [exact Hmail|]. apply fmap_sublist, sublist_filter.
  - apply Forall_forall. intros r Hr. apply list_elem_of_filter in Hr as [_ Hr].
    rewrite Forall_forall in Hrows. by apply Hrows.
Qed.

Lemma consistent_replace table id r :
  consistent table → row.ID r = id → db.check_row r = None →
  db.check_unique (filter (λ o, row.ID o ≠ id) table) r = None →
  consistent (map (λ o, if bool_decide (row.ID o = id) then r else o) table).
Proof.
  intros (Hid & Hmail & Hrows) Hr Hrow Huniq.
  apply check_unique_None in Huniq. rewrite Forall_forall in Huniq.
  assert (Hother : ∀ o, o ∈ table → row.ID o ≠ id → row.Email o ≠ row.Email r).
  { intros o Ho Hne. apply Huniq, list_elem_of_filter. done. }
  clear Huniq. unfold consistent.
  set (f := λ o, if bool_decide (row.ID o = id) then r else o).
  assert (Hids : map row.ID (map f table) = map row.ID table).
  { rewrite map_map. apply map_ext. intros o. unfold f.
    case_bool_decide; congruence. }
  split_and!.
  - by rewrite Hids.
  - induction table as [|o table IH]; [constructor|].
    simpl in *. apply NoDup_cons in Hid as [Hido Hid].
    apply NoDup_cons in Hmail as [Hmailo Hmail].
    apply Forall_cons in Hrows as [_ Hrows].
    apply NoDup_cons. split.
    + intros Hin. apply (list_elem_of_fmap row.Email) in Hin as (x & Hx & Hin).
      apply (list_elem_of_fmap f) in Hin as (y & -> & Hy).
      assert (row.ID y ≠ row.ID o) as Hyo.
      { intros Heq. apply Hido. rewrite <- Heq.
        apply (list_elem_of_fmap row.ID). eauto. }
      unfold f in Hx. repeat case_bool_decide.
      * congruence.
      * apply (Hother y); [by right|done|done].
      * apply (Hother o); [by left|done|done].
      * apply Hmailo. rewrite Hx. apply (list_elem_of_fmap row.Email). eauto.
    + apply IH; try done.
      * intros x Hx. apply Hother. by right.
      * rewrite map_map. apply map_ext. intros x. unfold f.
        case_bool_decide; congruence.
  - apply Forall_forall. intros x Hx.
    apply (list_elem_of_fmap f) in Hx as (y & -> & Hy). unfold f.
    case_bool_decide; [done|]. rewrite Forall_forall in Hrows. by apply Hrows.
Qed.

Lemma db_CreateUser_consistent arg : preserves consistent (db.CreateUser arg).
Proof.
  intros w Hw.
  unfold db.CreateUser, db.gen_random_uuid, rand_Read, get_users, put_users. run.
  destruct (db.store_row _) as [r|e]; [|done].
  destruct (db.check_row r) eqn:Hrow; [done|].
  destruct (db.check_unique (users w) r) eqn:Huniq; [done|].
  simpl. by apply consistent_snoc.
Qed.

Lemma db_UpdateUser_consistent arg : preserves consistent (db.UpdateUser arg).
Proof.
  intros w Hw. unfold db.UpdateUser, get_users, put_users. run.
  destruct (filter (λ r, row.ID r = db.u_ID arg) (users w)) as [|old rest] eqn:Hold;
    [done|].
  assert (row.ID old = db.u_ID arg) as Hid.
  { assert (old ∈ filter (λ r, row.ID r = db.u_ID arg) (users w)) as Hin
      by (rewrite Hold; by left).
    by apply list_elem_of_filter in Hin as [? _]. }
  destruct (db.store_row _) as [new|e] eqn:Hstore; [|done].
  apply store_row_ID in Hstore. simpl in Hstore.
  destruct (db.check_row _) eqn:Hrow; [done|].
  destruct (db.check_unique _ _) eqn:Huniq; [done|].
  simpl. apply consistent_replace; try done. simpl. congruence.
Qed.

Lemma db_DeleteUser_consistent id : preserves consistent (db.DeleteUser id).
Proof.
  intros w Hw. unfold db.DeleteUser, get_users, put_users. run.
  by apply consistent_filter.
Qed.

Lemma db_reads_preserve P :
  (∀ id, preserves P (db.GetUserByID id))
  ∧ (∀ email, preserves P (db.GetUserByEmail email))
  ∧ (∀ arg, preserves P (db.ListUsers arg))
  ∧ preserves P db.CountUsers
  ∧ (∀ email, preserves P (db.ExistsByEmail email))
  ∧ (∀ id, preserves P (db.ExistsByID id)).
Proof.
  unfold preserves.
  split_and!; intros;
    unfold db.GetUserByID, db.GetUserByEmail, db.ListUsers, db.CountUsers,
      db.ExistsByEmail, db.ExistsByID, get_users; run; try done.
  destruct (_ <? _)%Z; [done|]. by destruct (_ <? _)%Z.
Qed.

End Constraints.

Section Frames.
Context `{bcrypt.Blowfish} `{db.Engine} `{uuid.Format}.
Context (P : list row.User → Prop).

Lemma SetPassword_preserves u password : preserves P (user.SetPassword u password).
Proof.
  unfold user.SetPassword, bcrypt.GenerateFromPassword, bcrypt.newFromPassword.
  frame.
Qed.

Lemma NewUser_preserves email password name role :
  preserves P (user.NewUser email password name role).
Proof. unfold user.NewUser. frame. apply SetPassword_preserves. Qed.

Lemma UpdateName_preserves u name : preserves P (user.UpdateName u name).
Proof. unfold user.UpdateName. frame. Qed.

Lemma UpdateEmail_preserves u email : preserves P (user.UpdateEmail u email).
Proof. unfold user.UpdateEmail. frame. Qed.

Lemma UpdateRole_preserves u role : preserves P (user.UpdateRole u role).
Proof. unfold user.UpdateRole. frame. Qed.

Lemma Postgres_GetByID_preserves r id :
  preserves P (repository.Postgres_GetByID r id).
Proof.
  unfold repository.Postgres_GetByID. frame.
Qed.

Lemma Postgres_GetByEmail_preserves r email :
  preserves P (repository.Postgres_GetByEmail r email).
Proof.
  unfold repository.Postgres_GetByEmail. frame.
Qed.

Lemma Postgres_List_preserves r offset limit :
  preserves P (repository.Postgres_List r offset limit).
Proof. unfold repository.Postgres_List. frame. Qed.

Lemma Postgres_Count_preserves r : preserves P (repository.Postgres_Count r).
Proof. unfold repository.Postgres_Count. frame. Qed.

Lemma Postgres_ExistsByEmail_preserves r email :
  preserves P (repository.Postgres_ExistsByEmail r email).
Proof.
  unfold repository.Postgres_ExistsByEmail. frame.
Qed.

Lemma Postgres_ExistsByID_preserves r id :
  preserves P (repository.Postgres_ExistsByID r id).
Proof.
  unfold repository.Postgres_ExistsByID. frame.
Qed.

Hypothesis CreateUser_P : ∀ arg, preserves P (db.CreateUser arg).
Hypothesis UpdateUser_P : ∀ arg, preserves P (db.UpdateUser arg).
Hypothesis DeleteUser_P : ∀ id, preserves P (db.DeleteUser id).

Lemma Postgres_Create_preserves r u : preserves P (repository.Postgres_Create r u).
Proof. unfold repository.Postgres_Create, uuid.New. frame. Qed.

Lemma Postgres_Update_preserves r u : preserves P (repository.Postgres_Update r u).
Proof. unfold repository.Postgres_Update. frame. Qed.

Lemma Postgres_Delete_preserves r id : preserves P (repository.Postgres_Delete r id).
Proof. unfold repository.Postgres_Delete. frame. Qed.

#[local] Hint Resolve SetPassword_preserves NewUser_preserves UpdateName_preserves
  UpdateEmail_preserves UpdateRole_preserves Postgres_GetByID_preserves
  Postgres_GetByEmail_preserves Postgres_List_preserves Postgres_Count_preserves
  Postgres_ExistsByEmail_preserves Postgres_ExistsByID_preserves
  Postgres_Create_preserves Postgres_Update_preserves Postgres_Delete_preserves
  : frames.

Context {J : Type} `{auth.JWTService J}.
Hypothesis GenerateToken_P :
  ∀ (j : J) userID email role, preserves P (auth.GenerateToken j userID email role).

Lemma usecase_CreateUser_preserves (uc : usecase.UserUseCase repository.PostgresUserRepository J) input :
  preserves P (usecase.CreateUser uc input).
Proof. unfold usecase.CreateUser. simpl. frame. Qed.

Lemma usecase_GetUserByID_preserves (uc : usecase.UserUseCase repository.PostgresUserRepository J) id :
  preserves P (usecase.GetUserByID uc id).
Proof. unfold usecase.GetUserByID. simpl. frame. Qed.

Lemma usecase_GetUserByEmail_preserves (uc : usecase.UserUseCase repository.PostgresUserRepository J) email :
  preserves P (usecase.GetUserByEmail uc email).
Proof. unfold usecase.GetUserByEmail. simpl. frame. Qed.

Lemma email_taken_preserves (uc : usecase.UserUseCase repository.PostgresUserRepository J) dbUser email :
  preserves P (usecase.email_taken uc dbUser email).
Proof. unfold usecase.email_taken. simpl. frame. Qed.

#[local] Hint Resolve email_taken_preserves : frames.

Lemma usecase_UpdateUser_preserves (uc : usecase.UserUseCase repository.PostgresUserRepository J) input :
  preserves P (usecase.UpdateUser uc input).
Proof. unfold usecase.UpdateUser. simpl. frame. Qed.

Lemma usecase_DeleteUser_preserves (uc : usecase.UserUseCase repository.PostgresUserRepository J) id :
  preserves P (usecase.DeleteUser uc id).
Proof. unfold usecase.DeleteUser. simpl. frame. Qed.

Lemma usecase_ListUsers_preserves (uc : usecase.UserUseCase repository.PostgresUserRepository J) input :
  preserves P (usecase.ListUsers uc input).
Proof. unfold usecase.ListUsers. simpl. frame. Qed.

Lemma usecase_AuthenticateUser_preserves (uc : usecase.UserUseCase repository.PostgresUserRepository J) input :
  preserves P (usecase.AuthenticateUser uc input).
Proof. unfold usecase.AuthenticateUser. simpl. frame. Qed.

#[local] Hint Resolve usecase_CreateUser_preserves usecase_GetUserByID_preserves
  usecase_GetUserByEmail_preserves usecase_UpdateUser_preserves
  usecase_DeleteUser_preserves usecase_ListUsers_preserves
  usecase_AuthenticateUser_preserves : frames.

Lemma handlers_preserve (h : handlers.UserHandler repository.PostgresUserRepository J)
  (c : gin.Context) :
  (∀ bound, preserves P (handlers.CreateUser h bound c))
  ∧ (∀ bound, preserves P (handlers.UpdateUser h bound c))
  ∧ preserves P (handlers.DeleteUser h c).
Proof.
  split_and!; [intros bound|intros bound|];
    unfold handlers.CreateUser, handlers.UpdateUser, handlers.DeleteUser; frame.
Qed.

Lemma reading_handlers_preserve
  (h : handlers.UserHandler repository.PostgresUserRepository J) (c : gin.Context) :
  preserves P (handlers.GetUserByID h c)
  ∧ preserves P (handlers.GetUserByEmail h c)
  ∧ preserves P (handlers.ListUsers h c)
  ∧ (∀ bound, preserves P (handlers.Login h bound c)).
Proof.
  split_and!; [| | |intros bound];
    unfold handlers.GetUserByID, handlers.GetUserByEmail, handlers.ListUsers,
      handlers.Login; frame.
Qed.

End Frames.

Section TokenFrames.
Context `{jwt.Primitives auth.Claims}.

Lemma GenerateToken_preserves P (j : auth.jwtService) userID email role :
  preserves P (auth.GenerateToken j userID email role).
Proof. simpl. unfold auth.jwtService_GenerateToken. frame. Qed.

Lemma ValidateToken_preserves P (j : auth.jwtService) tokenString :
  preserves P (auth.ValidateToken j tokenString).
Proof.
  simpl. unfold auth.jwtService_ValidateToken, jwt.ParseWithClaims, jwt.Validate.
  frame.
Qed.

End TokenFrames.

Section Invariant.
Context `{bcrypt.Blowfish} `{db.Engine} `{uuid.Format} `{jwt.Primitives auth.Claims}.

(** X6.  Every handler keeps the users table consistent: run on a table
    whose ids are unique, whose emails are unique and whose rows satisfy the
    check constraints of the migration, with any request, it leaves such a
    table, whatever it answers. *)
Theorem table_stays_consistent
  (h : handlers.UserHandler repository.PostgresUserRepository auth.jwtService)
  (c : gin.Context) :
  (∀ bound, preserves consistent (handlers.CreateUser h bound c))
  ∧ preserves consistent (handlers.GetUserByID h c)
  ∧ preserves consistent (handlers.GetUserByEmail h c)
  ∧ (∀ bound, preserves consistent (handlers.UpdateUser h bound c))
  ∧ preserves consistent (handlers.DeleteUser h c)
  ∧ preserves consistent (handlers.ListUsers h c)
  ∧ (∀ bound, preserves consistent (handlers.Login h bound c)).
Proof.
  destruct (handlers_preserve consistent db_CreateUser_consistent
              db_UpdateUser_consistent db_DeleteUser_consistent h c)
    as (Hcreate & Hupdate & Hdelete).
  destruct (reading_handlers_preserve consistent
              (GenerateToken_preserves consistent) h c)
    as (Hid & Hemail & Hlist & Hlogin).
  done.
Qed.

(** X7.  The handlers that read, [GetUserByID], [GetUserByEmail] and
    [ListUsers], and the login, [Login] and [AuthenticateUser], leave the
    users table as it is, whatever the request and the outcome. *)
Theorem reads_leave_the_table
  (h : handlers.UserHandler repository.PostgresUserRepository auth.jwtService)
  (c : gin.Context) (w : World) :
  users (handlers.GetUserByID h c w).2 = users w
  ∧ users (handlers.GetUserByEmail h c w).2 = users w
  ∧ users (handlers.ListUsers h c w).2 = users w
  ∧ (∀ bound, users (handlers.Login h bound c w).2 = users w)
  ∧ (∀ input, users (usecase.AuthenticateUser (handlers.userUseCase h) input w).2
              = users w).
Proof.
  destruct (reading_handlers_preserve (λ t, t = users w)
              (GenerateToken_preserves _) h c) as (Hid & Hemail & Hlist & Hlogin).
  split_and!; [by apply Hid|by apply Hemail|by apply Hlist|
               intros bound; by apply Hlogin|].
  intros input.
  by apply (usecase_AuthenticateUser_preserves (λ t, t = users w)
              (GenerateToken_preserves _)).
Qed.

End Invariant.

(** ** Creating, finding and deleting users *)

Section Queries.
Context `{db.Engine} `{uuid.Format}.

Lemma existsb_email table email :
  existsb (λ r, bool_decide (row.Email r = email)) table = true
  ↔ registered_email table email.
Proof.
  rewrite existsb_exists. unfold registered_email.
  split; intros (r & Hin & Hr); exists r.
  - split; [by apply list_elem_of_In|by apply bool_decide_eq_true_1 in Hr].
  - split; [by apply list_elem_of_In|by apply bool_decide_eq_true_2].
Qed.

Lemma Postgres_ExistsByEmail_run repo email w :
  repository.Postgres_ExistsByEmail repo email w =
  (Ok (existsb (λ r, bool_decide (row.Email r = email)) (users w)), w).
Proof. done. Qed.

Lemma Postgres_GetByID_run repo idStr id w :
  uuid.Parse idStr = Ok id →
  repository.Postgres_GetByID repo idStr w =
  (match filter (λ r, row.ID r = id) (users w) with
   | [] => Err ErrUserNotFound
   | r :: _ => Ok (repository.mapDBUserToDomainUser r)
   end, w).
Proof.
  intros Hparse. unfold repository.Postgres_GetByID. rewrite Hparse.
  unfold db.GetUserByID, get_users. run.
  by destruct (filter _ (users w)).
Qed.

Lemma Postgres_GetByEmail_run repo email w :
  repository.Postgres_GetByEmail repo email w =
  (match filter (λ r, row.Email r = email) (users w) with
   | [] => Err ErrUserNotFound
   | r :: _ => Ok (repository.mapDBUserToDomainUser r)
   end, w).
Proof.
  unfold repository.Postgres_GetByEmail, db.GetUserByEmail, get_users. run.
  by destruct (filter _ (users w)).
Qed.

Lemma Postgres_Delete_run repo idStr id w :
  uuid.Parse idStr = Ok id →
  repository.Postgres_Delete repo idStr w =
  (None, with_users w (filter (λ r, row.ID r ≠ id) (users w))).
Proof.
  intros Hparse. unfold repository.Postgres_Delete. by rewrite Hparse.
Qed.

Lemma filter_absent (f : row.User → string) x table :
  x ∉ map f table → filter (λ r, f r = x) table = [].
Proof.
  intros Hno. induction table as [|r table IH]; [done|].
  simpl in Hno. apply not_elem_of_cons in Hno as [Hne Hno].
  rewrite filter_cons_False by congruence. by apply IH.
Qed.

Lemma filter_others (f : row.User → string) x table :
  x ∉ map f table → filter (λ r, f r ≠ x) table = table.
Proof.
  intros Hno. induction table as [|r table IH]; [done|].
  simpl in Hno. apply not_elem_of_cons in Hno as [Hne Hno].
  rewrite filter_cons_True by congruence. f_equal. by apply IH.
Qed.

Lemma filter_last (f : row.User → string) table r :
  Forall (λ o, f o ≠ f r) table →
  filter (λ o, f o = f r) (table ++ [r])%list = [r].
Proof.
  induction 1 as [|o table Ho _ IH]; simpl.
  - by rewrite filter_cons_True.
  - by rewrite filter_cons_False.
Qed.

Lemma filter_gone (f : row.User → string) x table :
  x ∉ map f (filter (λ r, f r ≠ x) table).
Proof.
  intros Hin. apply (list_elem_of_fmap f) in Hin as (r & -> & Hr).
  by apply list_elem_of_filter in Hr as [Hne _].
Qed.

(** A successful [CreateUser] query appends one row that passes the
    checks of the table. *)
Lemma db_CreateUser_fresh arg w r w' :
  db.CreateUser arg w = (Ok r, w') →
  users w' = (users w ++ [r])%list
  ∧ db.check_row r = None ∧ db.check_unique (users w) r = None.
Proof.
  unfold db.CreateUser, db.gen_random_uuid, rand_Read, get_users, put_users. run.
  destruct (db.store_row _) as [r0|e]; [|done].
  destruct (db.check_row r0) eqn:Hrow; [done|].
  destruct (db.check_unique (users w) r0) eqn:Huniq; [done|].
  simpl. by intros [= <- <-].
Qed.

Lemma Postgres_Create_fresh repo u w u' w' :
  repository.Postgres_Create repo u w = (Ok u', w') →
  ∃ r, users w' = (users w ++ [r])%list
       ∧ u' = repository.mapDBUserToDomainUser r
       ∧ db.check_row r = None ∧ db.check_unique (users w) r = None.
Proof.
  rewrite Postgres_Create_prepared.
  destruct (prepared_keeps u w) as (Husers & _).
  destruct (prepared u w) as [u1 w1]. simpl in *.
  destruct (db.CreateUser _ w1) as [[r|err] w2] eqn:Hdb; [|done].
  intros [= <- <-]. apply db_CreateUser_fresh in Hdb as (Hw & Hrow & Huniq).
  exists r. by rewrite <- Husers.
Qed.

End Queries.

Lemma plain_Is err target : plain err = true → Is err target = false.
Proof. by destruct err, target. Qed.

Lemma plain_status text err :
  plain err = true →
  handlers.mapErrorToHTTPStatus (Errorf text err)
  = (http.StatusInternalServerError, "Internal server error").
Proof.
  intros Hplain. unfold handlers.mapErrorToHTTPStatus.
  by rewrite !Is_Errorf, !plain_Is.
Qed.

Section Creation.
Context `{bcrypt.Blowfish} `{db.Engine} `{uuid.Format} {J : Type} `{auth.JWTService J}.

Lemma NewUser_errors email password name role w e w' :
  user.NewUser email password name role w = (Err e, w') → plain e = true.
Proof.
  unfold user.NewUser. run.
  destruct (user.SetPassword _ _ _) as [[u|e'] w1] eqn:Hset.
  - unfold user.Validate.
    repeat case_bool_decide; try (by intros [= <- _]).
    destruct (user.isValidRole _); [done|]. by intros [= <- _].
  - intros [= <- _]. apply SetPassword_errors in Hset as (_ & [[-> _]|[[-> _]|[-> _]]]);
      done.
Qed.

Lemma db_CreateUser_errors arg w e w' :
  db.CreateUser arg w = (Err e, w') → plain e = true.
Proof.
  unfold db.CreateUser, db.gen_random_uuid, rand_Read, get_users, put_users. run.
  destruct (db.store_row _) as [r|e0] eqn:Hstore.
  - destruct (db.check_row r) as [e1|] eqn:Hrow.
    + intros [= <- _]. revert Hrow. unfold db.check_row.
      repeat case_bool_decide; simpl; by intros [= <-].
    + destruct (db.check_unique (users w) r) as [e1|] eqn:Huniq; [|done].
      intros [= <- _]. revert Huniq. unfold db.check_unique.
      destruct (existsb _ _); [by intros [= <-]|].
      destruct (existsb _ _); by intros [= <-].
  - intros [= <- _]. revert Hstore. unfold db.store_row.
    repeat match goal with
           | |- context [db.varchar ?n ?s] => destruct (db.varchar n s)
           end; by intros [= <-].
Qed.

Lemma db_CreateUser_keeps_on_error arg w e w' :
  db.CreateUser arg w = (Err e, w') → users w' = users w.
Proof.
  unfold db.CreateUser, db.gen_random_uuid, rand_Read, get_users, put_users. run.
  destruct (db.store_row _) as [r|e0]; [|by intros [= _ <-]].
  destruct (db.check_row r); [by intros [= _ <-]|].
  destruct (db.check_unique (users w) r); [by intros [= _ <-]|done].
Qed.

Lemma usecase_CreateUser_run
  (uc : usecase.UserUseCase repository.PostgresUserRepository J) input w :
  usecase.CreateUser uc input w =
  if existsb (λ r, bool_decide (row.Email r = usecase.ci_Email input)) (users w)
  then (Err ErrUserAlreadyExists, w)
  else
    let '(created, w1) :=
      user.NewUser (usecase.ci_Email input) (usecase.ci_Password input)
        (usecase.ci_Name input) (usecase.ci_Role input) w in
    match created with
    | Err err => (Err (Errorf "failed to create user entity" err), w1)
    | Ok u =>
        let '(stored, w2) := repository.Postgres_Create (usecase.userRepo uc) u w1 in
        (match stored with
         | Err err => Err (Errorf "failed to create user in repository" err)
         | Ok u => Ok u
         end, w2)
    end.
Proof.
  unfold usecase.CreateUser. run.
  destruct (existsb _ (users w)); [done|].
  destruct (user.NewUser _ _ _ _ w) as [[u|e] w1]; [|done].
  by destruct (repository.Postgres_Create _ u w1) as [[?|?] ?].
Qed.

Lemma usecase_CreateUser_fails
  (uc : usecase.UserUseCase repository.PostgresUserRepository J) input w err w' :
  usecase.CreateUser uc input w = (Err err, w') →
  users w' = users w
  ∧ (err = ErrUserAlreadyExists
     ∧ registered_email (users w) (usecase.ci_Email input) ∧ w' = w
     ∨ ¬ registered_email (users w) (usecase.ci_Email input)
       ∧ err ≠ ErrUserAlreadyExists
       ∧ handlers.mapErrorToHTTPStatus err
         = (http.StatusInternalServerError, "Internal server error")).
Proof.
  rewrite usecase_CreateUser_run.
  destruct (existsb _ (users w)) eqn:Hex.
  - intros [= <- <-]. split; [done|]. left. by rewrite <- existsb_email.
  - assert (¬ registered_email (users w) (usecase.ci_Email input)) as Hno
      by (rewrite <- existsb_email; congruence).
    pose proof (NewUser_preserves (λ t, t = users w) (usecase.ci_Email input)
                  (usecase.ci_Password input) (usecase.ci_Name input)
                  (usecase.ci_Role input) w eq_refl) as Hw1.
    destruct (user.NewUser _ _ _ _ w) as [[u|e] w1] eqn:Hnew; simpl in Hw1.
    + rewrite Postgres_Create_prepared.
      destruct (prepared_keeps u w1) as (Hw2 & _).
      destruct (prepared u w1) as [u1 w2]. simpl in Hw2.
      pose proof (db_CreateUser_keeps_on_error
                    (db.mkCreateUserParams (user.Email u1) (user.Password u1)
                       (user.Name u1) (user.Role_ u1) (user.IsActive u1)
                       (user.CreatedAt u1) (user.UpdatedAt u1)) w2) as Hkeep.
      destruct (db.CreateUser _ w2) as [[r|e] w3] eqn:Hdb; simpl; [done|].
      intros [= <- <-]. split; [rewrite (Hkeep e w3 eq_refl); congruence|].
      right. split_and!; [done|done|].
      rewrite mapErrorToHTTPStatus_Errorf. apply plain_status.
      by apply db_CreateUser_errors in Hdb.
    + intros [= <- <-]. split; [done|]. right. split_and!; [done|done|].
      apply plain_status. by apply NewUser_errors in Hnew.
Qed.

(** X8.  The answers of [CreateUser] to a request that binds: 400
    "Invalid role" for a role outside the three; 409 "User already exists",
    with nothing changed, when a row has the email; otherwise 201 with the
    user created, or 500 "Internal server error" with the table unchanged
    (a password over 72 bytes, an empty name, a value the table refuses).
    The use case fails with [ErrUserAlreadyExists] exactly when a row has
    the email. *)
Theorem CreateUser_statuses
  (h : handlers.UserHandler repository.PostgresUserRepository J)
  (req : handlers.CreateUserRequest) (c : gin.Context) (w : World) :
  let input := usecase.mkCreateUserInput (handlers.cr_Email req)
                 (handlers.cr_Password req) (handlers.cr_Name req)
                 (handlers.cr_Role req) in
  let out := handlers.CreateUser h (Ok req) c w in
  (user.isValidRole (handlers.cr_Role req) = false →
   out = (gin.JSON_ c 400 (handlers.ErrorResponse "Invalid role" "invalid role"), w))
  ∧ (user.isValidRole (handlers.cr_Role req) = true →
     registered_email (users w) (handlers.cr_Email req) →
     out = (gin.JSON_ c 409 (handlers.ErrorResponse "Failed to create user"
                               "User already exists"), w))
  ∧ (user.isValidRole (handlers.cr_Role req) = true →
     ¬ registered_email (users w) (handlers.cr_Email req) →
     (∃ u, fst (usecase.CreateUser (handlers.userUseCase h) input w) = Ok u
           ∧ fst out = gin.JSON_ c 201 (Marshal_User u))
     ∨ (fst out = gin.JSON_ c 500 (handlers.ErrorResponse "Failed to create user"
                                      "Internal server error")
        ∧ users (snd out) = users w))
  ∧ (fst (usecase.CreateUser (handlers.userUseCase h) input w) = Err ErrUserAlreadyExists
     ↔ registered_email (users w) (handlers.cr_Email req)).
Proof.
  intros input out.
  assert (Hrun : user.isValidRole (handlers.cr_Role req) = true →
    out =
    let '(output, w') := usecase.CreateUser (handlers.userUseCase h) input w in
    (match output with
     | Err err =>
         gin.JSON_ c (fst (handlers.mapErrorToHTTPStatus err))
           (handlers.ErrorResponse "Failed to create user"
              (snd (handlers.mapErrorToHTTPStatus err)))
     | Ok u => gin.JSON_ c http.StatusCreated (Marshal_User u)
     end, w')).
  { intros Hrole. subst out. unfold handlers.CreateUser.
    rewrite validateRole_isValidRole, Hrole. run.
    fold input.
    destruct (usecase.CreateUser _ input w) as [[u|err] w']; [done|].
    by destruct (handlers.mapErrorToHTTPStatus err). }
  split_and!.
  - intros Hrole. subst out. unfold handlers.CreateUser.
    by rewrite validateRole_isValidRole, Hrole.
  - intros Hrole Hreg. rewrite (Hrun Hrole).
    apply existsb_email in Hreg.
    rewrite usecase_CreateUser_run. simpl. by rewrite Hreg.
  - intros Hrole Hno. rewrite (Hrun Hrole).
    destruct (usecase.CreateUser _ input w) as [[u|err] w'] eqn:Hcreate.
    + left. eauto.
    + right. apply usecase_CreateUser_fails in Hcreate
        as (Hw' & [(_ & Hreg & _)|(_ & _ & Hstatus)]); [done|].
      simpl. by rewrite Hstatus.
  - split.
    + intros Herr.
      destruct (usecase.CreateUser _ input w) as [[u|err] w'] eqn:Hcreate; [done|].
      simpl in Herr. injection Herr as ->.
      apply usecase_CreateUser_fails in Hcreate
        as (_ & [(_ & Hreg & _)|(_ & Hne & _)]); done.
    + intros Hreg. apply existsb_email in Hreg.
      rewrite usecase_CreateUser_run. simpl. by rewrite Hreg.
Qed.

End Creation.

(** ** The password rule of the validator *)

Lemma some_byte_has P s : some_byte P s = true ↔ has_byte P s.
Proof.
  unfold has_byte. induction s as [|a s IH]; simpl.
  - split; [done|]. by intros (i & b & ? & _).
  - rewrite orb_true_iff, IH. split.
    + intros [Ha|(i & b & Hget & Hb)]; [by exists 0%nat, a|by exists (S i), b].
    + intros ([|i] & b & Hget & Hb); simpl in Hget.
      * left. congruence.
      * right. eauto.
Qed.

Lemma scan_some_byte password hasLetter hasNumber :
  validator.scan password hasLetter hasNumber =
  (hasLetter || some_byte validator.is_letter password,
   hasNumber || some_byte validator.is_number password).
Proof.
  revert hasLetter hasNumber.
  induction password as [|a s IH]; intros l n; simpl.
  - by rewrite !orb_false_r.
  - rewrite IH. by destruct (validator.is_letter a), (validator.is_number a), l, n.
Qed.

(** X11.  The custom rule [validatePassword] accepts exactly the
    passwords of at least 6 bytes that hold a letter of ASCII and a digit.
    A password it accepts can be set with [SetPassword] exactly when it has
    at most 72 bytes.  No byte is both a letter and a digit. *)
Theorem validatePassword_accepts `{bcrypt.Blowfish} (password : string) :
  (validator.validatePassword password = true
   ↔ (6 ≤ String.length password)%nat
     ∧ has_byte validator.is_letter password
     ∧ has_byte validator.is_number password)
  ∧ (validator.validatePassword password = true →
     ∀ u w, (∃ u' w', user.SetPassword u password w = (Ok u', w'))
            ↔ (String.length password ≤ 72)%nat)
  ∧ (∀ a, validator.is_letter a = true → validator.is_number a = false).
Proof.
  assert (Hiff : validator.validatePassword password = true
    ↔ (6 ≤ String.length password)%nat
      ∧ has_byte validator.is_letter password
      ∧ has_byte validator.is_number password).
  { unfold validator.validatePassword. rewrite scan_some_byte. simpl.
    rewrite <- !some_byte_has.
    destruct (Nat.ltb_spec (String.length password) 6).
    - split; [done|]. lia.
    - rewrite andb_true_iff. split; [by intros []|by intros (_ & ? & ?)]. }
  split_and!; [done| |].
  - intros (Hlen & _)%Hiff u w. split.
    + intros (u' & w' & Hset). apply SetPassword_inv in Hset. lia.
    + intros Hfit.
      destruct (SetPassword_valid u password w (conj Hlen Hfit)) as (h & _ & Hset).
      eauto.
  - intros a. unfold validator.is_letter, validator.is_number. cbv zeta.
    generalize (nat_of_ascii a). intros n.
    rewrite orb_true_iff, !andb_true_iff, andb_false_iff, !Nat.leb_le, !Nat.leb_gt.
    lia.
Qed.

Section RoundTrips.
Context `{bcrypt.Blowfish} `{db.Engine} `{uuid.Format} {J : Type} `{auth.JWTService J}.

Lemma usecase_CreateUser_row
  (uc : usecase.UserUseCase repository.PostgresUserRepository J) input w u w' :
  usecase.CreateUser uc input w = (Ok u, w') →
  ∃ r, users w' = (users w ++ [r])%list
       ∧ u = repository.mapDBUserToDomainUser r
       ∧ db.check_row r = None ∧ db.check_unique (users w) r = None.
Proof.
  rewrite usecase_CreateUser_run.
  destruct (existsb _ (users w)); [done|].
  pose proof (NewUser_preserves (λ t, t = users w) (usecase.ci_Email input)
                (usecase.ci_Password input) (usecase.ci_Name input)
                (usecase.ci_Role input) w eq_refl) as Hw1.
  destruct (user.NewUser _ _ _ _ w) as [[u0|e] w1]; [|done]. simpl in Hw1.
  destruct (repository.Postgres_Create _ u0 w1) as [[u1|e] w2] eqn:Hstore; [|done].
  intros [= <- <-]. apply Postgres_Create_fresh in Hstore as (r & Hw2 & Hu & Hr).
  exists r. by rewrite <- Hw1.
Qed.

(** X9.  A user that [CreateUser] returned is found again: in the world
    it leaves, [GetUserByEmail] with the user's email and [GetUserByID] with
    the user's id return that same user and change nothing, provided the
    uuid library parses the text of each id of the table back to the id.
    The email was not registered before, is registered now, and the table
    has one row more. *)
Theorem created_user_is_found
  (uc : usecase.UserUseCase repository.PostgresUserRepository J)
  (input : usecase.CreateUserInput) (w w' : World) (u : user.User) :
  usecase.CreateUser uc input w = (Ok u, w') →
  Forall (λ r, uuid.Parse (uuid.String_ (row.ID r)) = Ok (row.ID r)) (users w') →
  usecase.GetUserByEmail uc (user.Email u) w' = (Ok u, w')
  ∧ usecase.GetUserByID uc (user.ID u) w' = (Ok u, w')
  ∧ registered_email (users w') (user.Email u)
  ∧ ¬ registered_email (users w) (user.Email u)
  ∧ length (users w') = S (length (users w)).
Proof.
  intros Hcreate Hids.
  apply usecase_CreateUser_row in Hcreate as (r & Hw' & -> & Hrow & Huniq).
  apply check_unique_None in Huniq.
  rewrite Hw' in Hids. apply Forall_app in Hids as [_ Hr].
  apply (proj1 (Forall_singleton _ _)) in Hr.
  split_and!.
  - unfold usecase.GetUserByEmail. run. rewrite Postgres_GetByEmail_run, Hw'.
    rewrite (filter_last row.Email); [done|].
    eapply Forall_impl; [exact Huniq|]. by intros o [_ ?].
  - unfold usecase.GetUserByID. run. rewrite (Postgres_GetByID_run _ _ _ _ Hr), Hw'.
    rewrite (filter_last row.ID); [done|].
    eapply Forall_impl; [exact Huniq|]. by intros o [? _].
  - exists r. rewrite Hw'. split; [|done]. apply elem_of_app. right. by left.
  - intros (o & Ho & Heq). rewrite Forall_forall in Huniq.
    destruct (Huniq o Ho) as [_ Hne]. done.
  - rewrite Hw', length_app. simpl. lia.
Qed.

(** X10.  [DeleteUser] answers 204 whether or not the user exists: for
    an id that parses, the handler removes the rows of that id (none, when
    there is none: the table is then unchanged) and writes status 204 with
    no body; the repository never reports [ErrUserNotFound].  Deleting
    again changes nothing, and [GetUserByID] for that id then fails with
    [ErrUserNotFound], answered 404 "User not found". *)
Theorem delete_answers_no_content
  (h : handlers.UserHandler repository.PostgresUserRepository J)
  (c : gin.Context) (w : World) (id : uuid.UUID) :
  gin.Param c "id" ≠ "" →
  uuid.Parse (gin.Param c "id") = Ok id →
  let w' := with_users w (filter (λ r, row.ID r ≠ id) (users w)) in
  handlers.DeleteUser h c w = (gin.Status c 204, w')
  ∧ (id ∉ map row.ID (users w) → users w' = users w)
  ∧ usecase.DeleteUser (handlers.userUseCase h) (gin.Param c "id") w' = (None, w')
  ∧ usecase.GetUserByID (handlers.userUseCase h) (gin.Param c "id") w'
    = (Err ErrUserNotFound, w')
  ∧ handlers.GetUserByID h c w'
    = (gin.JSON_ c 404 (handlers.ErrorResponse "Failed to get user" "User not found"),
       w').
Proof.
  intros Hparam Hparse w'.
  assert (Hdelete : ∀ w0,
    usecase.DeleteUser (handlers.userUseCase h) (gin.Param c "id") w0
    = (None, with_users w0 (filter (λ r, row.ID r ≠ id) (users w0)))).
  { intros w0. unfold usecase.DeleteUser. run.
    by rewrite (Postgres_Delete_run _ _ _ _ Hparse). }
  assert (Hget :
    usecase.GetUserByID (handlers.userUseCase h) (gin.Param c "id") w'
    = (Err ErrUserNotFound, w')).
  { unfold usecase.GetUserByID. run.
    rewrite (Postgres_GetByID_run _ _ _ _ Hparse).
    subst w'. simpl. by rewrite (filter_absent row.ID) by apply filter_gone. }
  split_and!.
  - unfold handlers.DeleteUser. rewrite bool_decide_eq_false_2 by done.
    rewrite Hparse. run. by rewrite Hdelete.
  - intros Hno. simpl. by apply (filter_others row.ID).
  - rewrite Hdelete. subst w'. unfold with_users. simpl.
    by rewrite (filter_others row.ID) by apply filter_gone.
  - done.
  - unfold handlers.GetUserByID. rewrite bool_decide_eq_false_2 by done.
    rewrite Hparse. run. by rewrite Hget.
Qed.

End RoundTrips.

(** The registered account is valid, and stays so when it is activated or
    deactivated. *)
Lemma mutators_keep_valid_witness :
  valid sample.account
  ∧ valid (user.Activate sample.account sample.world).1
  ∧ valid (user.Deactivate sample.account sample.world).1.
Proof.
  assert (Hvalid : valid sample.account) by reflexivity.
  destruct (mutators_keep_valid sample.account sample.world Hvalid)
    as (_ & _ & _ & _ & Hactivate & _ & Hdeactivate & _).
  done.
Defined.

(** The registered account is found by its email and by its id. *)
Lemma created_user_is_found_witness :
  usecase.GetUserByEmail (handlers.userUseCase sample.handler)
    (user.Email sample.account) sample.registered
  = (Ok sample.account, sample.registered)
  ∧ usecase.GetUserByID (handlers.userUseCase sample.handler)
      (user.ID sample.account) sample.registered
    = (Ok sample.account, sample.registered).
Proof.
  destruct (created_user_is_found (handlers.userUseCase sample.handler)
              sample.registration sample.world sample.registered sample.account
              sample_registration) as (Hemail & Hid & _).
  - assert (Hlen : length (users sample.registered) = 1%nat)
      by (vm_compute; reflexivity).
    destruct (users sample.registered) as [|r [|]] eqn:Hrows; try done.
    apply Forall_singleton.
    assert (Hr : nth 0 (users sample.registered) r = r) by (by rewrite Hrows).
    rewrite <- Hr. vm_compute. reflexivity.
  - done.
Defined.

(** Deleting a user that does not exist is answered 204. *)
Lemma delete_answers_no_content_witness :
  handlers.DeleteUser sample.handler scenario.stranger sample.registered
  = (gin.Status scenario.stranger 204,
     with_users sample.registered
       (filter (λ r, row.ID r ≠ "0123456789abcdef") (users sample.registered))).
Proof.
  destruct (delete_answers_no_content sample.handler scenario.stranger
              sample.registered "0123456789abcdef") as (Hdelete & _).
  - vm_compute. discriminate.
  - vm_compute. reflexivity.
  - exact Hdelete.
Defined.

(** ** The route groups *)

Section Gates.
Context {J : Type} `{auth.JWTService J}.

Lemma AuthMiddleware_run (jwtService : J) Next c w :
  ((∀ token, ¬ bearer (gin.GetHeader c "Authorization") token)
   ∧ middleware.AuthMiddleware jwtService Next c w
     = (gin.Returned (turned_away c None), w))
  ∨ (∃ token, bearer (gin.GetHeader c "Authorization") token
       ∧ middleware.AuthMiddleware jwtService Next c w =
         match auth.ValidateToken jwtService token w with
         | (Ok claims, w1) => Next (identified c claims) w1
         | (Err err, w1) => (gin.Returned (turned_away c (Some err)), w1)
         end).
Proof.
  unfold middleware.AuthMiddleware, turned_away. cbv zeta.
  set (authHeader := gin.GetHeader c "Authorization").
  case_bool_decide as Hempty.
  - left. split; [|done]. intros token. rewrite Hempty. done.
  - destruct (bearer_dec authHeader) as [[token Hbearer]|Hnone].
    + right. exists token. split; [done|].
      unfold bearer in Hbearer. rewrite Hbearer. simpl. run.
      by destruct (auth.ValidateToken jwtService token w) as [[claims|err] w1].
    + left. split; [done|]. unfold bearer in Hnone.
      destruct (strings_Split authHeader " ") as [|first [|token [|? ?]]]; try done.
      simpl. destruct (decide (first = "Bearer")) as [->|Hfirst].
      * by destruct (Hnone token).
      * by rewrite bool_decide_eq_false_2.
Qed.

End Gates.

Lemma ValidateToken_ticks `{jwt.Primitives auth.Claims}
  (j : auth.jwtService) tokenString w :
  (auth.ValidateToken j tokenString w).2 = w
  ∨ (auth.ValidateToken j tokenString w).2
    = mkWorld (clock w) (S (ticks w)) (entropy w) (draws w) (users w).
Proof.
  simpl. unfold auth.jwtService_ValidateToken, jwt.ParseWithClaims, jwt.Validate. run.
  destruct (jwt.ParseUnverified tokenString) as [[t parts]|u]; [|left; by destruct u].
  destruct (jwt.DecodeSegment _); [|by left].
  destruct (jwt.Verify _ _ _ _); simpl; [|by left].
  right. destruct (_ ++ _)%list as [|e errs]; simpl; [done|].
  by destruct (bool_decide _).
Qed.

(** X12.  The route groups are gated.  A handler of the group users runs
    only on a request whose Authorization header is a bearer token that
    validates, and then on the context with the identity of the token's
    claims; a handler of the admin routes runs only if, moreover, the role of
    the claims is admin.  Every other request is turned away with 401 or
    403 and the chain aborted: the outcome does not depend on the handler,
    and the world is as before but for the readings of the clock. *)
Theorem route_groups_are_gated `{jwt.Primitives auth.Claims}
  (jwtService : auth.jwtService) (handler : gin.Context → M gin.Context)
  (c : gin.Context) (w : World) :
  let authorization := gin.GetHeader c "Authorization" in
  let turned (run : gin.outcome * World) :=
    ∃ c0 status error message,
      run = (gin.Returned (reject c0 status error message),
             mkWorld (clock w) (ticks (snd run)) (entropy w) (draws w) (users w))
      ∧ status ∈ [401; 403]%Z
      ∧ gin.Written c0 = gin.Written c in
  ((∃ token claims w1,
      bearer authorization token
      ∧ auth.ValidateToken jwtService token w = (Ok claims, w1)
      ∧ router.users_route jwtService handler c w
        = router.handle handler (identified c claims) w1)
   ∨ (turned (router.users_route jwtService handler c w)
      ∧ ∀ handler', router.users_route jwtService handler' c w
                    = router.users_route jwtService handler c w))
  ∧ ((∃ token claims w1,
        bearer authorization token
        ∧ auth.ValidateToken jwtService token w = (Ok claims, w1)
        ∧ auth.Role claims = "admin"
        ∧ router.admin_route jwtService handler c w
          = router.handle handler (identified c claims) w1)
     ∨ (turned (router.admin_route jwtService handler c w)
        ∧ ∀ handler', router.admin_route jwtService handler' c w
                      = router.admin_route jwtService handler c w)).
Proof.
  intros authorization turned.
  assert (Hframe : ∀ token r w1,
    auth.ValidateToken jwtService token w = (r, w1) →
    w1 = mkWorld (clock w) (ticks w1) (entropy w) (draws w) (users w)).
  { intros token r w1 Hval.
    pose proof (ValidateToken_ticks jwtService token w) as Hw1.
    rewrite Hval in Hw1. simpl in Hw1.
    destruct Hw1 as [->| ->]; by destruct w. }
  assert (Hnone : ∀ run : gin.outcome * World,
    run = (gin.Returned (turned_away c None), w) → turned run).
  { intros run ->. unfold turned, turned_away.
    case_bool_decide; eexists c, 401%Z, _, _; simpl; destruct w;
      (split_and!; [done|set_solver|done]). }
  assert (Herr : ∀ run err w1 token,
    auth.ValidateToken jwtService token w = (Err err, w1) →
    run = (gin.Returned (turned_away c (Some err)), w1) → turned run).
  { intros run err w1 token Hval ->. unfold turned, turned_away.
    eexists c, 401%Z, _, _. simpl.
    split_and!; [by rewrite (Hframe _ _ _ Hval) at 1|set_solver|done]. }
  split.
  - unfold router.users_route.
    destruct (AuthMiddleware_run jwtService (router.handle handler) c w)
      as [[Hno Hrun]|(token & Hbearer & Hrun)].
    + right. split; [by apply Hnone|]. intros handler'.
      destruct (AuthMiddleware_run jwtService (router.handle handler') c w)
        as [[_ Hrun']|(token & Hbearer & _)]; [congruence|by destruct (Hno token)].
    + destruct (auth.ValidateToken jwtService token w) as [[claims|err] w1] eqn:Hval.
      * left. by exists token, claims, w1.
      * right. split; [by eapply Herr|]. intros handler'.
        destruct (AuthMiddleware_run jwtService (router.handle handler') c w)
          as [[Hno _]|(token' & Hbearer' & Hrun')]; [by destruct (Hno token)|].
        assert (token' = token) as -> by (unfold bearer in *; congruence).
        rewrite Hval in Hrun'. congruence.
  - unfold router.admin_route.
    pose (gate handler := middleware.RoleMiddleware ["admin"] (router.handle handler)).
    destruct (AuthMiddleware_run jwtService (gate handler) c w)
      as [[Hno Hrun]|(token & Hbearer & Hrun)].
    + right. split; [by apply Hnone|]. intros handler'.
      destruct (AuthMiddleware_run jwtService (gate handler') c w)
        as [[_ Hrun']|(token & Hbearer & _)]; [unfold gate in *; congruence|by destruct (Hno token)].
    + destruct (auth.ValidateToken jwtService token w) as [[claims|err] w1] eqn:Hval.
      * unfold gate in Hrun. rewrite role_gate_after_auth in Hrun.
        case_bool_decide as Hadmin.
        -- left. exists token, claims, w1. split_and!; try done.
           by apply list_elem_of_singleton in Hadmin.
        -- right. split.
           ++ rewrite Hrun. unfold turned.
              eexists (identified c claims), 403%Z, _, _. simpl.
              split_and!; [by rewrite (Hframe _ _ _ Hval) at 1|set_solver|done].
           ++ intros handler'.
              destruct (AuthMiddleware_run jwtService (gate handler') c w)
                as [[Hno _]|(token' & Hbearer' & Hrun')]; [by destruct (Hno token)|].
              assert (token' = token) as -> by (unfold bearer in *; congruence).
              rewrite Hval in Hrun'. unfold gate in Hrun'.
              rewrite role_gate_after_auth in Hrun'.
              rewrite bool_decide_eq_false_2 in Hrun' by done.
              unfold gate in *. congruence.
      * right. split; [by eapply Herr|]. intros handler'.
        destruct (AuthMiddleware_run jwtService (gate handler') c w)
          as [[Hno _]|(token' & Hbearer' & Hrun')]; [by destruct (Hno token)|].
        assert (token' = token) as -> by (unfold bearer in *; congruence).
        rewrite Hval in Hrun'. unfold gate in *. congruence.
Qed.

(** ** Listing users *)

Section Listing.
Context `{db.Engine} `{uuid.Format}.







Context `{bcrypt.Blowfish} {J : Type} `{auth.JWTService J}.

Lemma usecase_ListUsers_run
  (uc : usecase.UserUseCase repository.PostgresUserRepository J) input w :
  let limit := if (usecase.li_Limit input <=? 0)%Z then 10%Z
               else usecase.li_Limit input in
  let offset := if (usecase.li_Offset input <? 0)%Z then 0%Z
                else usecase.li_Offset input in
  usecase.ListUsers uc input w =
  (if (db.int32 limit <? 0)%Z then
     Err (Errorf "failed to list users"
            (Errorf "failed to list users from database"
               (Driver "LIMIT must not be negative")))
   else if (db.int32 offset <? 0)%Z then
     Err (Errorf "failed to list users"
            (Errorf "failed to list users from database"
               (Driver "OFFSET must not be negative")))
   else
     Ok (usecase.mkListUsersOutput
           (map repository.mapDBUserToDomainUser
              (take (Z.to_nat (db.int32 limit))
                 (drop (Z.to_nat (db.int32 offset))
                    (db.order_by_created_at_desc (users w)))))
           (Z.of_nat (length (users w)))), w).
Proof.
  intros limit offset. unfold usecase.ListUsers. fold limit offset. simpl.
  unfold repository.Postgres_List, repository.Postgres_Count, db.ListUsers,
    db.CountUsers, get_users. run.
  destruct (db.int32 limit <? 0)%Z; [done|].
  by destruct (db.int32 offset <? 0)%Z.
Qed.


(** X14.  The limit is converted to 32 bits: a request whose limit is
    positive and wraps to a negative [int32] (2^31, for one) passes the
    checks of the handler and is answered 500 "Internal server error", with
    nothing changed. *)
Theorem list_limit_wraps
  (h : handlers.UserHandler repository.PostgresUserRepository J)
  (c : gin.Context) (w : World) (offset limit : Z) :
  strconv.Atoi (gin.DefaultQuery c "offset" "0") = Ok offset →
  strconv.Atoi (gin.DefaultQuery c "limit" "10") = Ok limit →
  (0 ≤ offset)%Z → (0 < limit)%Z →
  (db.int32 limit < 0)%Z →
  handlers.ListUsers h c w =
  (gin.JSON_ c 500 (handlers.ErrorResponse "Failed to list users"
                      "Internal server error"), w).
Proof.
  intros Hoffset Hlimit Hnat Hpos Hwrap.
  unfold handlers.ListUsers. rewrite Hoffset, Hlimit.
  destruct (Z.ltb_spec offset 0); [lia|]. destruct (Z.leb_spec limit 0); [lia|].
  run. pose proof (usecase_ListUsers_run (handlers.userUseCase h)
                     (usecase.mkListUsersInput offset limit) w) as Hrun.
  cbv zeta in Hrun. simpl in Hrun.
  destruct (Z.leb_spec limit 0); [lia|].
  destruct (Z.ltb_spec (db.int32 limit) 0); [|lia].
  by rewrite Hrun.
Qed.

End Listing.


(** A limit of 2^31 is answered 500. *)
Lemma list_limit_wraps_witness :
  handlers.ListUsers sample.handler scenario.greedy sample.registered
  = (gin.JSON_ scenario.greedy 500
       (handlers.ErrorResponse "Failed to list users" "Internal server error"),
     sample.registered).
Proof.
  apply (list_limit_wraps sample.handler scenario.greedy sample.registered
           0 2147483648).
  - vm_compute. reflexivity.
  - vm_compute. reflexivity.
  - lia.
  - lia.
  - vm_compute. reflexivity.
Defined.
